(** * Video classification tool ([bruh.py]): a shallow embedding

    The grid player shows every clip of a folder at once, lets the operator
    click a cell and label the clip with a key, and appends each label to a
    CSV log.  This file embeds the functions of [bruh.py] and, further
    down, those of [video_downloader.py], and proves properties of them.

    Conventions of the embedding:
    - Python [str] values are [string]s; a character beyond ASCII stands
      as the bytes of its UTF-8 encoding.  The character classes ([\d],
      [\w]), [upper], [lower], [strip] and [int] of the embedding are the
      ASCII ones: they are Python's on ASCII text.
    - Python [int] values that may be negative (pointer coordinates, key
      codes, list indices) are [Z]; [//] is [Z.div] (both round down).
    - Exceptions are values of [exn]; a function that can raise returns
      [result A].  [KeyboardInterrupt] is left out, and so are the failures
      of the terminal and of OpenCV.
    - The globals and the locals that the loop of [main] changes are the
      fields of one [session] record, passed from step to step; the lists
      that go by clip ([caps], [video_done]) are updated by index.
    - The log directory is a finite map from path to node; a CSV file is the
      list of its rows, a row the list of its fields, and stands for the
      text that [csv.writer] writes for these rows, each one ended by the
      line terminator.  Of the ways [open] can fail, the path being a
      directory (and, for reading, missing) is the one embedded.
    - A [cv2.VideoCapture] is an exact cursor over the frames of a clip, and
      a picture is known by its frame number; what [cv2.imshow] receives is
      a record of the cells, not pixels.  The frame loop is also embedded
      over a capture of any behaviour ([Module Player]).
    - The agreement rate is a binary64 float, printed with one decimal. *)

From Stdlib Require Import ZArith Ascii String.
From Stdlib Require Floats.
From stdpp Require Import gmap strings list fin_maps pretty sorting.

Local Open Scope Z_scope.

(** ** Exceptions and results *)

Inductive exn :=
| FileNotFoundError (msg : string)
| NotADirectoryError (path : string)
| IsADirectoryError (path : string)
| IndexError
| KeyError (key : string)
| ZeroDivisionError
| EOFError
| SystemExit (code : Z).

Definition result (A : Type) : Type := exn + A.

Definition ok {A} (a : A) : result A := inr a.
Definition raise {A} (e : exn) : result A := inl e.

Definition bind {A B} (m : result A) (f : A → result B) : result B :=
  match m with
  | inl e => inl e
  | inr a => f a
  end.

Notation "x <- m ;; k" := (bind m (λ x, k))
  (at level 100, m at next level, right associativity, only parsing).

(** ** Strings *)

Module Str.

Definition in_range (lo hi c : ascii) : bool :=
  (Ascii.leb lo c && Ascii.leb c hi)%bool.

Definition is_digit (c : ascii) : bool := in_range "0" "9" c.
Definition is_lower (c : ascii) : bool := in_range "a" "z" c.
Definition is_upper (c : ascii) : bool := in_range "A" "Z" c.

(** [\w]: letters, digits and the underscore. *)
Definition is_word (c : ascii) : bool :=
  (is_digit c || is_lower c || is_upper c || Ascii.eqb c "_")%bool.

Definition upper_char (c : ascii) : ascii :=
  if is_lower c then ascii_of_nat (nat_of_ascii c - 32) else c.

Definition lower_char (c : ascii) : ascii :=
  if is_upper c then ascii_of_nat (nat_of_ascii c + 32) else c.

Fixpoint map (f : ascii → ascii) (s : string) : string :=
  match s with
  | EmptyString => EmptyString
  | String c s' => String (f c) (map f s')
  end.

(** [s.upper()] and [s.lower()]. *)
Definition upper : string → string := map upper_char.
Definition lower : string → string := map lower_char.

Fixpoint all (p : ascii → bool) (s : string) : bool :=
  match s with
  | EmptyString => true
  | String c s' => (p c && all p s')%bool
  end.

(** The first character of [s], if any, is outside the class [p]. *)
Definition stops (p : ascii → bool) (s : string) : bool :=
  match s with
  | EmptyString => true
  | String c _ => negb (p c)
  end.

(** [s.startswith(p)], returning what follows the prefix. *)
Fixpoint strip_prefix (p s : string) : option string :=
  match p, s with
  | EmptyString, _ => Some s
  | String a p', String b s' =>
      if Ascii.eqb a b then strip_prefix p' s' else None
  | String _ _, EmptyString => None
  end.

(** [s.endswith(suf)]. *)
Definition endswith (s suf : string) : bool :=
  let n := String.length s in
  let k := String.length suf in
  (Nat.leb k n && String.eqb (String.substring (n - k) k s) suf)%bool.

(** [s.strip()] for the ASCII blanks: tab to carriage return, the four
    separators and the space. *)
Definition is_blank (c : ascii) : bool :=
  (Ascii.eqb c " " || in_range "009" "013" c || in_range "028" "031" c)%bool.

Fixpoint lstrip (s : string) : string :=
  match s with
  | EmptyString => EmptyString
  | String c s' => if is_blank c then lstrip s' else s
  end.

Definition strip (s : string) : string :=
  String.rev (lstrip (String.rev (lstrip s))).

End Str.

(** [os.path.basename]: what follows the last slash. *)
Fixpoint basename_from (p keep : string) : string :=
  match p with
  | EmptyString => keep
  | String c p' =>
      if Ascii.eqb c "/" then basename_from p' p' else basename_from p' keep
  end.

Definition basename (p : string) : string := basename_from p p.

(** [os.path.join] of a directory and a relative name. *)
Definition path_join (dir name : string) : string :=
  if Str.endswith dir "/" then dir +:+ name else dir +:+ "/" +:+ name.

(** ** Regular expressions

    The fragment of Python's [re] that [extract_label_and_info] uses:
    literals, greedy [c+] over a character class, concatenation and
    capturing groups, matched by backtracking at the start of the subject
    ([re.match] does not require the match to reach the end). *)

Module Re.

Inductive regex :=
| Lit (s : string)
| Plus (cls : ascii → bool)
| Seq (r1 r2 : regex)
| Group (r : regex).

Section Matcher.
Context {A : Type}.

(** Greedy [c+]: take one character of the class, then prefer taking
    more; hand back characters one at a time when the rest of the
    pattern fails.  The continuation receives the text consumed and the
    text left. *)
Fixpoint plus (cls : ascii → bool) (s : string)
    (k : string → string → option A) : option A :=
  match s with
  | EmptyString => None
  | String c s' =>
      if cls c then
        match plus cls s' (λ m rest, k (String c m) rest) with
        | Some r => Some r
        | None => k (String c EmptyString) s'
        end
      else None
  end.

(** [run r s groups k]: match [r] at the start of [s]; [k] receives the
    text consumed, the text left and the groups closed so far. *)
Fixpoint run (r : regex) (s : string) (groups : list string)
    (k : string → string → list string → option A) : option A :=
  match r with
  | Lit l =>
      match Str.strip_prefix l s with
      | Some rest => k l rest groups
      | None => None
      end
  | Plus cls => plus cls s (λ m rest, k m rest groups)
  | Seq r1 r2 =>
      run r1 s groups (λ m1 s1 g1,
        run r2 s1 g1 (λ m2 s2 g2, k (m1 +:+ m2) s2 g2))
  | Group r' =>
      run r' s groups (λ m rest g, k m rest (g ++ [m]))
  end.
End Matcher.

(** [re.match(r, s)]: the captured groups, in order, or [None]. *)
Definition rmatch (r : regex) (s : string) : option (list string) :=
  run r s [] (λ _ _ g, Some g).

End Re.

(** ** Filename parsing *)

(** [r'(channel\d+)_(\d+T\d+)_(\w+)'] *)
Definition label_pattern : Re.regex :=
  Re.Seq (Re.Group (Re.Seq (Re.Lit "channel") (Re.Plus Str.is_digit)))
 (Re.Seq (Re.Lit "_")
 (Re.Seq (Re.Group (Re.Seq (Re.Plus Str.is_digit)
                   (Re.Seq (Re.Lit "T") (Re.Plus Str.is_digit))))
 (Re.Seq (Re.Lit "_")
         (Re.Group (Re.Plus Str.is_word))))).

(** [extract_label_and_info(filename)]: display label, original name and
    model status. *)
Definition extract_label_and_info (filename : string)
    : string * string * string :=
  let base := basename filename in
  match Re.rmatch label_pattern base with
  | Some [channel; timestamp; word] =>
      let status := Str.upper word in
      let display_label := channel +:+ "_" +:+ status in
      let original_name := channel +:+ "_" +:+ timestamp in
      let model_status :=
        if String.eqb status "FOUND" then "FOUND" else "NOT_FOUND" in
      (display_label, original_name, model_status)
  | _ => (base, base, "UNKNOWN")
  end.


(** ** Python lists *)

(** [l[i]] for an index known to be non-negative. *)
Definition py_get {A} (l : list A) (i : nat) : result A :=
  match l !! i with
  | Some a => ok a
  | None => raise IndexError
  end.

(** [l[i] = a]: assignment never extends a list. *)
Definition py_set {A} (l : list A) (i : nat) (a : A) : result (list A) :=
  if decide (i < length l)%nat then ok (<[i := a]> l) else raise IndexError.

(** [l[i]] for any integer: a negative index counts from the end. *)
Definition py_index {A} (l : list A) (i : Z) : result A :=
  let n := Z.of_nat (length l) in
  if 0 <=? i then py_get l (Z.to_nat i)
  else if - n <=? i then py_get l (Z.to_nat (n + i))
  else raise IndexError.

(** [a // b] *)
Definition floordiv (a b : Z) : result Z :=
  if b =? 0 then raise ZeroDivisionError else ok (a / b).

(** [ord(c)] *)
Definition ord (c : ascii) : Z := Z.of_nat (nat_of_ascii c).

(** ** Pointer mapping *)

Definition EVENT_LBUTTONDOWN : Z := 1.

(** [mouse_callback(event, x, y, flags, param)]: the new value of the global
    [click_coords]. *)
Definition mouse_callback (event x y : Z) (click_coords : option (Z * Z))
    : option (Z * Z) :=
  if event =? EVENT_LBUTTONDOWN then Some (x, y - 40) else click_coords.

(** [get_clicked_video_index(x, y, cols, rows, frame_width, frame_height,
    total_videos)] *)
Definition get_clicked_video_index
    (x y cols rows frame_width frame_height total_videos : Z)
    : result (option Z) :=
  if y <? 0 then ok None
  else
    let label_height := 30 in
    let video_height_with_label := frame_height + label_height in
    col <- floordiv x frame_width ;;
    row <- floordiv y video_height_with_label ;;
    if (col >=? cols) || (row >=? rows) then ok None
    else
      let index := row * cols + col in
      ok (if index <? total_videos then Some index else None).

(** ** The classification log *)

(** A path of the log directory names a directory or a CSV file, held as
    the rows a [csv.reader] would return. *)
Inductive node :=
| Directory
| File (rows : list (list string)).

(** [os.path.isfile] and [os.path.exists] *)
Definition isfile (fs : gmap string node) (path : string) : bool :=
  match fs !! path with
  | Some (File _) => true
  | _ => false
  end.

Definition path_exists (fs : gmap string node) (path : string) : bool :=
  match fs !! path with
  | Some _ => true
  | None => false
  end.

(** [open(path, 'a')]: the rows already there; a missing file is created. *)
Definition open_append (fs : gmap string node) (path : string)
    : result (list (list string)) :=
  match fs !! path with
  | Some Directory => raise (IsADirectoryError path)
  | Some (File rows) => ok rows
  | None => ok []
  end.

(** [open(path, 'r')] *)
Definition open_read (fs : gmap string node) (path : string)
    : result (list (list string)) :=
  match fs !! path with
  | Some Directory => raise (IsADirectoryError path)
  | Some (File rows) => ok rows
  | None => raise (FileNotFoundError path)
  end.

Definition fieldnames : list string :=
  ["video_name"; "model_status"; "manual_status"].

Definition default_csv : string := "video_classifications.csv".

Definition saved_message (original_name model_status manual_status : string)
    : string :=
  "✓ Saved: " +:+ original_name +:+ " | Model: " +:+ model_status
  +:+ " | Manual: " +:+ manual_status.

(** [save_to_csv(original_name, model_status, manual_status, csv_filename)]:
    the new log directory and the line printed. *)
Definition save_to_csv
    (original_name model_status manual_status csv_filename : string)
    (fs : gmap string node) : result (gmap string node * string) :=
  let file_exists := isfile fs csv_filename in
  csvfile <- open_append fs csv_filename ;;
  let csvfile :=
    if negb file_exists then csvfile ++ [fieldnames] else csvfile in
  let csvfile :=
    csvfile ++ [[original_name; model_status; manual_status]] in
  ok (<[csv_filename := File csvfile]> fs,
      saved_message original_name model_status manual_status).

(** *** Reading the log back *)

(** One row of a [csv.DictReader]: the cells under their column names; a
    column the row is too short for holds [None].  (Cells beyond the last
    column go under the key [None], which no lookup by name reaches.) *)
Definition dict_row (names row : list string) : gmap string (option string) :=
  let d := foldl (λ d kv, <[kv.1 := Some kv.2]> d) ∅ (zip names row) in
  foldl (λ d key, <[key := None]> d) d (drop (length row) names).

(** [list(csv.DictReader(f))]: the first row names the columns, empty rows
    are skipped. *)
Definition dict_reader (rows : list (list string))
    : list (gmap string (option string)) :=
  match rows with
  | [] => []
  | names :: rest =>
      dict_row names <$> filter (λ row, row ≠ []) rest
  end.

(** [row[key]] *)
Definition dict_get (row : gmap string (option string)) (key : string)
    : result (option string) :=
  match row !! key with
  | Some v => ok v
  | None => raise (KeyError key)
  end.

(** [sum(1 for row in data if row['model_status'] == row['manual_status'])] *)
Fixpoint count_agreements (data : list (gmap string (option string)))
    : result nat :=
  match data with
  | [] => ok 0%nat
  | row :: data' =>
      model <- dict_get row "model_status" ;;
      manual <- dict_get row "manual_status" ;;
      n <- count_agreements data' ;;
      ok (if decide (model = manual) then S n else n)
  end.

(** What the program writes on its terminal, line by line. *)
Inductive printed :=
| Line (text : string).

Definition newline : string := String "010" EmptyString.

Fixpoint repeat_string (s : string) (n : nat) : string :=
  match n with
  | O => EmptyString
  | S n' => s +:+ repeat_string s n'
  end.

(** [str(e)] *)
Definition exn_text (e : exn) : string :=
  match e with
  | FileNotFoundError msg => msg
  | NotADirectoryError p => "[Errno 20] Not a directory: '" +:+ p +:+ "'"
  | IsADirectoryError p => "[Errno 21] Is a directory: '" +:+ p +:+ "'"
  | IndexError => "list index out of range"
  | KeyError k => "'" +:+ k +:+ "'"
  | ZeroDivisionError => "integer division or modulo by zero"
  | EOFError => "EOF when reading a line"
  | SystemExit c => pretty c
  end.

Definition could_not_read (csv_filename : string) (e : exn) : printed :=
  Line ("Could not read summary from " +:+ csv_filename +:+ ": "
        +:+ exn_text e).

(** [float(n)] for a count below [2 ^ 53], where the conversion is
    exact. *)
Definition float_of_nat (n : nat) : PrimFloat.float :=
  PrimFloat.of_uint63 (Uint63.of_Z (Z.of_nat n)).

(** [(agreements / len(data)) * 100]: the division of two integers is the
    division of the floats they convert to. *)
Definition accuracy (agreements total : nat) : PrimFloat.float :=
  PrimFloat.mul
    (PrimFloat.div (float_of_nat agreements) (float_of_nat total))
    (float_of_nat 100).

(** [num / den] rounded to the nearest integer, a tie going to the even
    one; [den] is positive. *)
Definition round_half_even (num den : Z) : Z :=
  let q := num / den in
  let r := num mod den in
  if 2 * r <? den then q
  else if den <? 2 * r then q + 1
  else if Z.even q then q else q + 1.

(** The magnitude of a finite float in tenths: its exact value
    [m * 2 ^ e] times ten, rounded to the nearest integer. *)
Definition tenths (m : positive) (e : Z) : Z :=
  if 0 <=? e then 10 * Z.pos m * 2 ^ e
  else round_half_even (10 * Z.pos m) (2 ^ (- e)).

(** [f"{x:.1f}"] *)
Definition format_1f (x : PrimFloat.float) : string :=
  let sign (s : bool) := if s then "-" else "" in
  match FloatOps.Prim2SF x with
  | SpecFloat.S754_zero s => sign s +:+ "0.0"
  | SpecFloat.S754_finite s m e =>
      let t := tenths m e in
      sign s +:+ pretty (t / 10) +:+ "." +:+ pretty (t mod 10)
  | SpecFloat.S754_infinity s => sign s +:+ "inf"
  | SpecFloat.S754_nan => "nan"
  end.

(** [print_summary(csv_filename)]: what it prints.  The [try] block catches
    every exception, so the function itself never raises. *)
Definition print_summary (csv_filename : string) (fs : gmap string node)
    : list printed :=
  if path_exists fs csv_filename then
    match open_read fs csv_filename with
    | inl e => [could_not_read csv_filename e]
    | inr rows =>
        let data := dict_reader rows in
        match data with
        | [] => []
        | _ :: _ =>
            let head :=
              [ Line (newline +:+ repeat_string "=" 60);
                Line "CLASSIFICATION SUMMARY";
                Line (repeat_string "=" 60);
                Line ("Total classifications: " +:+ pretty (length data)) ] in
            match count_agreements data with
            | inl e => head ++ [could_not_read csv_filename e]
            | inr agreements =>
                let disagreements := (length data - agreements)%nat in
                head ++
                [ Line ("Model-Manual agreements: " +:+ pretty agreements);
                  Line ("Model-Manual disagreements: "
                        +:+ pretty disagreements) ] ++
                (if decide (0 < length data)%nat
                 then [ Line ("Agreement rate: "
                              +:+ format_1f (accuracy agreements (length data))
                              +:+ "%") ]
                 else []) ++
                [ Line (newline +:+ "Data saved to: " +:+ csv_filename);
                  Line (repeat_string "=" 60) ]
            end
        end
    end
  else [].

(** ** Decode cursors

    A [cv2.VideoCapture] is taken as an exact cursor over the frames of its
    clip: [read] decodes the frame under the cursor and moves one frame on,
    and fails at the end of the clip or when the clip could not be opened;
    [CAP_PROP_POS_FRAMES] reads and sets the cursor. *)

Record VideoCapture := {
  is_opened : bool;
  frame_count : nat;
  pos_frames : nat;
}.

(** A frame resized to the cell: the [n]-th picture of its clip, or
    [np.zeros]. *)
Inductive frame :=
| Decoded (n : nat)
| Blank.

(** [cap.read()]: [ret, frame] and the capture afterwards. *)
Definition cap_read (cap : VideoCapture) : option nat * VideoCapture :=
  if is_opened cap && bool_decide (pos_frames cap < frame_count cap)%nat
  then (Some (pos_frames cap),
        {| is_opened := true; frame_count := frame_count cap;
           pos_frames := S (pos_frames cap) |})
  else (None, cap).

(** [cap.get(cv2.CAP_PROP_POS_FRAMES)] *)
Definition cap_get_pos (cap : VideoCapture) : nat :=
  if is_opened cap then pos_frames cap else 0%nat.

(** [cap.set(cv2.CAP_PROP_POS_FRAMES, p)] *)
Definition cap_set_pos (cap : VideoCapture) (p : nat) : VideoCapture :=
  if is_opened cap
  then {| is_opened := true; frame_count := frame_count cap; pos_frames := p |}
  else cap.

(** ** Session state *)

(** An entry of [video_info]. *)
Record info := {
  file : string;
  label : string;
  original_name : string;
  model_status : string;
}.

(** The dictionary held by [pending_classification]. *)
Record pending := {
  p_index : Z;
  p_original_name : string;
  p_model_status : string;
}.

(** A cell of the grid: a captioned frame, or the empty padding. *)
Inductive cell :=
| Labeled (f : frame) (caption : string) (highlight : bool)
| Filler.

(** What [cv2.imshow] receives: the status bar (pause flag, mode), the grid
    of cells and, while a clip is being classified, the instruction panel
    with the clip's name and model status. *)
Record image := {
  bar_paused : bool;
  bar_classifying : bool;
  grid_rows : list (list cell);
  overlay : option (string * string);
}.

(** The window [cv2.namedWindow] creates, and what it shows. *)
Inductive window_state :=
| NoWindow
| Window (shown : option image).

(** The locals of [main] that stay fixed once the loop starts. *)
Record grid := {
  cols : Z;
  rows : Z;
  frame_width : Z;
  frame_height : Z;
  total : Z;
  video_info : list info;
}.

(** The globals and the locals of [main] that the loop changes, with the
    log directory, the terminal and the window. *)
Record session := {
  click_coords : option (Z * Z);
  pending_classification : option pending;
  paused : bool;
  caps : list VideoCapture;
  video_done : list bool;
  files : gmap string node;
  stdout : list printed;
  window : window_state;
}.

Definition set_click (v : option (Z * Z)) (s : session) : session :=
  {| click_coords := v; pending_classification := pending_classification s;
     paused := paused s; caps := caps s; video_done := video_done s;
     files := files s; stdout := stdout s; window := window s |}.

Definition set_pending (v : option pending) (s : session) : session :=
  {| click_coords := click_coords s; pending_classification := v;
     paused := paused s; caps := caps s; video_done := video_done s;
     files := files s; stdout := stdout s; window := window s |}.

Definition set_paused (v : bool) (s : session) : session :=
  {| click_coords := click_coords s;
     pending_classification := pending_classification s;
     paused := v; caps := caps s; video_done := video_done s;
     files := files s; stdout := stdout s; window := window s |}.

Definition set_playback (c : list VideoCapture) (d : list bool) (s : session)
    : session :=
  {| click_coords := click_coords s;
     pending_classification := pending_classification s;
     paused := paused s; caps := c; video_done := d;
     files := files s; stdout := stdout s; window := window s |}.

Definition set_files (v : gmap string node) (s : session) : session :=
  {| click_coords := click_coords s;
     pending_classification := pending_classification s;
     paused := paused s; caps := caps s; video_done := video_done s;
     files := v; stdout := stdout s; window := window s |}.

Definition print (text : string) (s : session) : session :=
  {| click_coords := click_coords s;
     pending_classification := pending_classification s;
     paused := paused s; caps := caps s; video_done := video_done s;
     files := files s; stdout := stdout s ++ [Line text];
     window := window s |}.

Definition imshow (img : image) (s : session) : session :=
  {| click_coords := click_coords s;
     pending_classification := pending_classification s;
     paused := paused s; caps := caps s; video_done := video_done s;
     files := files s; stdout := stdout s; window := Window (Some img) |}.

(** ** Playback *)

(** The body of the frame loop for one clip: the capture afterwards, whether
    [video_done[i] = True] is executed, and the frame shown. *)
Definition play_clip (is_paused done : bool) (cap : VideoCapture)
    : VideoCapture * bool * frame :=
  if negb done && negb is_paused then
    let '(ret, cap) := cap_read cap in
    match ret with
    | Some n => (cap, false, Decoded n)
    | None => (cap, true, Blank)
    end
  else if negb done && is_paused then
    let current_pos := cap_get_pos cap in
    let '(ret, cap) := cap_read cap in
    match ret with
    | Some n => (cap_set_pos cap current_pos, false, Decoded n)
    | None => (cap, true, Blank)
    end
  else (cap, false, Blank).

(** [for i, (cap, info) in enumerate(zip(caps, video_info))], from index
    [i]: the captures visited, the flags and the labeled frames. *)
Fixpoint frame_loop (is_paused : bool) (pend : option pending) (i : nat)
    (items : list (VideoCapture * info)) (done : list bool)
    : result (list VideoCapture * list bool * list cell) :=
  match items with
  | [] => ok ([], done, [])
  | (cap, inf) :: items' =>
      d <- py_get done i ;;
      let '(cap', mark, fr) := play_clip is_paused d cap in
      done1 <- (if mark then py_set done i true else ok done) ;;
      let highlight :=
        match pend with
        | Some p => bool_decide (p_index p = Z.of_nat i)
        | None => false
        end in
      r <- frame_loop is_paused pend (S i) items' done1 ;;
      let '(caps', done', cells) := r in
      ok (cap' :: caps', done', Labeled fr (label inf) highlight :: cells)
  end.

(** [all(video_done)] *)
Definition all_done (done : list bool) : bool := forallb id done.

(** The loop that restarts the clips once all have ended, from index [i]. *)
Fixpoint restart_loop (i : nat) (cs : list VideoCapture) (done : list bool)
    : result (list VideoCapture * list bool) :=
  match cs with
  | [] => ok ([], done)
  | cap :: cs' =>
      d <- py_get done i ;;
      r1 <- (if d
             then done1 <- py_set done i false ;; ok (cap_set_pos cap 0, done1)
             else ok (cap, done)) ;;
      r <- restart_loop (S i) cs' r1.2 ;;
      ok (r1.1 :: r.1, r.2)
  end.

(** [rewind_all_videos(caps, video_done)], from index [i]. *)
Fixpoint rewind_loop (i : nat) (cs : list VideoCapture) (done : list bool)
    : result (list VideoCapture * list bool) :=
  match cs with
  | [] => ok ([], done)
  | cap :: cs' =>
      done1 <- py_set done i false ;;
      r <- rewind_loop (S i) cs' done1 ;;
      ok (cap_set_pos cap 0 :: r.1, r.2)
  end.

Definition rewind_all_videos (cs : list VideoCapture) (done : list bool)
    : result (list VideoCapture * list bool) :=
  rewind_loop 0 cs done.

(** ** The frame loop over any capture

    The same loops once more, with the capture known only by the three
    operations the program uses: [cap.read()], and getting and setting
    [CAP_PROP_POS_FRAMES].  Nothing is assumed of what they do. *)

Module Player.
Section Capture.
Context {C P : Type}.
Context (read : C → option nat * C) (get_pos : C → P)
        (set_pos : C → P → C) (zero : P).

(** The body of the frame loop for one clip. *)
Definition play_clip (is_paused done : bool) (cap : C) : C * bool * frame :=
  if negb done && negb is_paused then
    let '(ret, cap) := read cap in
    match ret with
    | Some n => (cap, false, Decoded n)
    | None => (cap, true, Blank)
    end
  else if negb done && is_paused then
    let current_pos := get_pos cap in
    let '(ret, cap) := read cap in
    match ret with
    | Some n => (set_pos cap current_pos, false, Decoded n)
    | None => (cap, true, Blank)
    end
  else (cap, false, Blank).

(** [for i, (cap, info) in enumerate(zip(caps, video_info))], from index
    [i]. *)
Fixpoint frame_loop (is_paused : bool) (pend : option pending) (i : nat)
    (items : list (C * info)) (done : list bool)
    : result (list C * list bool * list cell) :=
  match items with
  | [] => ok ([], done, [])
  | (cap, inf) :: items' =>
      d <- py_get done i ;;
      let '(cap', mark, fr) := play_clip is_paused d cap in
      done1 <- (if mark then py_set done i true else ok done) ;;
      let highlight :=
        match pend with
        | Some p => bool_decide (p_index p = Z.of_nat i)
        | None => false
        end in
      r <- frame_loop is_paused pend (S i) items' done1 ;;
      let '(caps', done', cells) := r in
      ok (cap' :: caps', done', Labeled fr (label inf) highlight :: cells)
  end.

(** The loop that restarts the clips once all have ended, from index [i]. *)
Fixpoint restart_loop (i : nat) (cs : list C) (done : list bool)
    : result (list C * list bool) :=
  match cs with
  | [] => ok ([], done)
  | cap :: cs' =>
      d <- py_get done i ;;
      r1 <- (if d
             then done1 <- py_set done i false ;; ok (set_pos cap zero, done1)
             else ok (cap, done)) ;;
      r <- restart_loop (S i) cs' r1.2 ;;
      ok (r1.1 :: r.1, r.2)
  end.

(** The frame loop followed by the restart: the captures, the flags and
    the labeled frames after lines 290 to 327 of a pass. *)
Definition pass (is_paused : bool) (pend : option pending) (caps : list C)
    (video_info : list info) (video_done : list bool)
    : result (list C * list bool * list cell) :=
  r <- frame_loop is_paused pend 0 (zip caps video_info) video_done ;;
  let '(visited, done, cells) := r in
  let cs := visited ++ drop (length visited) caps in
  r2 <- (if all_done done && negb is_paused
         then restart_loop 0 cs done
         else ok (cs, done)) ;;
  ok (r2.1, r2.2, cells).

End Capture.
End Player.

(** ** Compositing *)

(** [frames[r * cols:(r + 1) * cols]] for [r] in [range(rows)], counting
    down from [n] rows still to cut. *)
Fixpoint cut_rows (n : nat) (width : nat) (cells : list cell)
    : list (list cell) :=
  match n with
  | O => []
  | S n' => take width cells :: cut_rows n' width (drop width cells)
  end.

Definition composite (g : grid) (s : session) (cells : list cell) : image :=
  let want := Z.to_nat (rows g * cols g) in
  let padded := cells ++ replicate (want - length cells) Filler in
  {| bar_paused := paused s;
     bar_classifying :=
       match pending_classification s with Some _ => true | None => false end;
     grid_rows := cut_rows (Z.to_nat (rows g)) (Z.to_nat (cols g)) padded;
     overlay :=
       match pending_classification s with
       | Some p => Some (p_original_name p, p_model_status p)
       | None => None
       end |}.

(** ** One pass of the loop *)

(** How a pass, or the loop, ends. *)
Inductive outcome :=
| Continue (s : session)
| Break (s : session)
| Raised (e : exn) (s : session).

(** The frame loop followed by the restart of the clips once all of them
    have ended and playback is not paused. *)
Definition advance (g : grid) (s : session) : result (session * list cell) :=
  r <- frame_loop (paused s) (pending_classification s) 0
         (zip (caps s) (video_info g)) (video_done s) ;;
  let '(visited, done, cells) := r in
  let cs := visited ++ drop (length visited) (caps s) in
  r2 <- (if all_done done && negb (paused s)
         then restart_loop 0 cs done
         else ok (cs, done)) ;;
  ok (set_playback r2.1 r2.2 s, cells).

(** What [cv2.waitKey(30)] delivers: the pointer events handed to
    [mouse_callback] while it waits, as [(event, x, y)], and the value it
    returns ([-1] when no key was pressed). *)
Record tick_input := {
  mouse : list (Z * Z * Z);
  key_code : Z;
}.

Definition no_input : tick_input := {| mouse := []; key_code := -1 |}.
Definition press (c : ascii) : tick_input := {| mouse := []; key_code := ord c |}.
Definition press_code (k : Z) : tick_input := {| mouse := []; key_code := k |}.
Definition left_click (x y : Z) : tick_input :=
  {| mouse := [(EVENT_LBUTTONDOWN, x, y)]; key_code := -1 |}.

(** [key = cv2.waitKey(30) & 0xFF], after the callbacks have run. *)
Definition wait_key (inp : tick_input) (s : session) : Z * session :=
  let clicks :=
    foldl (λ c ev, mouse_callback ev.1.1 ev.1.2 ev.2 c)
          (click_coords s) (mouse inp) in
  (Z.land (key_code inp) 255, set_click clicks s).

(** The two [save_to_csv] branches: log the decision, leave classification
    mode. *)
Definition classify (manual_status : string) (p : pending) (s : session)
    : outcome :=
  match save_to_csv (p_original_name p) (p_model_status p) manual_status
          default_csv (files s) with
  | inl e => Raised e s
  | inr (fs, msg) => Continue (set_pending None (print msg (set_files fs s)))
  end.

(** The [if]/[elif] chain on the key. *)
Definition on_key (key : Z) (s : session) : outcome :=
  if (key =? ord "q") || (key =? ord "Q") then Break s
  else if key =? ord " " then
    let s := set_paused (negb (paused s)) s in
    let status := if paused s then "PAUSED" else "RESUMED" in
    Continue (print ("Video playback " +:+ status) s)
  else if (key =? ord "r") || (key =? ord "R") then
    match rewind_all_videos (caps s) (video_done s) with
    | inl e => Raised e s
    | inr (cs, done) =>
        Continue (print "All videos rewound to beginning"
                        (set_playback cs done s))
    end
  else
    match pending_classification s with
    | Some p =>
        if (key =? ord "t") || (key =? ord "T") then classify "FOUND" p s
        else if (key =? ord "f") || (key =? ord "F")
        then classify "NOT_FOUND" p s
        else if key =? 27
        then Continue (set_pending None (print "Classification cancelled" s))
        else Continue s
    | None => Continue s
    end.

Definition selected_message (inf : info) : string :=
  "Selected: " +:+ original_name inf +:+ " (Model: " +:+ model_status inf
  +:+ ") -> Press T/F to classify...".

(** The check for a buffered click at the end of the pass. *)
Definition on_click (g : grid) (s : session) : outcome :=
  match click_coords s, pending_classification s with
  | Some (x, y), None =>
      match get_clicked_video_index x y (cols g) (rows g)
              (frame_width g) (frame_height g) (total g) with
      | inl e => Raised e s
      | inr (Some clicked_index) =>
          if clicked_index <? Z.of_nat (length (video_info g)) then
            match py_index (video_info g) clicked_index with
            | inl e => Raised e s
            | inr inf =>
                Continue (set_click None
                  (set_pending
                     (Some {| p_index := clicked_index;
                              p_original_name := original_name inf;
                              p_model_status := model_status inf |})
                     (print (selected_message inf) s)))
            end
          else Continue (set_click None s)
      | inr None => Continue (set_click None s)
      end
  | _, _ => Continue s
  end.

(** The body of [while True]. *)
Definition tick (g : grid) (inp : tick_input) (s : session) : outcome :=
  match advance g s with
  | inl e => Raised e s
  | inr (s1, cells) =>
      let s2 := imshow (composite g s1 cells) s1 in
      let '(key, s3) := wait_key inp s2 in
      match on_key key s3 with
      | Continue s4 => on_click g s4
      | o => o
      end
  end.

(** The loop over the passes of a session; [Continue] when the inputs given
    run out with the loop still going. *)
Fixpoint main_loop (g : grid) (inputs : list tick_input) (s : session)
    : outcome :=
  match inputs with
  | [] => Continue s
  | inp :: inputs' =>
      match tick g inp s with
      | Continue s' => main_loop g inputs' s'
      | o => o
      end
  end.

(** The [finally] block: the summary is printed however the loop ended. *)
Definition finally (s : session) : session :=
  {| click_coords := click_coords s;
     pending_classification := pending_classification s;
     paused := paused s; caps := caps s; video_done := video_done s;
     files := files s;
     stdout := stdout s ++ print_summary default_csv (files s);
     window := NoWindow |}.

(** ** Startup *)

(** What the program asks of the operating system before the loop: the
    tests on paths, directory listings, [glob.glob] and whether a clip opens
    (with its number of frames). *)
Record os := {
  os_exists : string → bool;
  os_listdir : string → result (list string);
  os_isdir : string → bool;
  os_glob : string → list string;
  os_video : string → option nat;
}.

(** [sorted(l)] and [sorted(l, reverse=True)] on strings. *)
Definition sorted (l : list string) : list string :=
  merge_sort String.le l.

Definition sorted_reverse (l : list string) : list string :=
  merge_sort (flip String.le) l.

(** [get_available_folders(base_path)] *)
Definition get_available_folders (o : os) (base_path : string)
    : result (list string) :=
  if negb (os_exists o base_path)
  then raise (FileNotFoundError ("Base path does not exist: " +:+ base_path))
  else
    names <- os_listdir o base_path ;;
    let folders :=
      filter (λ f, os_isdir o (path_join base_path f) = true) names in
    match folders with
    | [] => raise (FileNotFoundError ("No folders found in " +:+ base_path))
    | _ :: _ => ok (sorted_reverse folders)
    end.

(** [int(s)] on a stripped string: an optional sign, then decimal digits in
    which single underscores may separate digits. *)
Definition digit_value (c : ascii) : Z := ord c - ord "0".

Fixpoint int_digits (s : string) (acc : Z) (after_digit : bool) : option Z :=
  match s with
  | EmptyString => if after_digit then Some acc else None
  | String c s' =>
      if Str.is_digit c then int_digits s' (acc * 10 + digit_value c) true
      else if Ascii.eqb c "_" && after_digit then int_digits s' acc false
      else None
  end.

Definition int_of_string (s : string) : option Z :=
  match s with
  | String "-" s' => Z.opp <$> int_digits s' 0 false
  | String "+" s' => int_digits s' 0 false
  | _ => int_digits s 0 false
  end.

(** [f"{i:2d}. {folder}"] *)
Definition menu_line (i : nat) (folder : string) : printed :=
  let num := pretty i in
  Line ((if decide (i < 10)%nat then " " +:+ num else num)
        +:+ ". " +:+ folder).

Definition menu (base_path : string) (folders : list string) : list printed :=
  [ Line (newline +:+ "Available folders in " +:+ base_path +:+ ":");
    Line (repeat_string "-" 50) ]
  ++ imap (λ i folder, menu_line (S i) folder) folders
  ++ [ Line (repeat_string "-" 50) ].

(** [f"Select folder (1-{len(folders)}) or 'q' to quit: "] *)
Definition prompt (folders : list string) : printed :=
  Line ("Select folder (1-" +:+ pretty (length folders)
        +:+ ") or 'q' to quit: ").

(** The [while True] of [select_folder], reading the operator's answers in
    turn; [input] writes its prompt, and raises [EOFError] when there is no
    answer left. *)
Fixpoint ask_folder (base_path : string) (folders : list string)
    (answers : list string) (out : list printed)
    : list printed * result string :=
  let out := out ++ [prompt folders] in
  match answers with
  | [] => (out, raise EOFError)
  | answer :: answers' =>
      let choice := Str.strip answer in
      if String.eqb (Str.lower choice) "q"
      then (out ++ [Line "Exiting..."], raise (SystemExit 0))
      else
        match int_of_string choice with
        | Some choice_num =>
            if (1 <=? choice_num) && (choice_num <=? Z.of_nat (length folders))
            then
              match py_get folders (Z.to_nat (choice_num - 1)) with
              | inl e => (out, inl e)
              | inr selected_folder =>
                  (out ++ [Line ("Selected: " +:+ selected_folder)],
                   ok (path_join base_path selected_folder))
              end
            else
              ask_folder base_path folders answers'
                (out ++ [Line ("Please enter a number between 1 and "
                               +:+ pretty (length folders))])
        | None =>
            ask_folder base_path folders answers'
              (out ++ [Line "Please enter a valid number or 'q' to quit"])
        end
  end.

(** [select_folder(base_path)]: what is printed, and the folder chosen. *)
Definition select_folder (o : os) (base_path : string) (answers : list string)
    : list printed * result string :=
  match get_available_folders o base_path with
  | inl e => ([], inl e)
  | inr folders => ask_folder base_path folders answers (menu base_path folders)
  end.

Definition accepted_extensions : list string :=
  [".mp4"; ".avi"; ".mov"; ".mkv"].

(** [f.lower().endswith(('.mp4', '.avi', '.mov', '.mkv'))] *)
Definition is_video (f : string) : bool :=
  existsb (Str.endswith (Str.lower f)) accepted_extensions.

(** [cv2.VideoCapture(f)] *)
Definition open_capture (o : os) (f : string) : VideoCapture :=
  match os_video o f with
  | Some n => {| is_opened := true; frame_count := n; pos_frames := 0 |}
  | None => {| is_opened := false; frame_count := 0; pos_frames := 0 |}
  end.

Definition make_info (f : string) : info :=
  let '(lbl, name, status) := extract_label_and_info f in
  {| file := f; label := lbl; original_name := name; model_status := status |}.

(** [int(np.ceil(np.sqrt(total)))] *)
Definition ceil_sqrt (n : Z) : Z :=
  let r := Z.sqrt n in
  if r * r =? n then r else r + 1.

Definition instructions (folder : string) : list printed :=
  Line <$>
  [ repeat_string "=" 60;
    "VIDEO CLASSIFICATION TOOL";
    repeat_string "=" 60;
    "Working with folder: " +:+ basename folder;
    newline +:+ "Instructions:";
    "• SPACEBAR to pause/resume video playback";
    "• R to rewind all videos to the beginning";
    "• Click on any video to classify it manually";
    "• When a video is selected, press:";
    "  - 'T' for FOUND (manager is present)";
    "  - 'F' for NOT_FOUND (manager is not present)";
    "  - 'ESC' to cancel selection";
    "• Press 'Q' to quit and see summary";
    "• Results are automatically saved to 'video_classifications.csv'";
    repeat_string "-" 60 ].

(** How [main] ends: it returns, an exception leaves it, or the loop is
    still going when the inputs given run out. *)
Inductive ending :=
| Returned (s : session)
| Propagated (e : exn) (s : session)
| Running (s : session).

(** The globals as the module sets them, before [main] has opened anything. *)
Definition boot (fs : gmap string node) : session :=
  {| click_coords := None; pending_classification := None; paused := false;
     caps := []; video_done := []; files := fs; stdout := [];
     window := NoWindow |}.

Definition say (lines : list printed) (s : session) : session :=
  {| click_coords := click_coords s;
     pending_classification := pending_classification s;
     paused := paused s; caps := caps s; video_done := video_done s;
     files := files s; stdout := stdout s ++ lines; window := window s |}.

(** [main] up to the creation of the window: either [main] is over, or the
    grid and the session the loop starts from. *)
Definition startup (o : os) (base_path : string) (answers : list string)
    (fs : gmap string node) : ending + grid * session :=
  let s := boot fs in
  match select_folder o base_path answers with
  | (out, inl (FileNotFoundError msg)) =>
      inl (Returned (say (out ++ [Line ("Error: " +:+ msg)]) s))
  | (out, inl e) => inl (Propagated e (say out s))
  | (out, inr folder) =>
      let s := say (out ++ instructions folder) s in
      let video_files := sorted (os_glob o (path_join folder "*.*")) in
      let video_files := filter (λ f, is_video f = true) video_files in
      match video_files with
      | [] => inl (Returned (say [Line "No video files found."] s))
      | _ :: _ =>
          let s :=
            say [Line ("Found " +:+ pretty (length video_files)
                       +:+ " video files")] s in
          let cs := open_capture o <$> video_files in
          let infos := make_info <$> video_files in
          let n := Z.of_nat (length video_files) in
          let c := ceil_sqrt n in
          match floordiv (n + c - 1) c with
          | inl e => inl (Propagated e s)
          | inr r =>
              let s :=
                say [ Line ("Display grid: " +:+ pretty r +:+ "x" +:+ pretty c);
                      Line (repeat_string "=" 60) ] s in
              inr ({| cols := c; rows := r; frame_width := 320;
                      frame_height := 240; total := n; video_info := infos |},
                   {| click_coords := click_coords s;
                      pending_classification := pending_classification s;
                      paused := paused s; caps := cs;
                      video_done := replicate (length cs) false;
                      files := files s; stdout := stdout s;
                      window := Window None |})
          end
      end
  end.

(** [main()], fed the operator's answers at the folder prompt and then the
    input of each pass of the loop; [base_path] is what
    [~/Downloads/managerVids] expands to. *)
Definition main (o : os) (base_path : string) (answers : list string)
    (inputs : list tick_input) (fs : gmap string node) : ending :=
  match startup o base_path answers fs with
  | inl e => e
  | inr (g, s) =>
      match main_loop g inputs s with
      | Continue s' => Running s'
      | Break s' => Returned (finally s')
      | Raised e s' => Propagated e (finally s')
      end
  end.

(** * Clip downloader ([video_downloader.py]): a shallow embedding

    The downloader reads the detections listed in a report and fetches
    from the bucket, for each minute asked for, the clip of each channel,
    naming the local copy after the status of the detection; the grid
    player parses these names.

    Conventions of the embedding, beyond those above:
    - The report is the list of the texts of its paragraphs
      ([Document(path).paragraphs]); opening it does not fail.
    - The S3 client is an interface: what each call of [download_file]
      does, succeed or raise, call by call.
    - The log file is the set of the keys its JSON list holds; reading and
      writing it and creating a directory do not fail.
    - What the downloader prints is kept as notices, not as text. *)

(** ** More of Python's strings *)

Module Text.

(** [needle in s] *)
Fixpoint contains (needle s : string) : bool :=
  match Str.strip_prefix needle s with
  | Some _ => true
  | None =>
      match s with
      | String _ s' => contains needle s'
      | EmptyString => false
      end
  end.

(** [s[:n]] and [s[-n:]], for [n > 0]. *)
Definition first (n : nat) (s : string) : string := String.substring 0 n s.

Definition last (n : nat) (s : string) : string :=
  String.substring (String.length s - n) n s.

(** The scan of [s.replace(old, new)] for a non-empty [old]: [skip]
    characters of the occurrence just replaced are still to be passed
    over. *)
Fixpoint replace_from (old new : string) (skip : nat) (s : string)
    : string :=
  match s with
  | EmptyString => EmptyString
  | String c s' =>
      match skip with
      | S n => replace_from old new n s'
      | O =>
          match Str.strip_prefix old s with
          | Some _ => new +:+ replace_from old new (String.length old - 1) s'
          | None => String c (replace_from old new 0 s')
          end
      end
  end.

(** [new] after every character of [s]. *)
Fixpoint follow_each (new s : string) : string :=
  match s with
  | EmptyString => EmptyString
  | String c s' => String c (new +:+ follow_each new s')
  end.

(** [s.replace(old, new)]: every occurrence, from the left, without
    overlap; an empty [old] occurs before every character and at the
    end. *)
Definition replace (s old new : string) : string :=
  match old with
  | EmptyString => new +:+ follow_each new s
  | String _ _ => replace_from old new 0 s
  end.

(** [f"{v}"] for a value that is a string or [None]. *)
Definition format (v : option string) : string :=
  match v with
  | Some s => s
  | None => "None"
  end.

End Text.

(** [range(lo, hi, step)] for a positive [step]. *)
Definition py_range (lo hi step : Z) : list Z :=
  (λ k, lo + step * k) <$> seqZ 0 ((hi - lo + step - 1) / step).

(** ** Regular expressions with counted repetition

    The fragment of Python's [re] that [parse_docx_group_by_HHMM] uses:
    that of the label pattern, with [c{n}] over a character class, and
    [re.findall].  A pattern of this fragment that matches the empty text
    matches nothing else, so the scan for the next match can go on one
    character after an empty match. *)

Module Pat.

Inductive regex :=
| Lit (s : string)
| Plus (cls : ascii → bool)
| Times (n : nat) (cls : ascii → bool)
| Seq (r1 r2 : regex)
| Group (r : regex).

Section Matcher.
Context {A : Type}.

(** [c{n}]: exactly [n] characters of the class. *)
Fixpoint times (n : nat) (cls : ascii → bool) (s : string)
    (k : string → string → option A) : option A :=
  match n with
  | O => k EmptyString s
  | S n' =>
      match s with
      | String c s' =>
          if cls c then times n' cls s' (λ m rest, k (String c m) rest)
          else None
      | EmptyString => None
      end
  end.

Fixpoint run (r : regex) (s : string) (groups : list string)
    (k : string → string → list string → option A) : option A :=
  match r with
  | Lit l =>
      match Str.strip_prefix l s with
      | Some rest => k l rest groups
      | None => None
      end
  | Plus cls => Re.plus cls s (λ m rest, k m rest groups)
  | Times n cls => times n cls s (λ m rest, k m rest groups)
  | Seq r1 r2 =>
      run r1 s groups (λ m1 s1 g1,
        run r2 s1 g1 (λ m2 s2 g2, k (m1 +:+ m2) s2 g2))
  | Group r' =>
      run r' s groups (λ m rest g, k m rest (g ++ [m]))
  end.
End Matcher.

(** The match of [r] at the start of [s], if any: its groups and its
    length. *)
Definition match_at (r : regex) (s : string) : option (list string * nat) :=
  run r s [] (λ m _ g, Some (g, String.length m)).

(** The scan of [re.findall(r, s)]: the groups of the matches, from the
    left, without overlap; [skip] characters of the match just found are
    still to be passed over. *)
Fixpoint findall_from (r : regex) (skip : nat) (s : string)
    : list (list string) :=
  match skip with
  | S n =>
      match s with
      | String _ s' => findall_from r n s'
      | EmptyString => []
      end
  | O =>
      match match_at r s, s with
      | Some (g, len), String _ s' => g :: findall_from r (len - 1) s'
      | Some (g, _), EmptyString => [g]
      | None, String _ s' => findall_from r 0 s'
      | None, EmptyString => []
      end
  end.

Definition findall (r : regex) (s : string) : list (list string) :=
  findall_from r 0 s.

End Pat.

(** ** Reading the report *)

(** An entry of [hhmm_map]. *)
Record entry := {
  e_channel : string;
  e_full_ts : string;
  e_hhmmss : string;
  e_status : option string;
}.

(** [r'channel(\d+)_([0-9]{8}T[0-9]{6})_manager_detections\.txt'] *)
Definition detection_pattern : Pat.regex :=
  Pat.Seq (Pat.Lit "channel")
 (Pat.Seq (Pat.Group (Pat.Plus Str.is_digit))
 (Pat.Seq (Pat.Lit "_")
 (Pat.Seq (Pat.Group (Pat.Seq (Pat.Times 8 Str.is_digit)
                     (Pat.Seq (Pat.Lit "T") (Pat.Times 6 Str.is_digit))))
          (Pat.Lit "_manager_detections.txt")))).

(** [hhmm_map[key].append(e)] on a [defaultdict(list)]. *)
Definition file_under (key : string * string) (e : entry)
    (hhmm_map : gmap (string * string) (list entry))
    : gmap (string * string) (list entry) :=
  <[key := default [] (hhmm_map !! key) ++ [e]]> hhmm_map.

(** The status a paragraph gives to the detections it lists. *)
Definition paragraph_status (text : string) : option string :=
  if Text.contains "'status': 'Found'" text then Some "found"
  else if Text.contains "'status': 'Not Found'" text then Some "not_found"
  else None.

(** The body of [for para in doc.paragraphs]. *)
Definition parse_paragraph (hhmm_map : gmap (string * string) (list entry))
    (text : string) : gmap (string * string) (list entry) :=
  let status := paragraph_status text in
  foldl (λ hhmm_map groups,
           match groups with
           | [channel; full_ts] =>
               let hhmmss := Text.last 6 full_ts in
               let hhmm := Text.first 4 hhmmss in
               let date := Text.first 8 full_ts in
               file_under (date, hhmm)
                 {| e_channel := "channel" +:+ channel;
                    e_full_ts := full_ts;
                    e_hhmmss := hhmmss;
                    e_status := status |} hhmm_map
           | _ => hhmm_map
           end)
        hhmm_map (Pat.findall detection_pattern text).

(** [parse_docx_group_by_HHMM(path)], on the paragraphs of the report. *)
Definition parse_docx_group_by_HHMM (paragraphs : list string)
    : gmap (string * string) (list entry) :=
  foldl parse_paragraph ∅ paragraphs.

(** ** Fetching the clips *)

Definition S3_BUCKET : string := "a2bvideos".

(** What the downloader prints: the lines of [download_from_s3] and of
    [download_videos_by_timestamps], then those of [main]. *)
Inductive notice :=
| Downloaded (key : string)
| Failed (key why : string)
| Skipping (key : string * string)
| NoEntry (channel date hhmm : string)
| AllComplete
| Fulfilled (found_count target_count : Z) (key : string * string)
| NoneDownloaded (key : string * string)
| NotInReport (key : string * string)
| StoppedAtEndOfDay (found_count target_count : Z)
| TargetReached
| ErrorRaised (text : string).

(** [s3_client.download_file(bucket, key, destination)], for the call
    that comes after [n] others: [None] when the object is fetched, the
    text of the exception otherwise. *)
Record s3_client := {
  download_file : nat → string → string → string → option string;
}.

(** What the downloader acts on: the log file, if there is one, the
    directories it asked for, the calls of [download_file] so far with
    their key, their destination and whether they succeeded, and the
    terminal. *)
Record world := {
  log_file : option (gset string);
  made_dirs : list string;
  requests : list (string * string * bool);
  notices : list notice;
}.

Definition notify (n : notice) (w : world) : world :=
  {| log_file := log_file w; made_dirs := made_dirs w;
     requests := requests w; notices := notices w ++ [n] |}.

(** [os.makedirs(path, exist_ok=True)] *)
Definition makedirs (path : string) (w : world) : world :=
  {| log_file := log_file w; made_dirs := made_dirs w ++ [path];
     requests := requests w; notices := notices w |}.

(** [load_log()] *)
Definition load_log (w : world) : gset string :=
  match log_file w with
  | Some keys => keys
  | None => ∅
  end.

(** [save_log(log_set)] *)
Definition save_log (log_set : gset string) (w : world) : world :=
  {| log_file := Some log_set; made_dirs := made_dirs w;
     requests := requests w; notices := notices w |}.

(** [download_from_s3(s3_client, key, destination)] *)
Definition download_from_s3 (s3 : s3_client) (key destination : string)
    (w : world) : bool * world :=
  match download_file s3 (length (requests w)) S3_BUCKET key destination with
  | None =>
      (true,
       notify (Downloaded key)
         {| log_file := log_file w; made_dirs := made_dirs w;
            requests := requests w ++ [(key, destination, true)];
            notices := notices w |})
  | Some why =>
      (false,
       notify (Failed key why)
         {| log_file := log_file w; made_dirs := made_dirs w;
            requests := requests w ++ [(key, destination, false)];
            notices := notices w |})
  end.

(** [['channel502'] + [f'channel{i}' for i in range(602, 2403, 100)]] *)
Definition channel_list : list string :=
  "channel502" :: ((λ i, "channel" +:+ pretty i) <$> py_range 602 2403 100).

(** The key of a clip in the bucket, and the path of its local copy. *)
Definition s3_key_of (channel : string) (e : entry) : string :=
  channel +:+ "_" +:+ e_full_ts e +:+ ".mkv".

Definition local_path_of (folder_path channel : string) (e : entry)
    : string :=
  let filename := s3_key_of channel e in
  let new_filename :=
    Text.replace filename ".mkv"
      ("_" +:+ Text.format (e_status e) +:+ ".mkv") in
  path_join folder_path new_filename.

(** The body of [for channel in channel_list]. *)
Definition fetch_channel (s3 : s3_client) (folder_path date hhmm : string)
    (related_entries : list entry) (st : gset string * world)
    (channel : string) : gset string * world :=
  let '(downloaded_log, w) := st in
  match List.find (λ e, String.eqb (e_channel e) channel) related_entries with
  | Some entry_match =>
      let s3_key := s3_key_of channel entry_match in
      let local_path := local_path_of folder_path channel entry_match in
      if decide (s3_key ∈ downloaded_log) then (downloaded_log, w)
      else
        let '(fetched, w) := download_from_s3 s3 s3_key local_path w in
        if fetched then (downloaded_log ∪ {[s3_key]}, w)
        else (downloaded_log, w)
  | None => (downloaded_log, notify (NoEntry channel date hhmm) w)
  end.

(** The body of [for key in selected_keys]. *)
Definition fetch_key (s3 : s3_client) (base_dir : string)
    (hhmm_map : gmap (string * string) (list entry))
    (st : gset string * world) (key : string * string)
    : gset string * world :=
  match hhmm_map !! key with
  | None => (st.1, notify (Skipping key) st.2)
  | Some related_entries =>
      let '(date, hhmm) := key in
      let base_ts := date +:+ "T" +:+ hhmm in
      let folder_path := path_join base_dir base_ts in
      let w := makedirs folder_path st.2 in
      foldl (fetch_channel s3 folder_path date hhmm related_entries)
            (st.1, w) channel_list
  end.

(** [download_videos_by_timestamps(selected_keys)], on the paragraphs of
    the report, with the client and [BASE_DIR]. *)
Definition download_videos_by_timestamps (paragraphs : list string)
    (s3 : s3_client) (base_dir : string)
    (selected_keys : list (string * string)) (w : world) : world :=
  let hhmm_map := parse_docx_group_by_HHMM paragraphs in
  let downloaded_log := load_log w in
  let st :=
    foldl (fetch_key s3 base_dir hhmm_map) (downloaded_log, w)
          selected_keys in
  notify AllComplete (save_log st.1 st.2).

(** ** The minutes of a day

    The part of [main] that follows the two prompts and the parsing of the
    start: the [while] loop over the minutes left of the day, and the
    closing message.  The time of day is counted in minutes after
    midnight; the day is known by what [strftime("%Y%m%d")] prints for
    it. *)

(** [strftime]'s two digits. *)
Definition two_digits (n : nat) : string :=
  if decide (n < 10)%nat then "0" +:+ pretty n else pretty n.

(** [current_time.strftime("%H%M")], [minute] minutes after midnight. *)
Definition hhmm_str (minute : nat) : string :=
  two_digits (minute / 60) +:+ two_digits (minute mod 60).

(** The locals of [main] that the loop changes, and the machine. *)
Record scan := {
  found_count : Z;
  downloaded_log : gset string;
  machine : world;
}.

(** The body of the [while] loop, up to the step of the clock. *)
Definition visit_minute (paragraphs : list string) (s3 : s3_client)
    (base_dir : string) (target_count : Z) (key : string * string)
    (st : scan) : scan :=
  match parse_docx_group_by_HHMM paragraphs !! key with
  | Some _ =>
      let temp_log := downloaded_log st in
      let w :=
        download_videos_by_timestamps paragraphs s3 base_dir [key]
          (machine st) in
      let downloaded_log := load_log w in
      if decide (size temp_log < size downloaded_log)%nat
      then
        let found_count := found_count st + 1 in
        {| found_count := found_count; downloaded_log := downloaded_log;
           machine := notify (Fulfilled found_count target_count key) w |}
      else
        {| found_count := found_count st; downloaded_log := downloaded_log;
           machine := notify (NoneDownloaded key) w |}
  | None =>
      {| found_count := found_count st;
         downloaded_log := downloaded_log st;
         machine := notify (NotInReport key) (machine st) |}
  end.

(** [while found_count < target_count and current_time <= end_of_day],
    with [left] minutes of the day still to come, the current one
    included: [current_time] is [1440 - left] minutes after midnight.  The
    result tells whether the step of the clock raised: one minute after
    the last minute of the year 9999 is out of the range of [datetime]. *)
Fixpoint scan_day (paragraphs : list string) (s3 : s3_client)
    (base_dir date_str : string) (target_count : Z) (left : nat)
    (st : scan) : scan * bool :=
  match left with
  | O => (st, false)
  | S left' =>
      if found_count st <? target_count then
        let key := (date_str, hhmm_str (1440 - left)) in
        let st := visit_minute paragraphs s3 base_dir target_count key st in
        if (left' =? 0)%nat && String.eqb date_str "99991231"
        then (st, true)
        else scan_day paragraphs s3 base_dir date_str target_count left' st
      else (st, false)
  end.

(** [main()] from [found_count = 0] on, for a start [minute] minutes after
    midnight of the day [date_str]: the count reached and the machine. *)
Definition main_from (paragraphs : list string) (s3 : s3_client)
    (base_dir date_str : string) (target_count : Z) (minute : nat)
    (w : world) : Z * world :=
  let st :=
    {| found_count := 0; downloaded_log := load_log w; machine := w |} in
  let '(st, raised) :=
    scan_day paragraphs s3 base_dir date_str target_count (1440 - minute)
      st in
  (found_count st,
   if raised then notify (ErrorRaised "date value out of range") (machine st)
   else if found_count st <? target_count
   then notify (StoppedAtEndOfDay (found_count st) target_count) (machine st)
   else notify TargetReached (machine st)).
(** * The vocabulary of the properties *)

(** ** Text *)

(** Text made of ASCII characters only: on it the character classes, the
    case mappings, [strip] and [int] of the embedding are Python's. *)
Definition is_ascii (c : ascii) : bool := (nat_of_ascii c <? 128)%nat.

Definition ascii_text (s : string) : Prop := Str.all is_ascii s = true.

(** Text that a CSV file gives back as it was written, whatever the
    encoding it is read in: printable ASCII characters, fewer of them than
    the field size limit of the [csv] module. *)
Definition is_printable (c : ascii) : bool := Str.in_range " " "~" c.

Definition plain (s : string) : Prop :=
  Str.all is_printable s = true ∧ Z.of_nat (String.length s) < 131072.

(** ** Filename parsing *)

(** The shape [channel<digits>_<digits>T<digits>_<word>] followed by
    [rest]. *)
Definition label_shape (ds d1 d2 w rest : string) : string :=
  "channel" +:+ ds +:+ "_" +:+ d1 +:+ "T" +:+ d2 +:+ "_" +:+ w +:+ rest.

Record label_parts (ds d1 d2 w : string) : Prop := {
  parts_ds : ds ≠ "" ∧ Str.all Str.is_digit ds = true;
  parts_d1 : d1 ≠ "" ∧ Str.all Str.is_digit d1 = true;
  parts_d2 : d2 ≠ "" ∧ Str.all Str.is_digit d2 = true;
  parts_w : w ≠ "" ∧ Str.all Str.is_word w = true;
}.

(** Equality up to the case of the letters. *)
Definition caseless_eq (a b : string) : bool :=
  String.eqb (Str.lower a) (Str.lower b).

(** The names the claim calls conforming:
    [channel<digits>_<digits>T<digits>_<word>.<ext>]. *)
Definition conforming (base : string) : Prop :=
  ∃ ds d1 d2 w ext,
    label_parts ds d1 d2 w ∧ base = label_shape ds d1 d2 w ("." +:+ ext).

(** ** The classification log *)

(** A decision to log: original name, model status, manual status. *)
Definition record_row (r : string * string * string) : list string :=
  [r.1.1; r.1.2; r.2].

(** [save_to_csv] called once per decision, in order. *)
Fixpoint append_all (records : list (string * string * string))
    (csv_filename : string) (fs : gmap string node)
    : result (gmap string node) :=
  match records with
  | [] => ok fs
  | r :: records' =>
      r1 <- save_to_csv r.1.1 r.1.2 r.2 csv_filename fs ;;
      append_all records' csv_filename r1.1
  end.

(** A row whose model status and manual status are the same string. *)
Definition agrees (row : list string) : bool :=
  match row with
  | _ :: model :: manual :: _ => String.eqb model manual
  | _ => false
  end.

Definition summary_head (n : nat) : list printed :=
  [ Line (newline +:+ repeat_string "=" 60);
    Line "CLASSIFICATION SUMMARY";
    Line (repeat_string "=" 60);
    Line ("Total classifications: " +:+ pretty n) ].

Definition summary_foot (csv_filename : string) : list printed :=
  [ Line (newline +:+ "Data saved to: " +:+ csv_filename);
    Line (repeat_string "=" 60) ].

(** The three lines on the agreements: [k] of [n] rows agree. *)
Definition summary_counts (k n : nat) : list printed :=
  [ Line ("Model-Manual agreements: " +:+ pretty k);
    Line ("Model-Manual disagreements: " +:+ pretty (n - k)%nat);
    Line ("Agreement rate: " +:+ format_1f (accuracy k n) +:+ "%") ].

(** What the summary prints for a log of these data rows. *)
Definition summary_of (csv_filename : string) (data : list (list string))
    : list printed :=
  match data with
  | [] => []
  | _ :: _ =>
      let n := length data in
      let k := length (filter (λ r, agrees r = true) data) in
      summary_head n ++ summary_counts k n ++ summary_foot csv_filename
  end.

(** The column that a name of the header stands for: the last one of that
    name. *)
Fixpoint column (names : list string) (name : string) : option nat :=
  match names with
  | [] => None
  | n :: names' =>
      match column names' name with
      | Some i => Some (S i)
      | None => if String.eqb n name then Some 0%nat else None
      end
  end.

(** The cells of a row in columns [i] and [j] are the same text, or the
    row reaches neither column. *)
Definition same_cells (i j : nat) (row : list string) : Prop :=
  row !! i = row !! j.

#[global] Instance same_cells_dec i j row : Decision (same_cells i j row).
Proof. unfold same_cells. apply _. Defined.

(** The rows of a log after its first, blank lines apart. *)
Definition data_rows (rest : list (list string)) : list (list string) :=
  filter (λ row, row ≠ []) rest.

(** Every cell of the log at [path], if there is one, is plain text. *)
Definition plain_log (fs : gmap string node) (path : string) : Prop :=
  ∀ rows, fs !! path = Some (File rows) → Forall (Forall plain) rows.

(** The tenth [t] is a nearest one to [k / n * 100]. *)
Definition nearest_tenth (t : Z) (k n : nat) : Prop :=
  2 * Z.abs (1000 * Z.of_nat k - t * Z.of_nat n) ≤ Z.of_nat n.

(** The check that the rate printed for [k] of [n] is a nearest tenth. *)
Definition rate_checked (k n : nat) : bool :=
  match FloatOps.Prim2SF (accuracy k n) with
  | SpecFloat.S754_zero false => bool_decide (k = 0%nat)
  | SpecFloat.S754_finite false m e =>
      2 * Z.abs (1000 * Z.of_nat k - tenths m e * Z.of_nat n) <=? Z.of_nat n
  | _ => false
  end.

(** ** Playback *)

(** The lists of [main] that go by clip have one entry per clip. *)
Definition well_formed (g : grid) (s : session) : Prop :=
  length (caps s) = length (video_info g)
  ∧ length (video_done s) = length (caps s).

(** The session a pass, or the loop, ended in. *)
Definition state_of (o : outcome) : session :=
  match o with
  | Continue s | Break s | Raised _ s => s
  end.

(** The sessions the loop passes through once [main] has started it on the
    grid [g] and the session [s0]. *)
Inductive reachable (g : grid) (s0 : session) : session → Prop :=
| reach_start : reachable g s0 s0
| reach_tick s inp s' :
    reachable g s0 s → tick g inp s = Continue s' → reachable g s0 s'.

(** The decode cursor of a clip, as the program reads it. *)
Definition cursor (cap : VideoCapture) : nat := cap_get_pos cap.

(** A read would decode a frame. *)
Definition can_read (cap : VideoCapture) : bool :=
  is_opened cap && bool_decide (pos_frames cap < frame_count cap)%nat.

(** The effect of the frame loop on one clip. *)
Definition clip_after (is_paused done : bool) (cap : VideoCapture)
    : VideoCapture := (play_clip is_paused done cap).1.1.

Definition flag_after (is_paused done : bool) (cap : VideoCapture) : bool :=
  done || (play_clip is_paused done cap).1.2.

Definition frame_of (is_paused done : bool) (cap : VideoCapture) : frame :=
  (play_clip is_paused done cap).2.

Definition highlighted (pend : option pending) (i : nat) : bool :=
  match pend with
  | Some p => bool_decide (p_index p = Z.of_nat i)
  | None => false
  end.

(** The key is the rewind command. *)
Definition is_rewind (inp : tick_input) : bool :=
  let key := Z.land (key_code inp) 255 in
  (key =? ord "r") || (key =? ord "R").

(** The key is the pause toggle. *)
Definition toggles_pause (inp : tick_input) : bool :=
  Z.land (key_code inp) 255 =? ord " ".

(** What a clip shows in a paused pass. *)
Definition paused_frame (done : bool) (cap : VideoCapture) : frame :=
  if done then Blank
  else if can_read cap then Decoded (pos_frames cap) else Blank.

(** ** A small installation to run the program on *)

(** The names [glob] matches against ["*.*"]: a dot somewhere, none in
    front. *)
Fixpoint has_dot (s : string) : bool :=
  match s with
  | EmptyString => false
  | String c s' => Ascii.eqb c "." || has_dot s'
  end.

Definition matches_star_dot_star (name : string) : bool :=
  match name with
  | String "." _ => false
  | _ => has_dot name
  end.

(** A base directory that holds one folder, which holds the given files; a
    file opens as a clip when it comes with a number of frames. *)
Definition one_folder (base folder : string)
    (entries : list (string * option nat)) : os :=
  let dir := path_join base folder in
  {| os_exists := λ p,
       String.eqb p base || String.eqb p dir
       || existsb (λ e, String.eqb p (path_join dir e.1)) entries;
     os_listdir := λ p,
       if String.eqb p base then ok [folder]
       else if String.eqb p dir then ok entries.*1
       else raise (NotADirectoryError p);
     os_isdir := λ p, String.eqb p base || String.eqb p dir;
     os_glob := λ pattern,
       if String.eqb pattern (path_join dir "*.*")
       then path_join dir <$>
              filter (λ n, matches_star_dot_star n = true) entries.*1
       else [];
     os_video := λ p,
       match find (λ e, String.eqb p (path_join dir e.1)) entries with
       | Some e => e.2
       | None => None
       end |}.

(** One clip of a single frame. *)
Definition demo_os : os :=
  one_folder "/v" "day1" [("channel1_2T3_found.mp4", Some 1%nat)].

Definition demo_grid : grid :=
  {| cols := 1; rows := 1; frame_width := 320; frame_height := 240;
     total := 1;
     video_info :=
       [ {| file := "/v/day1/channel1_2T3_found.mp4";
            label := "channel1_FOUND";
            original_name := "channel1_2T3";
            model_status := "FOUND" |} ] |}.

Definition demo_session : session :=
  {| click_coords := None; pending_classification := None; paused := false;
     caps := [ {| is_opened := true; frame_count := 1; pos_frames := 0 |} ];
     video_done := [false]; files := ∅;
     stdout := stdout (say (menu "/v" ["day1"]
                            ++ [prompt ["day1"]; Line "Selected: day1"]
                            ++ instructions "/v/day1"
                            ++ [ Line "Found 1 video files";
                                 Line "Display grid: 1x1";
                                 Line (repeat_string "=" 60) ]) (boot ∅));
     window := Window None |}.

(** ** The classification controller *)

(** The rows of the log, none when there is no log. *)
Definition log_rows (fs : gmap string node) : list (list string) :=
  match fs !! default_csv with
  | Some (File rows) => rows
  | _ => []
  end.

(** The selection a click on clip [idx] makes. *)
Definition selection (idx : Z) (inf : info) : pending :=
  {| p_index := idx; p_original_name := original_name inf;
     p_model_status := model_status inf |}.

(** The key confirms the manual status [manual]. *)
Definition confirms (key : Z) (manual : string) : Prop :=
  ((key = ord "t" ∨ key = ord "T") ∧ manual = "FOUND")
  ∨ ((key = ord "f" ∨ key = ord "F") ∧ manual = "NOT_FOUND").

(** Two clips of five frames, side by side. *)
Definition pair_os : os :=
  one_folder "/v" "day1"
    [ ("channel1_2T3_found.mp4", Some 5%nat);
      ("channel2_2T3_not_found.mp4", Some 5%nat) ].

Definition pair_grid : grid :=
  {| cols := 2; rows := 1; frame_width := 320; frame_height := 240;
     total := 2;
     video_info :=
       [ {| file := "/v/day1/channel1_2T3_found.mp4";
            label := "channel1_FOUND";
            original_name := "channel1_2T3";
            model_status := "FOUND" |};
         {| file := "/v/day1/channel2_2T3_not_found.mp4";
            label := "channel2_NOT_FOUND";
            original_name := "channel2_2T3";
            model_status := "NOT_FOUND" |} ] |}.

Definition pair_session : session :=
  {| click_coords := None; pending_classification := None; paused := false;
     caps := [ {| is_opened := true; frame_count := 5; pos_frames := 0 |};
               {| is_opened := true; frame_count := 5; pos_frames := 0 |} ];
     video_done := [false; false]; files := ∅;
     stdout := stdout (say (menu "/v" ["day1"]
                            ++ [prompt ["day1"]; Line "Selected: day1"]
                            ++ instructions "/v/day1"
                            ++ [ Line "Found 2 video files";
                                 Line "Display grid: 1x2";
                                 Line (repeat_string "=" 60) ]) (boot ∅));
     window := Window None |}.

(** ** Startup *)

(** A folder of notes, with no clip in it. *)
Definition notes_os : os := one_folder "/v" "day1" [("notes.txt", None)].

(** [main] is over and has opened no window and touched no file of the log
    directory [fs]; [line] is the last thing it printed. *)
Definition aborted_before_window (e : ending + grid * session)
    (fs : gmap string node) (line : string) : Prop :=
  ∃ s, e = inl (Returned s)
       ∧ window s = NoWindow ∧ files s = fs
       ∧ last (stdout s) = Some (Line line).

(** A base directory that holds a file and no folder. *)
Definition bare_os : os :=
  {| os_exists := λ p, String.eqb p "/v" || String.eqb p "/v/readme.md";
     os_listdir := λ p,
       if String.eqb p "/v" then ok ["readme.md"]
       else raise (NotADirectoryError p);
     os_isdir := λ p, String.eqb p "/v";
     os_glob := λ _, [];
     os_video := λ _, None |}.

(** ** Choosing the folder *)

(** An answer typed at the prompt: ASCII characters, fewer of them than the
    4300 digits from which [int] refuses to convert. *)
Definition typed (answer : string) : Prop :=
  ascii_text answer ∧ Z.of_nat (String.length answer) < 4300.

(** An answer that [select_folder] turns down and asks again after: not
    the letter q, and not a number from 1 to [n]. *)
Definition turned_down (n : nat) (answer : string) : Prop :=
  String.eqb (Str.lower (Str.strip answer)) "q" = false
  ∧ match int_of_string (Str.strip answer) with
    | Some k => ¬ (1 ≤ k ≤ Z.of_nat n)
    | None => True
    end.

(** An answer that picks the [k]-th folder listed. *)
Definition picks (n : nat) (answer : string) (k : Z) : Prop :=
  String.eqb (Str.lower (Str.strip answer)) "q" = false
  ∧ int_of_string (Str.strip answer) = Some k
  ∧ 1 ≤ k ≤ Z.of_nat n.

(** A base directory with three dated folders and a stray file. *)
Definition archive_os : os :=
  {| os_exists := λ p, String.prefix "/v" p;
     os_listdir := λ p,
       if String.eqb p "/v"
       then ok ["20250618T1458"; "notes.txt"; "20250620T0901"; "20250619T2359"]
       else ok [];
     os_isdir := λ p,
       String.eqb p "/v" || String.eqb p "/v/20250618T1458"
       || String.eqb p "/v/20250620T0901" || String.eqb p "/v/20250619T2359";
     os_glob := λ _, [];
     os_video := λ _, None |}.

(** Five clips of three frames in one folder, with a text file among
    them. *)
Definition five_os : os :=
  one_folder "/v" "day1"
    [ ("channel902_20250618T145831_found.mp4", Some 3%nat);
      ("channel502_20250618T145831_found.mkv", Some 3%nat);
      ("readme.txt", None);
      ("channel802_20250618T145833_not_found.MOV", Some 3%nat);
      ("channel602_20250618T145830_not_found.avi", None);
      ("holiday.mp4", Some 3%nat) ].

(** ** The grid and the pointer *)

(** The cell the window shows at row [r], column [c]. *)
Definition shown_at (img : image) (r c : nat) : option cell :=
  grid_rows img !! r ≫= (λ row, row !! c).

(** The pixel [(x, y)], counted below the status bar, lies in the cell at
    row [r], column [c] of a grid of [fw] by [fh] frames with their 30-pixel
    captions. *)
Definition in_cell (fw fh : Z) (r c : Z) (x y : Z) : Prop :=
  c * fw ≤ x < (c + 1) * fw ∧ r * (fh + 30) ≤ y < (r + 1) * (fh + 30).

(** The pointer events that [mouse_callback] records. *)
Definition is_left_click (ev : Z * Z * Z) : Prop := ev.1.1 = EVENT_LBUTTONDOWN.

#[global] Instance is_left_click_dec ev : Decision (is_left_click ev).
Proof. unfold is_left_click. apply _. Defined.


(** ** The log of a session *)

(** The selection [p] is of one of the clips of the grid. *)
Definition of_grid (g : grid) (p : pending) : Prop :=
  ∃ inf, inf ∈ video_info g ∧ p_original_name p = original_name inf
         ∧ p_model_status p = model_status inf.

(** The directory holds the log of the data rows [data]: no log and no
    data yet, or the header and the rows. *)
Definition holds_log (fs : gmap string node) (data : list (list string))
    : Prop :=
  fs !! default_csv = None ∧ data = []
  ∨ fs !! default_csv = Some (File (fieldnames :: data)).

(** The log of the directory [fs] is one that the program wrote, and holds
    the decisions [records]: there was no log, and [save_to_csv] has logged
    them since, one call after the other. *)
Definition logged (fs : gmap string node)
    (records : list (string * string * string)) : Prop :=
  ∃ fs0, fs0 !! default_csv = None
         ∧ append_all records default_csv fs0 = ok fs.

(** The three cells of a decision are plain text. *)
Definition plain_record (r : string * string * string) : Prop :=
  plain r.1.1 ∧ plain r.1.2 ∧ plain r.2.

(** The names and the statuses of the clips of the grid are plain text. *)
Definition plain_grid (g : grid) : Prop :=
  Forall (λ inf, plain (original_name inf) ∧ plain (model_status inf))
         (video_info g).

(** A decision about a clip of the grid. *)
Definition decision (g : grid) (r : string * string * string) : Prop :=
  ∃ inf manual,
    inf ∈ video_info g ∧ (manual = "FOUND" ∨ manual = "NOT_FOUND")
    ∧ r = (original_name inf, model_status inf, manual).

(** Four passes on the two clips: choose the first and press T, choose the
    second and press f. *)
Definition two_decisions : list tick_input :=
  [left_click 10 50; press "T"; left_click 330 50; press "f"].

(** ** A pass while playing *)

(** What a clip shows in a pass while playing: the frame it decodes, or a
    blank one once it has ended. *)
Definition played_frame (done : bool) (cap : VideoCapture) : frame :=
  if done then Blank
  else match (cap_read cap).1 with
       | Some n => Decoded n
       | None => Blank
       end.

(** No clip has a frame left to decode: each one has ended before this
    pass, or ends in it. *)
Definition run_over (cs : list VideoCapture) (done : list bool) : bool :=
  forallb (λ cd, cd.2 || negb (can_read cd.1)) (zip cs done).

(** ** A pass over any capture *)

(** What a clip shows in a pass while playing: the picture its read
    returns, or a blank frame when the read fails or the clip has ended
    before. *)
Definition shown {C : Type} (read : C → option nat * C) (done : bool)
    (cap : C) : frame :=
  if done then Blank
  else match (read cap).1 with
       | Some n => Decoded n
       | None => Blank
       end.

(** The read of the capture would fail. *)
Definition read_fails {C : Type} (read : C → option nat * C) (cap : C)
    : bool :=
  bool_decide ((read cap).1 = None).

(** Every clip has ended before this pass or ends in it. *)
Definition all_ended {C : Type} (read : C → option nat * C)
    (caps : list C) (done : list bool) : bool :=
  forallb (λ cd, cd.2 || read_fails read cd.1) (zip caps done).

(** ** What leaves [main] *)


(** ** The report and the names of the clips *)

(** The name of a detection file, as the report lists it. *)
Definition detection_name (ds date time : string) : string :=
  "channel" +:+ ds +:+ "_" +:+ date +:+ "T" +:+ time
  +:+ "_manager_detections.txt".

(** A run of exactly [n] digits. *)
Definition digits (n : nat) (s : string) : Prop :=
  String.length s = n ∧ Str.all Str.is_digit s = true.

(** The entry [e] stands under [key] for a detection that a paragraph of
    the report lists: its channel, its timestamp of eight digits, the
    letter T and six digits, the status of that paragraph, under the date
    and the hour and minute of the timestamp. *)
Definition listed (doc : list string) (key : string * string) (e : entry)
    : Prop :=
  ∃ ds date time text,
    (ds ≠ "" ∧ Str.all Str.is_digit ds = true)
    ∧ digits 8 date ∧ digits 6 time
    ∧ text ∈ doc
    ∧ Text.contains (detection_name ds date time) text = true
    ∧ e = {| e_channel := "channel" +:+ ds;
             e_full_ts := date +:+ "T" +:+ time;
             e_hhmmss := time;
             e_status := paragraph_status text |}
    ∧ key = (date, Text.first 4 time).

(** No character of [s] is [c]. *)
Definition free_of (c : ascii) (s : string) : Prop :=
  Str.all (λ x, negb (Ascii.eqb x c)) s = true.

(** A paragraph that lists the detections [items], each after a text
    that holds no letter c, and ends with [tail]. *)
Fixpoint listing (items : list (string * (string * string * string)))
    (tail : string) : string :=
  match items with
  | [] => tail
  | (sep, (ds, date, time)) :: items' =>
      sep +:+ detection_name ds date time +:+ listing items' tail
  end.

(** A report of three paragraphs. *)
Definition report : list string :=
  [ "{'file': 'channel502_20250618T145831_manager_detections.txt', 'status': 'Found'}";
    "{'file': 'channel602_20250618T145830_manager_detections.txt', 'status': 'Not Found'}";
    "{'file': 'channel702_20250618T145902_manager_detections.txt'}" ].

(** ** The calls of the client *)

(** The keys that the calls [reqs] fetched. *)
Definition fetched (reqs : list (string * string * bool)) : gset string :=
  list_to_set ((λ r, r.1.1) <$> filter (λ r, r.2 = true) reqs).

(** The calls [reqs], made after [n] others with the log [log_set], obey
    the log: each asks for a key that is neither in the log nor fetched by
    an earlier one of them, and succeeds as the client decides; and each
    satisfies [P]. *)
Definition obeys_log (s3 : s3_client) (n : nat) (log_set : gset string)
    (P : string * string * bool → Prop)
    (reqs : list (string * string * bool)) : Prop :=
  ∀ j r,
    reqs !! j = Some r →
    (r.1.1 ∉ log_set ∪ fetched (take j reqs))
    ∧ r.2 = bool_decide
              (download_file s3 (n + j) S3_BUCKET r.1.1 r.1.2 = None)
    ∧ P r.

(** The step from [st] to [st'] only adds calls that obey the log, and the
    keys they fetched to the set in memory; it leaves the log file alone. *)
Definition extends (s3 : s3_client) (P : string * string * bool → Prop)
    (st st' : gset string * world) : Prop :=
  ∃ reqs,
    requests st'.2 = requests st.2 ++ reqs
    ∧ st'.1 = st.1 ∪ fetched reqs
    ∧ log_file st'.2 = log_file st.2
    ∧ obeys_log s3 (length (requests st.2)) st.1 P reqs.

(** The name of a clip, without its extension. *)
Definition clip_name (ds date time : string) : string :=
  "channel" +:+ ds +:+ "_" +:+ date +:+ "T" +:+ time.

(** The call [r] asks for the clip of a detection that the report lists
    in one of the minutes [keys], on one of the channels of the list, and
    stores it in the folder of that minute under the name of the clip
    followed by the status of the detection. *)
Definition names_a_clip (doc : list string) (base_dir : string)
    (keys : list (string * string)) (r : string * string * bool)
    (ds date time : string) (status : option string) : Prop :=
  "channel" +:+ ds ∈ channel_list
  ∧ (ds ≠ "" ∧ Str.all Str.is_digit ds = true)
  ∧ digits 8 date ∧ digits 6 time
  ∧ (date, Text.first 4 time) ∈ keys
  ∧ (∃ text, text ∈ doc
             ∧ Text.contains (detection_name ds date time) text = true
             ∧ status = paragraph_status text)
  ∧ r.1.1 = clip_name ds date time +:+ ".mkv"
  ∧ r.1.2 = path_join
              (path_join base_dir (date +:+ "T" +:+ Text.first 4 time))
              (clip_name ds date time +:+ "_" +:+ Text.format status
               +:+ ".mkv").

(** A client that fetches every object but the second it is asked for. *)
Definition patchy_s3 : s3_client :=
  {| download_file := λ n _ _ _,
       if decide (n = 1%nat) then Some "Not Found" else None |}.

(** A machine on which nothing was downloaded yet. *)
Definition fresh_world : world :=
  {| log_file := None; made_dirs := []; requests := []; notices := [] |}.

(** ** A day of downloads *)

(** From [w] to [w'] the downloader only made calls that obey the log,
    each satisfying [P], the log gained the keys they fetched, and these
    are at least [d] keys. *)
Definition ran (s3 : s3_client) (P : string * string * bool → Prop)
    (d : nat) (w w' : world) : Prop :=
  ∃ reqs,
    requests w' = requests w ++ reqs
    ∧ load_log w' = load_log w ∪ fetched reqs
    ∧ obeys_log s3 (length (requests w)) (load_log w) P reqs
    ∧ (d ≤ size (fetched reqs))%nat.

(** The minutes of the day [date_str] from [minute] on, as keys of the
    report. *)
Definition minutes_from (date_str : string) (minute : nat)
    : list (string * string) :=
  (λ m, (date_str, hhmm_str m)) <$> seq minute (1440 - minute).

(** The call [r] names a clip of one of the minutes [keys]. *)
Definition names_one_of (doc : list string) (base_dir : string)
    (keys : list (string * string)) (r : string * string * bool) : Prop :=
  ∃ ds date time status, names_a_clip doc base_dir keys r ds date time status.

(** * Properties *)

Local Arguments String.append !_ _ / : simpl nomatch.

(** ** Strings *)

Lemma string_app_assoc (a b c : string) : (a +:+ b) +:+ c = a +:+ (b +:+ c).
Proof. induction a as [|x a IH]; simpl; [done | by f_equal]. Qed.

Lemma all_app p (a b : string) :
  Str.all p (a +:+ b) = Str.all p a && Str.all p b.
Proof.
  induction a as [|x a IH]; simpl; [done |].
  rewrite IH. by destruct (p x).
Qed.

(** Every string splits into its longest prefix inside a class and a rest
    that starts outside it. *)
Lemma longest_prefix p (s : string) :
  ∃ a b, s = a +:+ b ∧ Str.all p a = true ∧ Str.stops p b = true.
Proof.
  induction s as [|x s (a & b & -> & Ha & Hb)].
  - by exists "", "".
  - destruct (p x) eqn:Hx.
    + exists (String x a), b. simpl. by rewrite Hx, Ha.
    + exists "", (String x (a +:+ b)). simpl. by rewrite Hx.
Qed.

Lemma strip_prefix_app (l s : string) : Str.strip_prefix l (l +:+ s) = Some s.
Proof.
  induction l as [|x l IH]; simpl; [done |]. by rewrite Ascii.eqb_refl.
Qed.

Lemma strip_prefix_Some (l s rest : string) :
  Str.strip_prefix l s = Some rest → s = l +:+ rest.
Proof.
  revert s. induction l as [|x l IH]; intros s; simpl.
  - by intros [= ->].
  - destruct s as [|y s]; [done |].
    destruct (Ascii.eqb_spec x y) as [->|]; [|done].
    intros H. by rewrite (IH _ H).
Qed.


(** ** The matcher on the label pattern *)

(** Greedy [c+] takes the longest run first: when the rest of the pattern
    accepts after it, that is the match. *)
Lemma plus_longest {A} cls (a b : string) (k : string → string → option A) r :
  a ≠ "" → Str.all cls a = true → Str.stops cls b = true →
  k a b = Some r → Re.plus cls (a +:+ b) k = Some r.
Proof.
  revert k. induction a as [|x a IH]; intros k Hne Ha Hb Hk; [done |].
  simpl in *. apply andb_true_iff in Ha as [Hx Ha]. rewrite Hx.
  destruct a as [|y a].
  - simpl. replace (Re.plus cls b _) with (@None A).
    + done.
    + destruct b as [|z b]; simpl; [done |].
      simpl in Hb. by destruct (cls z).
  - rewrite (IH (λ m rest, k (String x m) rest)); done.
Qed.

(** Whatever greedy [c+] matches is a non-empty run inside the class after
    which the rest of the pattern accepted. *)
Lemma plus_sound {A} cls (s : string) (k : string → string → option A) r :
  Re.plus cls s k = Some r →
  ∃ a b, s = a +:+ b ∧ a ≠ "" ∧ Str.all cls a = true ∧ k a b = Some r.
Proof.
  revert k. induction s as [|x s IH]; intros k; simpl; [done |].
  destruct (cls x) eqn:Hx; [|done].
  destruct (Re.plus cls s _) eqn:Hp.
  - intros [= ->]. apply IH in Hp as (a & b & -> & _ & Ha & Hk).
    exists (String x a), b. simpl. by rewrite Hx, Ha.
  - intros Hk. exists (String x ""), s. simpl. by rewrite Hx.
Qed.


Lemma rmatch_label_shape ds d1 d2 w rest :
  label_parts ds d1 d2 w → Str.stops Str.is_word rest = true →
  Re.rmatch label_pattern (label_shape ds d1 d2 w rest)
  = Some ["channel" +:+ ds; d1 +:+ "T" +:+ d2; w].
Proof.
  intros [[? ?] [? ?] [? ?] [? ?]] Hrest.
  unfold Re.rmatch, label_pattern, label_shape. cbn [Re.run].
  rewrite strip_prefix_app.
  apply plus_longest; [done.. |]. rewrite strip_prefix_app.
  apply plus_longest; [done.. |]. rewrite strip_prefix_app.
  apply plus_longest; [done.. |]. rewrite strip_prefix_app.
  apply plus_longest; [done.. |]. done.
Qed.

Lemma rmatch_label_sound base g :
  Re.rmatch label_pattern base = Some g →
  ∃ ds d1 d2 w rest,
    base = label_shape ds d1 d2 w rest ∧ label_parts ds d1 d2 w ∧
    g = ["channel" +:+ ds; d1 +:+ "T" +:+ d2; w].
Proof.
  unfold Re.rmatch, label_pattern. cbn [Re.run].
  destruct (Str.strip_prefix "channel" base) as [s0|] eqn:H0; [|done].
  apply strip_prefix_Some in H0 as ->.
  intros (ds & s1 & -> & ? & ? & H1)%plus_sound.
  destruct (Str.strip_prefix "_" s1) as [s2|] eqn:H2; [|done].
  apply strip_prefix_Some in H2 as ->.
  apply plus_sound in H1 as (d1 & s3 & -> & ? & ? & H3).
  destruct (Str.strip_prefix "T" s3) as [s4|] eqn:H4; [|done].
  apply strip_prefix_Some in H4 as ->.
  apply plus_sound in H3 as (d2 & s5 & -> & ? & ? & H5).
  destruct (Str.strip_prefix "_" s5) as [s6|] eqn:H6; [|done].
  apply strip_prefix_Some in H6 as ->.
  apply plus_sound in H5 as (w & rest & -> & ? & ? & [= <-]).
  by exists ds, d1, d2, w, rest.
Qed.

(** ** Filename parsing *)

Lemma lower_upper_char c : Str.lower_char (Str.upper_char c) = Str.lower_char c.
Proof. by destruct c as [[] [] [] [] [] [] [] []]. Qed.

Lemma upper_lower_char c : Str.upper_char (Str.lower_char c) = Str.upper_char c.
Proof. by destruct c as [[] [] [] [] [] [] [] []]. Qed.

Lemma lower_upper (s : string) : Str.lower (Str.upper s) = Str.lower s.
Proof.
  induction s as [|c s IH]; [done |].
  unfold Str.lower, Str.upper in *. simpl. by rewrite lower_upper_char, IH.
Qed.

Lemma upper_lower (s : string) : Str.upper (Str.lower s) = Str.upper s.
Proof.
  induction s as [|c s IH]; [done |].
  unfold Str.lower, Str.upper in *. simpl. by rewrite upper_lower_char, IH.
Qed.


(** The test the parser makes, [status.upper() == "FOUND"], is equality with
    "found" up to case. *)
Lemma upper_is_FOUND (w : string) :
  String.eqb (Str.upper w) "FOUND" = caseless_eq w "found".
Proof.
  unfold caseless_eq.
  destruct (String.eqb_spec (Str.upper w) "FOUND") as [E|E];
    destruct (String.eqb_spec (Str.lower w) (Str.lower "found")) as [E'|E'];
    try done.
  - destruct E'. by rewrite <- lower_upper, E.
  - destruct E. by rewrite <- upper_lower, E'.
Qed.

Lemma extract_of_match filename ds d1 d2 w :
  Re.rmatch label_pattern (basename filename)
  = Some ["channel" +:+ ds; d1 +:+ "T" +:+ d2; w] →
  extract_label_and_info filename
  = ("channel" +:+ ds +:+ "_" +:+ Str.upper w,
     "channel" +:+ ds +:+ "_" +:+ d1 +:+ "T" +:+ d2,
     if caseless_eq w "found" then "FOUND" else "NOT_FOUND").
Proof.
  intros H. unfold extract_label_and_info. rewrite H.
  rewrite upper_is_FOUND. by rewrite !string_app_assoc.
Qed.


(** A name that starts with the shape is parsed, wherever its word is cut:
    the parser takes the longest word. *)
Lemma extract_of_shape filename ds d1 d2 w rest :
  label_parts ds d1 d2 w →
  basename filename = label_shape ds d1 d2 w rest →
  (extract_label_and_info filename).2 ≠ "UNKNOWN".
Proof.
  intros [? ? ? [Hw Hall]] E.
  destruct (longest_prefix Str.is_word rest) as (a & b & -> & Ha & Hb).
  assert (label_parts ds d1 d2 (w +:+ a)) as Hp.
  { split; try done. split.
    - destruct w; [done | discriminate].
    - by rewrite all_app, Hall, Ha. }
  rewrite (extract_of_match filename ds d1 d2 (w +:+ a)).
  - simpl. by destruct (caseless_eq _ _).
  - rewrite E. unfold label_shape.
    rewrite <- (string_app_assoc w a b). by apply rmatch_label_shape.
Qed.

(** Claim C3, amended.  For a file name of ASCII characters: when the name
    starts with [channel<digits>_<digits>T<digits>_<word>], the word being
    the longest run of letters, digits and underscores there, the parser
    returns the label [channel<digits>_<WORD>], the name
    [channel<digits>_<digits>T<digits>] and the status FOUND when the word
    is "found" up to case and NOT_FOUND otherwise, whatever follows the
    word: an extension, as in [channel502_20250618T145831_found.mkv], or
    anything else.  When the file name does not start that way, the parser
    returns the file name for both label and name, with the status UNKNOWN;
    and only then is the status UNKNOWN. *)
Theorem extract_label_and_info_spec (filename : string) :
  ascii_text (basename filename) →
  (∀ ds d1 d2 w rest,
     label_parts ds d1 d2 w → Str.stops Str.is_word rest = true →
     basename filename = label_shape ds d1 d2 w rest →
     extract_label_and_info filename
     = ("channel" +:+ ds +:+ "_" +:+ Str.upper w,
        "channel" +:+ ds +:+ "_" +:+ d1 +:+ "T" +:+ d2,
        if caseless_eq w "found" then "FOUND" else "NOT_FOUND"))
  ∧ ((∀ ds d1 d2 w rest,
        label_parts ds d1 d2 w →
        basename filename ≠ label_shape ds d1 d2 w rest) →
     extract_label_and_info filename
     = (basename filename, basename filename, "UNKNOWN"))
  ∧ ((extract_label_and_info filename).2 = "UNKNOWN" →
     ∀ ds d1 d2 w rest,
       label_parts ds d1 d2 w →
       basename filename ≠ label_shape ds d1 d2 w rest).
Proof.
  intros _. split_and!.
  - intros ds d1 d2 w rest Hp Hrest E. apply extract_of_match.
    rewrite E. by apply rmatch_label_shape.
  - intros Hno. unfold extract_label_and_info.
    destruct (Re.rmatch label_pattern (basename filename)) as [g|] eqn:Hm;
      [|done].
    apply rmatch_label_sound in Hm as (ds & d1 & d2 & w & rest & E & Hp & _).
    by destruct (Hno ds d1 d2 w rest Hp).
  - intros Hu ds d1 d2 w rest Hp E.
    by destruct (extract_of_shape filename ds d1 d2 w rest Hp E).
Qed.

Lemma extract_label_and_info_spec_witness :
  extract_label_and_info "/data/run1/channel502_20250618T145831_found.mkv"
  = ("channel502_FOUND", "channel502_20250618T145831", "FOUND")
  ∧ extract_label_and_info "clips/holiday.mp4"
    = ("holiday.mp4", "holiday.mp4", "UNKNOWN").
Proof.
  split.
  - apply (proj1 (extract_label_and_info_spec
                    "/data/run1/channel502_20250618T145831_found.mkv" eq_refl)
             "502" "20250618" "145831" "found" ".mkv").
    + repeat split; (discriminate || reflexivity).
    + reflexivity.
    + reflexivity.
  - apply (proj1 (proj2 (extract_label_and_info_spec "clips/holiday.mp4"
                           eq_refl))).
    intros ds d1 d2 w rest _. vm_compute. discriminate.
Defined.

Lemma label_shape_groups ds d1 d2 w rest :
  label_shape ds d1 d2 w rest
  = ("channel" +:+ ds) +:+ "_" +:+ (d1 +:+ "T" +:+ d2) +:+ "_" +:+ w +:+ rest.
Proof. unfold label_shape. by rewrite !string_app_assoc. Qed.

(** Claim C3 fails on names that the grammar does not cover but that start
    like one it covers: [channel5_1T2_found-x.mkv] has no extension right
    after its status word, yet it is parsed, as FOUND, and not returned
    raw with the status UNKNOWN. *)
Lemma extract_nonconforming_parsed :
  ¬ conforming (basename "channel5_1T2_found-x.mkv")
  ∧ extract_label_and_info "channel5_1T2_found-x.mkv"
    = ("channel5_FOUND", "channel5_1T2", "FOUND").
Proof.
  split; [|reflexivity].
  intros (ds & d1 & d2 & w & ext & Hp & E).
  pose proof (rmatch_label_shape ds d1 d2 w ("." +:+ ext) Hp eq_refl) as Hm.
  rewrite <- E in Hm.
  assert (Re.rmatch label_pattern (basename "channel5_1T2_found-x.mkv")
          = Some ["channel5"; "1T2"; "found"]) as Hc by reflexivity.
  rewrite Hc in Hm. rewrite label_shape_groups in E.
  assert ("channel" +:+ ds = "channel5") as E1 by congruence.
  assert (d1 +:+ "T" +:+ d2 = "1T2") as E2 by congruence.
  assert (w = "found") as E3 by congruence.
  rewrite E1, E2, E3 in E. vm_compute in E. discriminate E.
Qed.

(** ** Pointer mapping *)

Lemma floordiv_ok a b : b ≠ 0 → floordiv a b = ok (a / b).
Proof. intros H. unfold floordiv. by rewrite (proj2 (Z.eqb_neq b 0) H). Qed.

(** Claim C2, amended.  A left click at [(x, y)] is buffered as
    [(x, y - 40)].  A buffered click with negative [y] maps to no clip;
    otherwise the column is [x // frame_width] and the row is
    [y // (frame_height + 30)], and the click maps to no clip when the
    column or the row is outside the grid or [row * cols + col] is not below
    the number of clips, and to that index otherwise.  On the 2x2 grid of
    three 320x240 clips the click at (330, 310) falls on the filler cell
    (row 1, column 1) and maps to no clip, the click one pixel higher maps
    to clip 1, and the click at (330, 580) maps to no clip. *)
Theorem pointer_mapping (x y cols rows fw fh total : Z) (buffered : option (Z * Z)) :
  fw ≠ 0 → fh + 30 ≠ 0 →
  let py := y - 40 in
  let col := x / fw in
  let row := py / (fh + 30) in
  mouse_callback EVENT_LBUTTONDOWN x y buffered = Some (x, py)
  ∧ get_clicked_video_index x py cols rows fw fh total
    = ok (if decide (py < 0) then None
          else if decide (col >= cols ∨ row >= rows ∨ row * cols + col >= total)
               then None
               else Some (row * cols + col))
  ∧ get_clicked_video_index 330 (310 - 40) 2 2 320 240 3 = ok None
  ∧ get_clicked_video_index 330 (309 - 40) 2 2 320 240 3 = ok (Some 1)
  ∧ get_clicked_video_index 330 (580 - 40) 2 2 320 240 3 = ok None.
Proof.
  intros Hw Hh py col row. split; [done |]. split; [|done].
  unfold get_clicked_video_index.
  destruct (Z.ltb_spec py 0) as [Hy|Hy].
  - by rewrite decide_True.
  - rewrite decide_False by lia.
    rewrite (floordiv_ok x fw Hw), (floordiv_ok py (fh + 30) Hh). simpl.
    fold col row.
    destruct (Z.geb_spec col cols), (Z.geb_spec row rows); simpl;
      try (rewrite decide_True by lia; done).
    destruct (Z.ltb_spec (row * cols + col) total).
    + by rewrite decide_False by lia.
    + by rewrite decide_True by lia.
Qed.

Lemma pointer_mapping_witness :
  mouse_callback EVENT_LBUTTONDOWN 10 50 None = Some (10, 10)
  ∧ get_clicked_video_index 10 10 2 2 320 240 3 = ok (Some 0).
Proof.
  destruct (pointer_mapping 10 50 2 2 320 240 3 None) as (H1 & H2 & _);
    [lia | lia |].
  split; [exact H1 | exact H2].
Defined.

(** Claim C2 fails on its own example: after the status bar is taken off,
    the click at (330, 310) has [y = 270], which is row 1, and row 1,
    column 1 is cell 3 of a grid that holds three clips. *)
Lemma click_330_310_selects_nothing :
  mouse_callback EVENT_LBUTTONDOWN 330 310 None = Some (330, 270)
  ∧ get_clicked_video_index 330 270 2 2 320 240 3 = ok None
  ∧ get_clicked_video_index 330 270 2 2 320 240 3 ≠ ok (Some 1).
Proof. by repeat split. Qed.

(** ** The classification log *)

Lemma save_to_csv_new fs f a b c :
  fs !! f = None →
  save_to_csv a b c f fs
  = ok (<[f := File [fieldnames; [a; b; c]]]> fs, saved_message a b c).
Proof.
  intros H. unfold save_to_csv, isfile, open_append. by rewrite H.
Qed.

Lemma save_to_csv_file fs f rows a b c :
  fs !! f = Some (File rows) →
  save_to_csv a b c f fs
  = ok (<[f := File (rows ++ [[a; b; c]])]> fs, saved_message a b c).
Proof.
  intros H. unfold save_to_csv, isfile, open_append. by rewrite H.
Qed.

Lemma append_all_file records : ∀ fs f rows,
  fs !! f = Some (File rows) →
  append_all records f fs
  = ok (<[f := File (rows ++ (record_row <$> records))]> fs).
Proof.
  induction records as [|[[a b] c] records IH]; intros fs f rows H; simpl.
  - by rewrite app_nil_r, insert_id.
  - rewrite (save_to_csv_file _ _ _ _ _ _ H). simpl.
    rewrite (IH _ f (rows ++ [[a; b; c]])) by apply lookup_insert_eq.
    by rewrite insert_insert_eq, <- app_assoc.
Qed.

(** Claim C6.  Starting from a destination that does not exist, any
    non-empty sequence of appends leaves a file made of the header row
    followed by one row per append, in order: the header is written by the
    first call only. *)
Theorem append_header_once (records : list (string * string * string))
    (f : string) (fs : gmap string node) :
  fs !! f = None → records ≠ [] →
  append_all records f fs
  = ok (<[f := File (fieldnames :: (record_row <$> records))]> fs)
  ∧ length (record_row <$> records) = length records.
Proof.
  intros Hnew Hne. split; [|by rewrite length_fmap].
  destruct records as [|[[a b] c] records]; [done |]. simpl.
  rewrite (save_to_csv_new _ _ _ _ _ Hnew). simpl.
  rewrite (append_all_file _ _ f [fieldnames; [a; b; c]])
    by apply lookup_insert_eq.
  by rewrite insert_insert_eq.
Qed.

Lemma append_header_once_witness :
  append_all [("a", "FOUND", "FOUND"); ("b", "FOUND", "NOT_FOUND")]
    default_csv ∅
  = ok (<[default_csv :=
            File [ ["video_name"; "model_status"; "manual_status"];
                   ["a"; "FOUND"; "FOUND"];
                   ["b"; "FOUND"; "NOT_FOUND"] ]]> ∅).
Proof.
  apply (append_header_once
           [("a", "FOUND", "FOUND"); ("b", "FOUND", "NOT_FOUND")]
           default_csv ∅).
  - reflexivity.
  - discriminate.
Defined.

(** Claim C10.  When the destination is already a file, whatever it holds,
    an append adds the data row and nothing else: no header is written.  On
    a file without rows the log is then that one data row, which is not the
    header. *)
Theorem append_to_existing (fs : gmap string node) (f : string)
    (rows : list (list string)) (a b c : string) :
  fs !! f = Some (File rows) →
  let fs' := <[f := File (rows ++ [[a; b; c]])]> fs in
  save_to_csv a b c f fs = ok (fs', saved_message a b c)
  ∧ (rows = [] → fs' !! f = Some (File [[a; b; c]]))
  ∧ (c = "FOUND" ∨ c = "NOT_FOUND" → [a; b; c] ≠ fieldnames).
Proof.
  intros H fs'. split; [by apply save_to_csv_file |]. split.
  - intros ->. apply lookup_insert_eq.
  - by intros [-> | ->].
Qed.

Lemma append_to_existing_witness :
  save_to_csv "channel1_2T3" "FOUND" "NOT_FOUND" default_csv
    (<[default_csv := File []]> ∅)
  = ok (<[default_csv := File [["channel1_2T3"; "FOUND"; "NOT_FOUND"]]]>
          (<[default_csv := File []]> ∅),
        saved_message "channel1_2T3" "FOUND" "NOT_FOUND").
Proof.
  apply (append_to_existing (<[default_csv := File []]> ∅) default_csv []
           "channel1_2T3" "FOUND" "NOT_FOUND").
  reflexivity.
Defined.

(** *** The summary *)

Lemma dict_row_fieldnames a b c rest :
  dict_row fieldnames (a :: b :: c :: rest) !! "model_status" = Some (Some b)
  ∧ dict_row fieldnames (a :: b :: c :: rest) !! "manual_status"
    = Some (Some c).
Proof.
  unfold dict_row, fieldnames. simpl. rewrite drop_nil. simpl. split.
  - rewrite lookup_insert_ne by done. apply lookup_insert_eq.
  - apply lookup_insert_eq.
Qed.

Lemma dict_reader_log data :
  Forall (λ r : list string, (3 ≤ length r)%nat) data →
  dict_reader (fieldnames :: data) = dict_row fieldnames <$> data.
Proof.
  intros H. unfold dict_reader. f_equal.
  induction H as [|r data Hr _ IH]; [done |].
  rewrite filter_cons_True; [by f_equal |].
  intros ->. simpl in Hr. lia.
Qed.

Lemma count_agreements_log data :
  Forall (λ r : list string, (3 ≤ length r)%nat) data →
  count_agreements (dict_row fieldnames <$> data)
  = ok (length (filter (λ r, agrees r = true) data)).
Proof.
  induction 1 as [|r data Hr _ IH]; [done |].
  destruct r as [|a [|b [|c rest]]]; simpl in Hr; try lia.
  rewrite fmap_cons. cbn [count_agreements].
  unfold dict_get.
  destruct (dict_row_fieldnames a b c rest) as [-> ->].
  rewrite IH. simpl.
  destruct (String.eqb_spec b c) as [->|Hne].
  - rewrite decide_True by done.
    by rewrite filter_cons_True by (simpl; apply String.eqb_refl).
  - rewrite decide_False by congruence. rewrite filter_cons_False; [done |].
    simpl. by destruct (String.eqb_spec b c).
Qed.

Section FoldInsert.
Context {A V : Type} (h : A → string) (g : A → V).

End FoldInsert.


(** The cell a row of the reader holds under a name is the cell of the
    last column of that name, [None] when the row is too short for it. *)
Lemma dict_row_lookup (key : string) (names : list string) :
  ∀ (row : list string) (d0 : gmap string (option string)),
  foldl (λ d k, <[k := None]> d)
    (foldl (λ d kv, <[kv.1 := Some kv.2]> d) d0 (zip names row))
    (drop (length row) names) !! key
  = match column names key with
    | Some i => Some (row !! i)
    | None => d0 !! key
    end.
Proof.
  induction names as [|n names IH]; intros row d0.
  - by rewrite drop_nil.
  - destruct row as [|x row].
    + specialize (IH [] (<[n := None]> d0)).
      rewrite zip_with_nil_r, drop_0 in IH. cbn [foldl] in IH.
      cbn [zip_with length foldl]. rewrite drop_0. cbn [foldl]. rewrite IH.
      cbn [column]. destruct (column names key) as [i|]; [done |].
      destruct (String.eqb_spec n key) as [-> | Hne].
      * by rewrite lookup_insert_eq.
      * by rewrite lookup_insert_ne.
    + simpl. rewrite IH.
      destruct (column names key) as [i|]; [done |].
      destruct (String.eqb_spec n key) as [-> | Hne].
      * by rewrite lookup_insert_eq.
      * by rewrite lookup_insert_ne.
Qed.

Lemma dict_row_column (key : string) (names row : list string) :
  dict_row names row !! key = (λ i, row !! i) <$> column names key.
Proof.
  unfold dict_row. rewrite dict_row_lookup.
  by destruct (column names key).
Qed.

Lemma count_agreements_columns (names : list string) (i j : nat)
    (data : list (list string)) :
  column names "model_status" = Some i →
  column names "manual_status" = Some j →
  count_agreements (dict_row names <$> data)
  = ok (length (filter (same_cells i j) data)).
Proof.
  intros Hi Hj. induction data as [|r data IH]; [done |].
  rewrite fmap_cons. cbn [count_agreements]. unfold dict_get.
  rewrite !dict_row_column, Hi, Hj, IH. simpl.
  destruct (decide (r !! i = r !! j)) as [E | E].
  - by rewrite filter_cons_True.
  - by rewrite filter_cons_False.
Qed.

Lemma count_agreements_no_column (names : list string) (key : string)
    (r : list string) (data : list (list string)) :
  key = "model_status"
  ∨ is_Some (column names "model_status") ∧ key = "manual_status" →
  column names key = None →
  count_agreements (dict_row names <$> r :: data) = raise (KeyError key).
Proof.
  intros Hkey Hno. rewrite fmap_cons. cbn [count_agreements].
  unfold dict_get. destruct Hkey as [-> | [[i Hi] ->]].
  - by rewrite dict_row_column, Hno.
  - rewrite !dict_row_column, Hi, Hno. done.
Qed.

(** *** The rate *)

Lemma rate_checked_sound (k n : nat) :
  rate_checked k n = true →
  ∃ t, nearest_tenth t k n
       ∧ format_1f (accuracy k n)
         = pretty (t / 10) +:+ "." +:+ pretty (t mod 10).
Proof.
  unfold rate_checked, format_1f, nearest_tenth.
  destruct (FloatOps.Prim2SF (accuracy k n)) as [[]|[]| |[] m e]; try done.
  - intros ->%bool_decide_eq_true. exists 0. split; [simpl; lia | reflexivity].
  - intros H%Z.leb_le. by exists (tenths m e).
Qed.

Lemma rates_checked :
  forallb (λ n, forallb (λ k, rate_checked k n) (seq 0 (S n))) (seq 1 200)
  = true.
Proof. vm_compute. reflexivity. Qed.

Lemma rate_nearest (k n : nat) :
  (k ≤ n)%nat → (0 < n ≤ 200)%nat →
  ∃ t, nearest_tenth t k n
       ∧ format_1f (accuracy k n)
         = pretty (t / 10) +:+ "." +:+ pretty (t mod 10).
Proof.
  intros Hk Hn. apply rate_checked_sound.
  pose proof rates_checked as H. rewrite forallb_forall in H.
  assert (In n (seq 1 200)) as Hin by (apply in_seq; lia).
  apply H in Hin. rewrite forallb_forall in Hin.
  apply Hin. apply in_seq. lia.
Qed.

(** Claim C7, amended.  For a log of plain text: the summary prints
    nothing when there is no log, when the log is empty and when no row
    follows its first row.  Otherwise the first row names the columns, and
    the rows after it, blank lines apart, are counted.  When the first row
    names both [model_status] and [manual_status], the summary counts as
    agreements the rows whose cells in these two columns are equal, a row
    too short for both columns included, and prints the total, the
    agreements, the disagreements and the rate [agreements / total * 100]
    with one decimal: 75.0 for three of four, 33.3 for one of three, and a
    nearest tenth for every log of up to two hundred rows.  When the first
    row lacks one of the two names, the summary prints the heading and the
    total, then that it could not be read, with the name; when the path is
    a directory it prints that it could not be read, and nothing else.  The
    summary is a list of lines in every case: no exception leaves it, and
    the block that ends the session only adds these lines to what was
    printed and closes the window, leaving the log as it is. *)
Theorem print_summary_spec (f : string) (fs : gmap string node) :
  plain_log fs f →
  (fs !! f = None → print_summary f fs = [])
  ∧ (fs !! f = Some (File []) → print_summary f fs = [])
  ∧ (∀ names rest,
       fs !! f = Some (File (names :: rest)) →
       let n := length (data_rows rest) in
       (n = 0%nat → print_summary f fs = [])
       ∧ (∀ i j,
            (0 < n)%nat → Z.of_nat n < 2 ^ 53 →
            column names "model_status" = Some i →
            column names "manual_status" = Some j →
            let k := length (filter (same_cells i j) (data_rows rest)) in
            print_summary f fs
            = summary_head n ++
              [ Line ("Model-Manual agreements: " +:+ pretty k);
                Line ("Model-Manual disagreements: " +:+ pretty (n - k)%nat);
                Line ("Agreement rate: " +:+ format_1f (accuracy k n)
                      +:+ "%") ] ++
              summary_foot f)
       ∧ (∀ key,
            (0 < n)%nat →
            key = "model_status"
            ∨ is_Some (column names "model_status") ∧ key = "manual_status" →
            column names key = None →
            print_summary f fs
            = summary_head n ++
              [ Line ("Could not read summary from " +:+ f +:+ ": '"
                      +:+ key +:+ "'") ]))
  ∧ (fs !! f = Some Directory →
     print_summary f fs
     = [ Line ("Could not read summary from " +:+ f
               +:+ ": [Errno 21] Is a directory: '" +:+ f +:+ "'") ])
  ∧ (format_1f (accuracy 3 4) = "75.0" ∧ format_1f (accuracy 1 3) = "33.3"
     ∧ format_1f (accuracy 2 3) = "66.7" ∧ format_1f (accuracy 1 16) = "6.2"
     ∧ format_1f (accuracy 0 2) = "0.0" ∧ format_1f (accuracy 5 5) = "100.0")
  ∧ (∀ k n : nat,
       (k ≤ n)%nat → (0 < n ≤ 200)%nat →
       ∃ t, nearest_tenth t k n
            ∧ format_1f (accuracy k n)
              = pretty (t / 10) +:+ "." +:+ pretty (t mod 10))
  ∧ (∀ s, files (finally s) = files s
          ∧ window (finally s) = NoWindow
          ∧ stdout (finally s)
            = stdout s ++ print_summary default_csv (files s)).
Proof.
  intros _. unfold print_summary, path_exists, open_read, ok, raise.
  split_and!.
  - by intros ->.
  - by intros ->.
  - intros names rest ->. cbv beta iota zeta. unfold dict_reader.
    fold (data_rows rest).
    destruct (data_rows rest) as [|r data] eqn:E; split_and!.
    + done.
    + intros i j Hn. simpl in Hn. lia.
    + intros key Hn. simpl in Hn. lia.
    + done.
    + intros i j _ _ Hi Hj. rewrite fmap_cons. cbv beta iota.
      rewrite <- fmap_cons.
      rewrite (count_agreements_columns names i j) by done.
      unfold ok. cbv beta iota. rewrite length_fmap. unfold summary_head, summary_foot.
      rewrite decide_True by (simpl; lia). done.
    + intros key _ Hkey Hno. rewrite fmap_cons. cbv beta iota.
      rewrite <- fmap_cons.
      rewrite (count_agreements_no_column names key) by done.
      unfold raise. cbv beta iota. unfold summary_head, could_not_read. rewrite length_fmap.
      cbn [exn_text]. done.
  - by intros ->.
  - done.
  - done.
  - done.
  - done.
  - done.
  - done.
  - apply rate_nearest.
  - done.
Qed.

Lemma print_summary_spec_witness :
  let data := [ ["c1"; "FOUND"; "FOUND"]; ["c2"; "NOT_FOUND"; "NOT_FOUND"];
                ["c3"; "FOUND"; "NOT_FOUND"]; ["c4"; "UNKNOWN"; "UNKNOWN"] ] in
  print_summary default_csv (<[default_csv := File (fieldnames :: data)]> ∅)
  = summary_head 4 ++
    [ Line "Model-Manual agreements: 3";
      Line "Model-Manual disagreements: 1";
      Line "Agreement rate: 75.0%" ] ++
    summary_foot default_csv
  ∧ print_summary default_csv (<[default_csv := Directory]> ∅)
    = [ Line "Could not read summary from video_classifications.csv: [Errno 21] Is a directory: 'video_classifications.csv'" ]
  ∧ print_summary default_csv
      (<[default_csv := File [["c1"; "FOUND"; "FOUND"];
                              ["c2"; "FOUND"; "FOUND"]]]> ∅)
    = summary_head 1 ++
      [ Line "Could not read summary from video_classifications.csv: 'model_status'" ].
Proof.
  intros data. split; [|split].
  - assert (plain_log (<[default_csv := File (fieldnames :: data)]> ∅)
              default_csv) as Hplain.
    { intros rows [= <-]. repeat constructor. }
    apply (proj1 (proj2 (proj1 (proj2 (proj2
             (print_summary_spec default_csv _ Hplain)))
             fieldnames data eq_refl)) 1%nat 2%nat).
    + simpl. lia.
    + simpl. lia.
    + reflexivity.
    + reflexivity.
  - assert (plain_log (<[default_csv := Directory]> ∅) default_csv) as Hplain.
    { intros rows [=]. }
    apply (proj1 (proj2 (proj2 (proj2
             (print_summary_spec default_csv _ Hplain))))).
    reflexivity.
  - assert (plain_log
              (<[default_csv := File [["c1"; "FOUND"; "FOUND"];
                                      ["c2"; "FOUND"; "FOUND"]]]> ∅)
              default_csv) as Hplain.
    { intros rows [= <-]. repeat constructor. }
    apply (proj2 (proj2 (proj1 (proj2 (proj2
             (print_summary_spec default_csv _ Hplain)))
             ["c1"; "FOUND"; "FOUND"] [["c2"; "FOUND"; "FOUND"]] eq_refl))
             "model_status").
    + simpl. lia.
    + by left.
    + reflexivity.
Defined.

(** Claim C7 fails on logs that are damaged in a way the summary does not
    notice.  A row with the name of the clip and no status is counted as an
    agreement, and the rate is 100.0; a log that lost its header and holds
    one decision prints nothing at all.  Neither is reported. *)
Lemma damaged_log_not_reported :
  print_summary default_csv
    (<[default_csv := File [fieldnames; ["channel1_2T3"]]]> ∅)
  = summary_head 1 ++
    [ Line "Model-Manual agreements: 1";
      Line "Model-Manual disagreements: 0";
      Line "Agreement rate: 100.0%" ] ++
    summary_foot default_csv
  ∧ print_summary default_csv
      (<[default_csv := File [["channel1_2T3"; "FOUND"; "NOT_FOUND"]]]> ∅)
    = [].
Proof. split; reflexivity. Qed.

(** ** Playback *)

Lemma bind_ok {A B} (a : A) (f : A → result B) : bind (ok a) f = f a.
Proof. done. Qed.

Lemma bind_raise {A B} e (f : A → result B) : bind (raise e) f = raise e.
Proof. done. Qed.

Lemma py_get_lookup {A} (l : list A) i a : l !! i = Some a → py_get l i = ok a.
Proof. intros H. unfold py_get. by rewrite H. Qed.

Lemma py_set_lt {A} (l : list A) i a :
  (i < length l)%nat → py_set l i a = ok (<[i := a]> l).
Proof. intros H. unfold py_set. by rewrite decide_True. Qed.

Lemma frame_loop_spec is_paused pend items : ∀ i done,
  (i + length items ≤ length done)%nat →
  ∃ cs done' cells,
    frame_loop is_paused pend i items done = ok (cs, done', cells)
    ∧ length cs = length items ∧ length cells = length items
    ∧ length done' = length done
    ∧ (∀ k, (k < i ∨ i + length items ≤ k)%nat → done' !! k = done !! k)
    ∧ (∀ j cap inf d,
         items !! j = Some (cap, inf) → done !! (i + j)%nat = Some d →
         cs !! j = Some (clip_after is_paused d cap)
         ∧ done' !! (i + j)%nat = Some (flag_after is_paused d cap)
         ∧ cells !! j = Some (Labeled (frame_of is_paused d cap) (label inf)
                                      (highlighted pend (i + j)))).
Proof.
  induction items as [|[cap inf] items IH]; intros i done Hlen; simpl in *.
  - exists [], done, []. split_and!; done.
  - destruct (lookup_lt_is_Some_2 done i) as [d Hd]; [lia |].
    rewrite (py_get_lookup _ _ _ Hd), bind_ok.
    unfold clip_after, flag_after, frame_of.
    destruct (play_clip is_paused d cap) as [[cap' mark] fr] eqn:Hplay.
    set (done1 := if mark then <[i := true]> done else done).
    assert (length done1 = length done) as Hlen1.
    { unfold done1. destruct mark; [apply length_insert | done]. }
    assert ((if mark then py_set done i true else ok done) = ok done1) as ->.
    { unfold done1. destruct mark; [apply py_set_lt; lia | done]. }
    rewrite bind_ok.
    destruct (IH (S i) done1) as (cs & done' & cells & -> & ? & ? & ? & Hout & Hin);
      [lia |].
    rewrite bind_ok. eexists _, _, _. split; [done |].
    split_and!; simpl; try congruence.
    + intros k Hk. rewrite Hout by lia. unfold done1.
      destruct mark; [|done]. apply list_lookup_insert_ne. lia.
    + intros j cap0 inf0 d0 Hj Hd0. destruct j as [|j]; simpl in *.
      * rewrite Nat.add_0_r in *. injection Hj as <- <-.
        rewrite Hd in Hd0. injection Hd0 as <-. rewrite Hplay. simpl.
        split_and!; [done | | by unfold highlighted].
        rewrite Hout by lia. unfold done1. destruct mark.
        -- rewrite list_lookup_insert_eq by lia. by rewrite orb_true_r.
        -- by rewrite orb_false_r.
      * replace (i + S j)%nat with (S i + j)%nat in * by lia.
        apply Hin; [done |]. unfold done1. destruct mark; [|done].
        rewrite list_lookup_insert_ne by lia. done.
Qed.

Lemma restart_loop_spec (cs : list VideoCapture) : ∀ i (done : list bool),
  (i + length cs ≤ length done)%nat →
  ∃ (cs' : list VideoCapture) (done' : list bool),
    restart_loop i cs done = ok (cs', done')
    ∧ length cs' = length cs ∧ length done' = length done
    ∧ (∀ k, (k < i ∨ i + length cs ≤ k)%nat → done' !! k = done !! k)
    ∧ (∀ j (cap : VideoCapture) (d : bool),
         cs !! j = Some cap → done !! (i + j)%nat = Some d →
         cs' !! j = Some (if d then cap_set_pos cap 0 else cap)
         ∧ done' !! (i + j)%nat = Some false).
Proof.
  induction cs as [|cap cs IH]; intros i done Hlen; simpl in *.
  - exists [], done. split_and!; done.
  - destruct (lookup_lt_is_Some_2 done i) as [d Hd]; [lia |].
    rewrite (py_get_lookup _ _ _ Hd), bind_ok.
    set (cap1 := if d then cap_set_pos cap 0 else cap).
    set (done1 := if d then <[i := false]> done else done).
    assert (length done1 = length done) as Hlen1.
    { unfold done1. destruct d; [apply length_insert | done]. }
    assert (done1 !! i = Some false) as Hi.
    { unfold done1. destruct d; [|done].
      apply list_lookup_insert_eq. lia. }
    assert (∀ k, k ≠ i → done1 !! k = done !! k) as Hother.
    { intros k Hk. unfold done1. destruct d; [|done].
      by apply list_lookup_insert_ne. }
    assert ((if d
             then bind (py_set done i false)
                    (λ done1, ok (cap_set_pos cap 0, done1))
             else ok (cap, done)) = ok (cap1, done1)) as ->.
    { unfold cap1, done1. destruct d; [|done].
      by rewrite py_set_lt by lia. }
    rewrite bind_ok. simpl.
    destruct (IH (S i) done1) as (cs' & done' & -> & ? & ? & Hout & Hin);
      [lia |].
    rewrite bind_ok. simpl. eexists _, _. split; [done |].
    split_and!; simpl; try congruence.
    + intros k Hk. rewrite Hout by lia. apply Hother. lia.
    + intros j cap0 d0 Hj Hd0. destruct j as [|j]; simpl in *.
      * rewrite Nat.add_0_r in *. injection Hj as <-.
        rewrite Hd in Hd0. injection Hd0 as <-.
        split; [done |]. by rewrite Hout by lia.
      * replace (i + S j)%nat with (S i + j)%nat in * by lia.
        apply Hin; [done |]. rewrite Hother by lia. done.
Qed.

Lemma rewind_loop_spec (cs : list VideoCapture) : ∀ i (done : list bool),
  (i + length cs ≤ length done)%nat →
  ∃ (cs' : list VideoCapture) (done' : list bool),
    rewind_loop i cs done = ok (cs', done')
    ∧ length cs' = length cs ∧ length done' = length done
    ∧ (∀ k, (k < i ∨ i + length cs ≤ k)%nat → done' !! k = done !! k)
    ∧ (∀ j cap,
         cs !! j = Some cap →
         cs' !! j = Some (cap_set_pos cap 0)
         ∧ done' !! (i + j)%nat = Some false).
Proof.
  induction cs as [|cap cs IH]; intros i done Hlen; simpl in *.
  - exists [], done. split_and!; done.
  - rewrite py_set_lt, bind_ok by lia.
    destruct (IH (S i) (<[i := false]> done))
      as (cs' & done' & -> & ? & Hl & Hout & Hin);
      [rewrite length_insert; lia |].
    rewrite bind_ok. simpl. eexists _, _. split; [done |].
    rewrite length_insert in Hl. split_and!; simpl; try congruence.
    + intros k Hk. rewrite Hout by lia. apply list_lookup_insert_ne. lia.
    + intros j cap0 Hj. destruct j as [|j]; simpl in *.
      * rewrite Nat.add_0_r. injection Hj as <-. split; [done |].
        rewrite Hout by lia. apply list_lookup_insert_eq. lia.
      * replace (i + S j)%nat with (S i + j)%nat by lia. by apply Hin.
Qed.

Lemma all_done_lookup (done : list bool) :
  all_done done = true ↔ ∀ i d, done !! i = Some d → d = true.
Proof.
  unfold all_done. rewrite forallb_forall. split.
  - intros H i d Hi. apply (H d). apply list_elem_of_In.
    by apply list_elem_of_lookup_2 in Hi.
  - intros H d Hd. apply list_elem_of_In, list_elem_of_lookup in Hd as [i Hi].
    by apply (H i).
Qed.

(** What [advance] does to a well-formed session: the frame loop acts on
    each clip by [clip_after], [flag_after] and [frame_of]; the restart
    then either leaves that, or rewinds every clip. *)
Lemma advance_spec g s :
  well_formed g s →
  ∃ (cs : list VideoCapture) (done : list bool) (cells : list cell)
    (cs' : list VideoCapture) (done' : list bool),
    advance g s = ok (set_playback cs' done' s, cells)
    ∧ length cs = length (caps s) ∧ length done = length (caps s)
    ∧ length cells = length (caps s)
    ∧ length cs' = length (caps s) ∧ length done' = length (caps s)
    ∧ (∀ i (cap : VideoCapture) (d : bool) (inf : info),
         caps s !! i = Some cap → video_done s !! i = Some d →
         video_info g !! i = Some inf →
         cs !! i = Some (clip_after (paused s) d cap)
         ∧ done !! i = Some (flag_after (paused s) d cap)
         ∧ cells !! i
           = Some (Labeled (frame_of (paused s) d cap) (label inf)
                           (highlighted (pending_classification s) i)))
    ∧ (all_done done && negb (paused s) = false → cs' = cs ∧ done' = done)
    ∧ (all_done done && negb (paused s) = true →
       ∀ i (cap : VideoCapture),
         cs !! i = Some cap →
         cs' !! i = Some (cap_set_pos cap 0) ∧ done' !! i = Some false).
Proof.
  intros [Hinfo Hdone]. unfold advance.
  assert (length (zip (caps s) (video_info g)) = length (caps s)) as Hzip.
  { rewrite length_zip_with. lia. }
  destruct (frame_loop_spec (paused s) (pending_classification s)
              (zip (caps s) (video_info g)) 0 (video_done s))
    as (cs & done & cells & -> & Hcs & Hcells & Hd & _ & Hin); [simpl; lia |].
  rewrite bind_ok. cbv beta iota.
  rewrite Hzip in Hcs, Hcells.
  rewrite drop_ge, app_nil_r by lia.
  assert (∀ i (cap : VideoCapture) (d : bool) (inf : info),
            caps s !! i = Some cap → video_done s !! i = Some d →
            video_info g !! i = Some inf →
            cs !! i = Some (clip_after (paused s) d cap)
            ∧ done !! i = Some (flag_after (paused s) d cap)
            ∧ cells !! i
              = Some (Labeled (frame_of (paused s) d cap) (label inf)
                              (highlighted (pending_classification s) i)))
    as Hclip.
  { intros i cap d inf Hc Hv Hi. apply (Hin i cap inf d); [|done].
    apply lookup_zip_with_Some. by exists cap, inf. }
  destruct (all_done done && negb (paused s)) eqn:Hrestart.
  - destruct (restart_loop_spec cs 0 done)
      as (cs' & done' & -> & Hcs' & Hd' & _ & Hre); [simpl; lia |].
    rewrite bind_ok. simpl.
    exists cs, done, cells, cs', done'.
    split_and!; try done; try lia; [by rewrite Hrestart |].
    intros _ i cap Hi.
    destruct (lookup_lt_is_Some_2 done i) as [d Hdi].
    { apply lookup_lt_Some in Hi. lia. }
    destruct (Hre i cap d Hi Hdi) as [-> Hfalse]. simpl in Hfalse.
    apply andb_true_iff in Hrestart as [Hall _].
    by rewrite (proj1 (all_done_lookup done) Hall i d Hdi).
  - rewrite bind_ok. simpl.
    exists cs, done, cells, cs, done.
    split_and!; try done; try lia. by rewrite Hrestart.
Qed.

(** *** One clip *)

Lemma play_clip_paused d cap :
  play_clip true d cap
  = (cap, negb d && negb (can_read cap),
     if d then Blank
     else if can_read cap then Decoded (pos_frames cap) else Blank).
Proof.
  unfold play_clip, can_read, cap_read, cap_get_pos, cap_set_pos.
  destruct d, cap as [[] n p]; simpl; try done.
  by destruct (bool_decide (p < n)%nat).
Qed.

Lemma play_clip_done is_paused cap :
  play_clip is_paused true cap = (cap, false, Blank).
Proof. unfold play_clip. by destruct is_paused. Qed.

Lemma cursor_set_pos_0 cap : cursor (cap_set_pos cap 0) = 0%nat.
Proof. unfold cursor, cap_get_pos, cap_set_pos. by destruct (is_opened cap) eqn:E; simpl; rewrite ?E. Qed.

(** *** The key and the click leave playback alone, the rewind apart *)

Lemma on_click_keeps g s :
  let s' := state_of (on_click g s) in
  caps s' = caps s ∧ video_done s' = video_done s ∧ paused s' = paused s
  ∧ files s' = files s.
Proof.
  unfold on_click.
  destruct (click_coords s) as [[x y]|], (pending_classification s);
    try done.
  destruct (get_clicked_video_index _ _ _ _ _ _ _) as [e|[idx|]]; try done.
  destruct (idx <? _); [|done].
  by destruct (py_index _ _).
Qed.

Lemma classify_keeps manual p s :
  let s' := state_of (classify manual p s) in
  caps s' = caps s ∧ video_done s' = video_done s ∧ paused s' = paused s.
Proof.
  unfold classify. by destruct (save_to_csv _ _ _ _ _) as [e|[fs msg]].
Qed.

Lemma on_key_keeps key s :
  (key =? ord "r") || (key =? ord "R") = false →
  let s' := state_of (on_key key s) in
  caps s' = caps s ∧ video_done s' = video_done s
  ∧ (key ≠ ord " " → paused s' = paused s).
Proof.
  intros Hr. unfold on_key. rewrite Hr.
  destruct ((key =? ord "q") || (key =? ord "Q")); [done |].
  destruct (Z.eqb_spec key (ord " ")); [done |].
  destruct (pending_classification s) as [p|]; [|done].
  destruct ((key =? ord "t") || (key =? ord "T")).
  { by destruct (classify_keeps "FOUND" p s) as (? & ? & ?). }
  destruct ((key =? ord "f") || (key =? ord "F")).
  { by destruct (classify_keeps "NOT_FOUND" p s) as (? & ? & ?). }
  by destruct (key =? 27).
Qed.

Lemma on_key_rewind key s :
  (key =? ord "r") || (key =? ord "R") = true →
  length (video_done s) = length (caps s) →
  let s' := state_of (on_key key s) in
  length (caps s') = length (caps s)
  ∧ length (video_done s') = length (video_done s)
  ∧ paused s' = paused s
  ∧ (∀ i (cap : VideoCapture),
       caps s !! i = Some cap →
       caps s' !! i = Some (cap_set_pos cap 0)
       ∧ video_done s' !! i = Some false).
Proof.
  intros Hr Hlen. unfold on_key. rewrite Hr.
  assert ((key =? ord "q") || (key =? ord "Q") = false) as ->.
  { apply orb_true_iff in Hr. apply orb_false_iff.
    destruct Hr as [->%Z.eqb_eq | ->%Z.eqb_eq]; done. }
  assert ((key =? ord " ") = false) as ->.
  { apply orb_true_iff in Hr.
    destruct Hr as [->%Z.eqb_eq | ->%Z.eqb_eq]; done. }
  unfold rewind_all_videos.
  destruct (rewind_loop_spec (caps s) 0 (video_done s))
    as (cs' & done' & -> & ? & ? & _ & Hin); [simpl; lia |].
  simpl. by split_and!.
Qed.

(** *** One pass *)

Lemma then_click_keeps g o :
  let s' := state_of (match o with
                      | Continue s4 => on_click g s4
                      | Break s0 => Break s0
                      | Raised e s0 => Raised e s0
                      end) in
  caps s' = caps (state_of o) ∧ video_done s' = video_done (state_of o)
  ∧ paused s' = paused (state_of o).
Proof.
  destruct o as [s4 | s4 | e s4]; try done.
  by destruct (on_click_keeps g s4) as (? & ? & ? & ?).
Qed.

Lemma tick_after_advance g inp s s1 cells :
  advance g s = ok (s1, cells) →
  tick g inp s
  = match on_key (Z.land (key_code inp) 255)
            (wait_key inp (imshow (composite g s1 cells) s1)).2 with
    | Continue s4 => on_click g s4
    | o => o
    end.
Proof. intros H. unfold tick. by rewrite H. Qed.

(** The playback state after a pass: that of [advance], rewound when the
    key is the rewind command. *)
Lemma tick_playback g inp s :
  well_formed g s →
  ∃ s1 cells,
    advance g s = ok (s1, cells)
    ∧ length (caps s1) = length (caps s)
    ∧ length (video_done s1) = length (caps s)
    ∧ paused s1 = paused s
    ∧ let s' := state_of (tick g inp s) in
      (Z.land (key_code inp) 255 ≠ ord " " → paused s' = paused s)
      ∧ (is_rewind inp = false →
         caps s' = caps s1 ∧ video_done s' = video_done s1)
      ∧ (is_rewind inp = true →
         length (caps s') = length (caps s)
         ∧ length (video_done s') = length (caps s)
         ∧ ∀ i (cap : VideoCapture),
             caps s1 !! i = Some cap →
             caps s' !! i = Some (cap_set_pos cap 0)
             ∧ video_done s' !! i = Some false).
Proof.
  intros Hwf.
  destruct (advance_spec g s Hwf)
    as (cs & done & cells & cs' & done' & Hadv & ? & ? & ? & ? & ? & _).
  eexists _, cells. split; [exact Hadv |]. simpl.
  split_and!; try done.
  all: rewrite (tick_after_advance _ _ _ _ _ Hadv).
  all: match goal with
       | |- context [on_key ?k ?s3] =>
           destruct (then_click_keeps g (on_key k s3)) as (Ec & Ed & Ep);
           rewrite ?Ec, ?Ed, ?Ep; clear Ec Ed Ep;
           set (key := k); set (st := s3)
       end.
  - intros Hsp. unfold is_rewind.
    destruct ((key =? ord "r") || (key =? ord "R")) eqn:Hr.
    + by destruct (on_key_rewind key st Hr) as (_ & _ & -> & _);
        [simpl; lia |].
    + destruct (on_key_keeps key st Hr) as (_ & _ & ->); done.
  - intros Hr. by destruct (on_key_keeps key st Hr) as (-> & -> & _).
  - intros Hr.
    destruct (on_key_rewind key st Hr) as (-> & -> & _ & Hin);
      [simpl; lia |].
    simpl. split_and!; try lia. done.
Qed.

Lemma tick_well_formed g inp s :
  well_formed g s → well_formed g (state_of (tick g inp s)).
Proof.
  intros Hwf. pose proof Hwf as [Hi Hd].
  destruct (tick_playback g inp s Hwf)
    as (s1 & cells & _ & ? & ? & _ & _ & Hno & Hre).
  unfold well_formed. destruct (is_rewind inp) eqn:Hr.
  - destruct (Hre eq_refl) as (-> & -> & _). lia.
  - destruct (Hno eq_refl) as (-> & ->). lia.
Qed.

(** *** Every session of a run is well formed *)

Lemma startup_well_formed o base answers fs g s :
  startup o base answers fs = inr (g, s) → well_formed g s.
Proof.
  unfold startup.
  destruct (select_folder o base answers) as [out [[]|folder]]; try done.
  cbv beta iota zeta.
  destruct (filter _ (sorted _)) as [|f fs'] eqn:E; [done |].
  rewrite <- E. clear E.
  destruct (floordiv _ _) as [e|r]; [done |].
  intros [= <- <-]. unfold well_formed. cbn [caps video_done video_info].
  by rewrite length_replicate, !length_fmap.
Qed.

Lemma reachable_well_formed g s0 s :
  well_formed g s0 → reachable g s0 s → well_formed g s.
Proof.
  intros Hwf. induction 1 as [|s inp s' _ IH Htick]; [done |].
  pose proof (tick_well_formed g inp s IH) as H. by rewrite Htick in H.
Qed.

(** *** Passes while playing and while paused *)

Lemma advance_all_done g s :
  well_formed g s → paused s = false → all_done (video_done s) = true →
  ∃ s1 cells,
    advance g s = ok (s1, cells)
    ∧ Forall (λ cap, cursor cap = 0%nat) (caps s1)
    ∧ Forall (λ d, d = false) (video_done s1).
Proof.
  intros Hwf Hp Hall. pose proof Hwf as [Hi Hd].
  destruct (advance_spec g s Hwf)
    as (cs & done & cells & cs' & done' & Hadv & ? & ? & ? & ? & ? & Hclip
        & _ & Hre).
  assert (all_done done && negb (paused s) = true) as Hrestart.
  { rewrite Hp, andb_true_r. apply all_done_lookup. intros i d Hdi.
    destruct (lookup_lt_is_Some_2 (caps s) i) as [cap Hc].
    { apply lookup_lt_Some in Hdi. lia. }
    destruct (lookup_lt_is_Some_2 (video_done s) i) as [d0 Hd0].
    { apply lookup_lt_Some in Hc. lia. }
    destruct (lookup_lt_is_Some_2 (video_info g) i) as [inf Hinf].
    { apply lookup_lt_Some in Hc. lia. }
    destruct (Hclip i cap d0 inf Hc Hd0 Hinf) as (_ & Hflag & _).
    rewrite Hflag in Hdi. injection Hdi as <-.
    rewrite (proj1 (all_done_lookup _) Hall i d0 Hd0). done. }
  specialize (Hre Hrestart).
  eexists _, _. split; [exact Hadv |]. simpl. split.
  - apply Forall_lookup. intros i cap' Hi'.
    destruct (lookup_lt_is_Some_2 cs i) as [cap Hc].
    { apply lookup_lt_Some in Hi'. lia. }
    destruct (Hre i cap Hc) as [Hcs' _]. rewrite Hcs' in Hi'.
    injection Hi' as <-. apply cursor_set_pos_0.
  - apply Forall_lookup. intros i d Hi'.
    destruct (lookup_lt_is_Some_2 cs i) as [cap Hc].
    { apply lookup_lt_Some in Hi'. lia. }
    destruct (Hre i cap Hc) as [_ Hd']. rewrite Hd' in Hi'. congruence.
Qed.

Lemma advance_paused g s :
  well_formed g s → paused s = true →
  ∃ s1 cells,
    advance g s = ok (s1, cells)
    ∧ caps s1 = caps s
    ∧ ∀ i (cap : VideoCapture) (d : bool) (inf : info),
        caps s !! i = Some cap → video_done s !! i = Some d →
        video_info g !! i = Some inf →
        video_done s1 !! i = Some (d || negb (can_read cap))
        ∧ cells !! i
          = Some (Labeled (paused_frame d cap) (label inf)
                          (highlighted (pending_classification s) i)).
Proof.
  intros Hwf Hp. pose proof Hwf as [Hi Hd].
  destruct (advance_spec g s Hwf)
    as (cs & done & cells & cs' & done' & Hadv & ? & ? & ? & ? & ? & Hclip
        & Hno & _).
  destruct Hno as [-> ->]; [by rewrite Hp, andb_false_r |].
  eexists _, _. split; [exact Hadv |]. simpl.
  rewrite Hp in Hclip. split.
  - apply list_eq. intros i.
    destruct (caps s !! i) as [cap|] eqn:Hc.
    + destruct (lookup_lt_is_Some_2 (video_done s) i) as [d0 Hd0].
      { apply lookup_lt_Some in Hc. lia. }
      destruct (lookup_lt_is_Some_2 (video_info g) i) as [inf Hinf].
      { apply lookup_lt_Some in Hc. lia. }
      destruct (Hclip i cap d0 inf Hc Hd0 Hinf) as (-> & _).
      unfold clip_after. by rewrite play_clip_paused.
    + apply lookup_ge_None. apply lookup_ge_None in Hc. lia.
  - intros i cap d inf Hc Hd0 Hinf.
    destruct (Hclip i cap d inf Hc Hd0 Hinf) as (_ & -> & ->).
    unfold flag_after, frame_of. rewrite play_clip_paused. simpl.
    split; [|done]. by destruct d.
Qed.

(** *** The demonstration session *)

Lemma demo_startup : startup demo_os "/v" ["1"] ∅ = inr (demo_grid, demo_session).
Proof. vm_compute. reflexivity. Qed.

Lemma demo_well_formed : well_formed demo_grid demo_session.
Proof. by split. Qed.

(** A pass taken while paused, the rewind command apart, for any
    well-formed session. *)
Lemma paused_pass_well_formed (g : grid) (inp : tick_input) (s : session) :
  well_formed g s → paused s = true → is_rewind inp = false →
  ∃ s1 cells,
    advance g s = ok (s1, cells)
    ∧ caps (state_of (tick g inp s)) = caps s
    ∧ ∀ i (cap : VideoCapture) (d : bool) (inf : info),
        caps s !! i = Some cap → video_done s !! i = Some d →
        video_info g !! i = Some inf →
        video_done (state_of (tick g inp s)) !! i
        = Some (d || negb (can_read cap))
        ∧ cells !! i
          = Some (Labeled (paused_frame d cap) (label inf)
                          (highlighted (pending_classification s) i)).
Proof.
  intros Hwf Hp Hr.
  destruct (advance_paused g s Hwf Hp) as (s1 & cells & Hadv & Hcaps & Hclip).
  destruct (tick_playback g inp s Hwf)
    as (s1' & cells' & Hadv' & _ & _ & _ & _ & Hno & _).
  rewrite Hadv in Hadv'. injection Hadv' as <- <-.
  destruct (Hno Hr) as [-> ->]. by exists s1, cells.
Qed.


(** Claim C8, amended.  In every session the loop reaches from startup, a
    pass taken while paused in which the key is not the rewind command
    moves no cursor: every capture ends the pass as it began it.  A clip
    that was not exhausted and whose probe read succeeds shows the frame
    under its cursor and keeps its flag; one whose probe read fails shows a
    blank frame and is marked exhausted; an exhausted clip shows a blank
    frame and stays exhausted. *)
Theorem paused_pass (o : os) (base : string) (answers : list string)
    (fs : gmap string node) (g : grid) (s0 s : session) (inp : tick_input) :
  startup o base answers fs = inr (g, s0) → reachable g s0 s →
  paused s = true → is_rewind inp = false →
  ∃ s1 cells,
    advance g s = ok (s1, cells)
    ∧ caps (state_of (tick g inp s)) = caps s
    ∧ ∀ i (cap : VideoCapture) (d : bool) (inf : info),
        caps s !! i = Some cap → video_done s !! i = Some d →
        video_info g !! i = Some inf →
        video_done (state_of (tick g inp s)) !! i
        = Some (d || negb (can_read cap))
        ∧ cells !! i
          = Some (Labeled (paused_frame d cap) (label inf)
                          (highlighted (pending_classification s) i)).
Proof.
  intros Hstart Hreach. apply paused_pass_well_formed.
  apply (reachable_well_formed g s0); [|done].
  by apply (startup_well_formed o base answers fs).
Qed.

Lemma paused_pass_witness :
  let s := state_of (tick demo_grid (press " ") demo_session) in
  let clip := {| is_opened := true; frame_count := 1; pos_frames := 1 |} in
  paused s = true ∧ caps s = [clip]
  ∧ caps (state_of (tick demo_grid no_input s)) = [clip]
  ∧ video_done (state_of (tick demo_grid no_input s)) !! 0%nat = Some true.
Proof.
  intros s clip.
  assert (reachable demo_grid demo_session s) as Hreach.
  { apply (reach_tick _ _ demo_session (press " "));
      [apply reach_start | vm_compute; reflexivity]. }
  destruct (paused_pass demo_os "/v" ["1"] ∅ demo_grid demo_session s no_input)
    as (s1 & cells & _ & Hc & Hclip);
    [reflexivity | exact Hreach | reflexivity | reflexivity |].
  split_and!.
  - reflexivity.
  - reflexivity.
  - exact Hc.
  - exact (proj1 (Hclip 0%nat clip false
                    {| file := "/v/day1/channel1_2T3_found.mp4";
                       label := "channel1_FOUND";
                       original_name := "channel1_2T3";
                       model_status := "FOUND" |}
                    eq_refl eq_refl eq_refl)).
Defined.

(** Claim C8 fails at the end of a clip.  The one-frame clip is played for
    one pass, during which the operator pauses; the next pass, taken while
    paused with no key, finds nothing to read and marks the clip
    exhausted. *)
Lemma paused_pass_marks_exhausted :
  let before := state_of (main_loop demo_grid [press " "] demo_session) in
  let after := state_of (tick demo_grid no_input before) in
  paused before = true ∧ paused after = true
  ∧ video_done before = [false] ∧ video_done after = [true].
Proof. vm_compute. by split_and!. Qed.

(** The restart and the hold, for any well-formed session. *)
Lemma restart_or_hold_well_formed (g : grid) (s : session) :
  well_formed g s →
  (paused s = false → all_done (video_done s) = true →
   ∀ inp,
     let s' := state_of (tick g inp s) in
     length (caps s') = length (caps s)
     ∧ length (video_done s') = length (caps s)
     ∧ Forall (λ cap, cursor cap = 0%nat) (caps s')
     ∧ Forall (λ d, d = false) (video_done s'))
  ∧ (paused s = true →
     ∀ inputs,
       Forall (λ inp, is_rewind inp = false ∧ toggles_pause inp = false)
              inputs →
       let s' := state_of (main_loop g inputs s) in
       paused s' = true
       ∧ ∀ i, video_done s !! i = Some true → video_done s' !! i = Some true).
Proof.
  intros Hwf. split.
  - intros Hp Hall inp.
    destruct (advance_all_done g s Hwf Hp Hall) as (s1 & cells & Hadv & Hc & Hd).
    destruct (tick_playback g inp s Hwf)
      as (s1' & cells' & Hadv' & Hl1 & Hl2 & _ & _ & Hno & Hre).
    rewrite Hadv in Hadv'. injection Hadv' as <- <-.
    destruct (is_rewind inp) eqn:Hr.
    + destruct (Hre eq_refl) as (Hlc & Hld & Hin). simpl.
      split_and!; try done.
      * apply Forall_lookup. intros i cap' Hi.
        destruct (lookup_lt_is_Some_2 (caps s1) i) as [cap Hcap].
        { apply lookup_lt_Some in Hi. lia. }
        destruct (Hin i cap Hcap) as [E _]. rewrite E in Hi.
        injection Hi as <-. apply cursor_set_pos_0.
      * apply Forall_lookup. intros i d Hi.
        destruct (lookup_lt_is_Some_2 (caps s1) i) as [cap Hcap].
        { apply lookup_lt_Some in Hi. lia. }
        destruct (Hin i cap Hcap) as [_ E]. rewrite E in Hi. congruence.
    + destruct (Hno eq_refl) as [Ec Ed]. simpl. rewrite Ec, Ed. done.
  - intros Hp inputs Hin. revert s Hwf Hp.
    induction Hin as [|inp inputs [Hr Hsp] _ IH]; intros s Hwf Hp; simpl.
    + done.
    + destruct (advance_paused g s Hwf Hp) as (s1 & cells & Hadv & _ & Hclip).
      destruct (tick_playback g inp s Hwf)
        as (s1' & cells' & Hadv' & _ & _ & _ & Hpause & Hno & _).
      rewrite Hadv in Hadv'. injection Hadv' as <- <-.
      destruct (Hno Hr) as [_ Ed]. rewrite <- Ed in Hclip.
      pose proof (tick_well_formed g inp s Hwf) as Hwf'.
      assert (paused (state_of (tick g inp s)) = true) as Hp'.
      { rewrite Hpause; [done |]. unfold toggles_pause in Hsp.
        by apply Z.eqb_neq. }
      assert (∀ i, video_done s !! i = Some true →
                   video_done (state_of (tick g inp s)) !! i = Some true)
        as Hkeep.
      { intros i Hi. pose proof Hwf as [Hli Hld].
        destruct (lookup_lt_is_Some_2 (caps s) i) as [cap Hcap].
        { apply lookup_lt_Some in Hi. lia. }
        destruct (lookup_lt_is_Some_2 (video_info g) i) as [inf Hinf].
        { apply lookup_lt_Some in Hcap. lia. }
        by destruct (Hclip i cap true inf Hcap Hi Hinf) as [-> _]. }
      destruct (tick g inp s) as [s2 | s2 | e s2]; simpl in *; try done.
      destruct (IH s2 Hwf' Hp') as [Hq Hk]. split; [done |].
      intros i Hi. by apply Hk, Hkeep.
Qed.

(** Claim C5, amended.  In every session the loop reaches from startup: a
    pass that starts with every clip exhausted and playback not paused ends
    with every cursor at the start and no clip exhausted; and while
    playback stays paused and no rewind command is given, a clip that is
    exhausted stays exhausted, pass after pass. *)
Theorem restart_or_hold (o : os) (base : string) (answers : list string)
    (fs : gmap string node) (g : grid) (s0 s : session) :
  startup o base answers fs = inr (g, s0) → reachable g s0 s →
  (paused s = false → all_done (video_done s) = true →
   ∀ inp,
     let s' := state_of (tick g inp s) in
     length (caps s') = length (caps s)
     ∧ length (video_done s') = length (caps s)
     ∧ Forall (λ cap, cursor cap = 0%nat) (caps s')
     ∧ Forall (λ d, d = false) (video_done s'))
  ∧ (paused s = true →
     ∀ inputs,
       Forall (λ inp, is_rewind inp = false ∧ toggles_pause inp = false)
              inputs →
       let s' := state_of (main_loop g inputs s) in
       paused s' = true
       ∧ ∀ i, video_done s !! i = Some true → video_done s' !! i = Some true).
Proof.
  intros Hstart Hreach. apply restart_or_hold_well_formed.
  apply (reachable_well_formed g s0); [|done].
  by apply (startup_well_formed o base answers fs).
Qed.

Lemma restart_or_hold_witness :
  let playing :=
    state_of (main_loop demo_grid [press " "; no_input; press " "]
                demo_session) in
  let held := state_of (main_loop demo_grid [press " "; no_input] demo_session) in
  (paused playing = false ∧ video_done playing = [true]
   ∧ video_done (state_of (tick demo_grid no_input playing)) = [false]
   ∧ cursor <$> caps (state_of (tick demo_grid no_input playing)) = [0%nat])
  ∧ (paused held = true ∧ video_done held = [true]
     ∧ video_done (state_of (main_loop demo_grid [no_input; press "t"] held))
       !! 0%nat = Some true).
Proof.
  intros playing held.
  set (first := state_of (tick demo_grid (press " ") demo_session)).
  assert (reachable demo_grid demo_session first) as Hfirst.
  { apply (reach_tick _ _ demo_session (press " "));
      [apply reach_start | vm_compute; reflexivity]. }
  assert (reachable demo_grid demo_session held) as Hheld.
  { apply (reach_tick _ _ first no_input);
      [exact Hfirst | vm_compute; reflexivity]. }
  assert (reachable demo_grid demo_session playing) as Hplaying.
  { apply (reach_tick _ _ held (press " "));
      [exact Hheld | vm_compute; reflexivity]. }
  destruct (restart_or_hold demo_os "/v" ["1"] ∅ demo_grid demo_session playing)
    as [Hplay _]; [reflexivity | exact Hplaying |].
  destruct (restart_or_hold demo_os "/v" ["1"] ∅ demo_grid demo_session held)
    as [_ Hhold]; [reflexivity | exact Hheld |].
  destruct (Hplay eq_refl eq_refl no_input) as (Hl1 & Hl2 & Hc & Hd).
  destruct (Hhold eq_refl [no_input; press "t"]) as [_ Hk].
  { repeat constructor. }
  split; split_and!.
  - reflexivity.
  - reflexivity.
  - destruct (video_done (state_of (tick demo_grid no_input playing)))
      as [|d [|]]; try discriminate Hl2.
    apply Forall_cons in Hd as [-> _]. reflexivity.
  - destruct (caps (state_of (tick demo_grid no_input playing)))
      as [|c [|]]; try discriminate Hl1.
    apply Forall_cons in Hc as [Hc0 _]. simpl. by rewrite Hc0.
  - reflexivity.
  - reflexivity.
  - apply Hk. reflexivity.
Defined.

(** Claim C5 fails on its last part.  With the one-frame clip exhausted and
    playback paused, the rewind command clears the flag while the pause
    still holds. *)
Lemma rewind_clears_exhausted_while_paused :
  let before :=
    state_of (main_loop demo_grid [press " "; no_input] demo_session) in
  let after := state_of (tick demo_grid (press "r") before) in
  paused before = true ∧ video_done before = [true]
  ∧ paused after = true ∧ video_done after = [false].
Proof. vm_compute. by split_and!. Qed.

(** ** The classification controller *)

Lemma pair_startup : startup pair_os "/v" ["1"] ∅ = inr (pair_grid, pair_session).
Proof. vm_compute. reflexivity. Qed.

Lemma py_index_nonneg {A} (l : list A) (i : Z) a :
  0 ≤ i → l !! Z.to_nat i = Some a → py_index l i = ok a.
Proof.
  intros Hi Ha. unfold py_index.
  rewrite (proj2 (Z.leb_le 0 i) Hi). by apply py_get_lookup.
Qed.

Lemma classify_ok manual p s :
  files s !! default_csv ≠ Some Directory →
  ∃ s', classify manual p s = Continue s'
        ∧ pending_classification s' = None
        ∧ click_coords s' = click_coords s
        ∧ log_rows (files s')
          = log_rows (files s)
            ++ (if isfile (files s) default_csv then [] else [fieldnames])
            ++ [[p_original_name p; p_model_status p; manual]].
Proof.
  intros Hdir. unfold classify, log_rows, isfile.
  destruct (files s !! default_csv) as [[|rows]|] eqn:E; [done | |].
  - rewrite (save_to_csv_file _ _ _ _ _ _ E). eexists. split; [done |].
    simpl. by rewrite lookup_insert_eq.
  - rewrite (save_to_csv_new _ _ _ _ _ E). eexists. split; [done |].
    simpl. by rewrite lookup_insert_eq.
Qed.

Lemma on_click_selects g s x y idx inf :
  pending_classification s = None → click_coords s = Some (x, y) →
  get_clicked_video_index x y (cols g) (rows g) (frame_width g)
    (frame_height g) (total g) = ok (Some idx) →
  0 ≤ idx → video_info g !! Z.to_nat idx = Some inf →
  ∃ s', on_click g s = Continue s'
        ∧ pending_classification s' = Some (selection idx inf)
        ∧ click_coords s' = None
        ∧ files s' = files s.
Proof.
  intros Hp Hc Hidx Hpos Hinf. unfold on_click.
  rewrite Hc, Hp, Hidx. unfold ok. cbv beta iota.
  assert ((idx <? Z.of_nat (length (video_info g))) = true) as ->.
  { apply Z.ltb_lt. apply lookup_lt_Some in Hinf. lia. }
  rewrite (py_index_nonneg _ _ _ Hpos Hinf). unfold ok. by eexists.
Qed.

Lemma on_key_confirms s p key manual :
  pending_classification s = Some p → confirms key manual →
  files s !! default_csv ≠ Some Directory →
  ∃ s', on_key key s = Continue s'
        ∧ pending_classification s' = None
        ∧ click_coords s' = click_coords s
        ∧ log_rows (files s')
          = log_rows (files s)
            ++ (if isfile (files s) default_csv then [] else [fieldnames])
            ++ [[p_original_name p; p_model_status p; manual]].
Proof.
  intros Hp Hkey Hdir. unfold on_key. rewrite Hp.
  destruct (classify_ok manual p s Hdir) as (s' & Hs' & ? & ? & ?).
  exists s'.
  destruct Hkey as [[[-> | ->] ->] | [[-> | ->] ->]]; by split_and!.
Qed.

Lemma on_key_cancels s p :
  pending_classification s = Some p →
  ∃ s', on_key 27 s = Continue s'
        ∧ pending_classification s' = None
        ∧ click_coords s' = click_coords s
        ∧ files s' = files s.
Proof. intros Hp. unfold on_key. rewrite Hp. by eexists. Qed.

(** Claim C1.  With no selection pending, a buffered click that maps to
    the index of a clip selects that clip, recording its original name and
    model status, and writes nothing to the log.  With a selection pending,
    the key T or t (F or f) logs exactly one row for the selected clip with
    manual status FOUND (NOT_FOUND), after the header when the log is new,
    and leaves no selection pending; ESC leaves no selection pending and
    the log as it was. *)
Theorem controller_transitions (g : grid) (s : session) :
  (∀ x y idx inf,
     pending_classification s = None → click_coords s = Some (x, y) →
     get_clicked_video_index x y (cols g) (rows g) (frame_width g)
       (frame_height g) (total g) = ok (Some idx) →
     0 ≤ idx → video_info g !! Z.to_nat idx = Some inf →
     ∃ s', on_click g s = Continue s'
           ∧ pending_classification s' = Some (selection idx inf)
           ∧ click_coords s' = None
           ∧ files s' = files s)
  ∧ (∀ p key manual,
       pending_classification s = Some p → confirms key manual →
       files s !! default_csv ≠ Some Directory →
       ∃ s', on_key key s = Continue s'
             ∧ pending_classification s' = None
             ∧ log_rows (files s')
               = log_rows (files s)
                 ++ (if isfile (files s) default_csv then [] else [fieldnames])
                 ++ [[p_original_name p; p_model_status p; manual]])
  ∧ (∀ p,
       pending_classification s = Some p →
       ∃ s', on_key 27 s = Continue s'
             ∧ pending_classification s' = None
             ∧ files s' = files s).
Proof.
  split_and!.
  - intros x y idx inf. apply on_click_selects.
  - intros p key manual Hp Hkey Hdir.
    destruct (on_key_confirms s p key manual Hp Hkey Hdir)
      as (s' & ? & ? & _ & ?).
    by exists s'.
  - intros p Hp. destruct (on_key_cancels s p Hp) as (s' & ? & ? & _ & ?).
    by exists s'.
Qed.

Lemma controller_transitions_witness :
  let clip0 := {| file := "/v/day1/channel1_2T3_found.mp4";
                  label := "channel1_FOUND";
                  original_name := "channel1_2T3";
                  model_status := "FOUND" |} in
  let idle := set_click (Some (10, 10)) pair_session in
  let awaiting := set_pending (Some (selection 0 clip0)) pair_session in
  (∃ s', on_click pair_grid idle = Continue s'
         ∧ pending_classification s' = Some (selection 0 clip0)
         ∧ click_coords s' = None ∧ files s' = files idle)
  ∧ (∃ s', on_key (ord "T") awaiting = Continue s'
           ∧ pending_classification s' = None
           ∧ log_rows (files s')
             = [fieldnames; ["channel1_2T3"; "FOUND"; "FOUND"]])
  ∧ (∃ s', on_key 27 awaiting = Continue s'
           ∧ pending_classification s' = None
           ∧ files s' = files awaiting).
Proof.
  intros clip0 idle awaiting. split_and!.
  - apply (proj1 (controller_transitions pair_grid idle) 10 10 0 clip0);
      (reflexivity || lia).
  - apply (proj1 (proj2 (controller_transitions pair_grid awaiting))
             (selection 0 clip0) (ord "T") "FOUND").
    + reflexivity.
    + left. split; [right |]; reflexivity.
    + discriminate.
  - apply (proj2 (proj2 (controller_transitions pair_grid awaiting))
             (selection 0 clip0)).
    reflexivity.
Defined.

(** A whole pass in which no click is buffered or arrives: the key decides
    alone, and the pass ends with no selection pending. *)
Lemma pass_resolves g inp s p :
  well_formed g s → pending_classification s = Some p →
  click_coords s = None → mouse inp = [] →
  files s !! default_csv ≠ Some Directory →
  (∀ manual, confirms (Z.land (key_code inp) 255) manual →
     ∃ s', tick g inp s = Continue s'
           ∧ pending_classification s' = None
           ∧ log_rows (files s')
             = log_rows (files s)
               ++ (if isfile (files s) default_csv then [] else [fieldnames])
               ++ [[p_original_name p; p_model_status p; manual]])
  ∧ (Z.land (key_code inp) 255 = 27 →
     ∃ s', tick g inp s = Continue s'
           ∧ pending_classification s' = None ∧ files s' = files s).
Proof.
  intros Hwf Hp Hc Hm Hdir.
  destruct (advance_spec g s Hwf)
    as (cs & done & cells & cs' & done' & Hadv & _).
  rewrite (tick_after_advance _ _ _ _ _ Hadv). unfold wait_key.
  rewrite Hm. simpl. rewrite Hc.
  set (s3 := set_click None _).
  split.
  - intros manual Hkey.
    destruct (on_key_confirms s3 p _ manual Hp Hkey Hdir)
      as (s' & -> & Hpend & Hcl & Hlog).
    exists s'. split_and!; try done.
    unfold on_click. by rewrite Hcl.
  - intros ->. destruct (on_key_cancels s3 p Hp) as (s' & -> & Hpend & Hcl & Hf).
    exists s'. split_and!; try done.
    unfold on_click. by rewrite Hcl.
Qed.

(** Claim C4 fails on the program.  The operator clicks clip 0, then
    clicks clip 1 while the choice for clip 0 is pending, then presses ESC.
    The second click is neither handled nor dropped during its pass: it
    stays buffered, and the pass that cancels the first selection selects
    clip 1 with it. *)
Theorem click_during_selection_survives :
  let s1 := state_of (tick pair_grid (left_click 10 50) pair_session) in
  let s2 := state_of (tick pair_grid (left_click 330 50) s1) in
  let s3 := state_of (tick pair_grid (press_code 27) s2) in
  p_index <$> pending_classification s1 = Some 0
  ∧ click_coords s1 = None
  ∧ p_index <$> pending_classification s2 = Some 0
  ∧ click_coords s2 = Some (330, 10)
  ∧ p_original_name <$> pending_classification s3 = Some "channel2_2T3"
  ∧ click_coords s3 = None.
Proof. vm_compute. by split_and!. Qed.

(** ** Startup *)

Lemma filter_none {A} (P : A → Prop) `{∀ x, Decision (P x)} (l : list A) :
  (∀ x, x ∈ l → ¬ P x) → filter P l = [].
Proof.
  induction l as [|x l IH]; intros Hl; [done |].
  rewrite filter_cons_False by (apply Hl; left).
  apply IH. intros y Hy. apply Hl. by right.
Qed.

Lemma sorted_elem_of (l : list string) f : f ∈ sorted l → f ∈ l.
Proof. unfold sorted. by rewrite merge_sort_Permutation. Qed.

Lemma get_available_folders_missing o base :
  os_exists o base = false →
  get_available_folders o base
  = raise (FileNotFoundError ("Base path does not exist: " +:+ base)).
Proof. intros H. unfold get_available_folders. by rewrite H. Qed.

Lemma get_available_folders_empty o base names :
  os_exists o base = true → os_listdir o base = ok names →
  (∀ n, n ∈ names → os_isdir o (path_join base n) = false) →
  get_available_folders o base
  = raise (FileNotFoundError ("No folders found in " +:+ base)).
Proof.
  intros He Hl Hnone. unfold get_available_folders. rewrite He, Hl. simpl.
  rewrite filter_none; [done |].
  intros n Hn. by rewrite (Hnone n Hn).
Qed.

(** Claim C9, amended.  A base path that does not exist and a base path
    that holds no folder each make [get_available_folders] raise
    [FileNotFoundError]; [main] reports it and returns.  When the folder
    chosen holds no file with an accepted extension (or is gone, so that
    [glob] finds nothing), [main] prints "No video files found." and returns
    without raising.  In the three cases no window has been opened and the
    log directory is as it was. *)
Theorem startup_failures (o : os) (base : string) (answers : list string)
    (fs : gmap string node) :
  (os_exists o base = false →
   get_available_folders o base
   = raise (FileNotFoundError ("Base path does not exist: " +:+ base))
   ∧ aborted_before_window (startup o base answers fs) fs
       ("Error: Base path does not exist: " +:+ base))
  ∧ (∀ names,
       os_exists o base = true → os_listdir o base = ok names →
       (∀ n, n ∈ names → os_isdir o (path_join base n) = false) →
       get_available_folders o base
       = raise (FileNotFoundError ("No folders found in " +:+ base))
       ∧ aborted_before_window (startup o base answers fs) fs
           ("Error: No folders found in " +:+ base))
  ∧ (∀ out folder,
       select_folder o base answers = (out, ok folder) →
       (∀ f, f ∈ os_glob o (path_join folder "*.*") → is_video f = false) →
       aborted_before_window (startup o base answers fs) fs
         "No video files found.").
Proof.
  split_and!.
  - intros He. pose proof (get_available_folders_missing o base He) as Hg.
    split; [done |]. unfold startup, select_folder. rewrite Hg.
    eexists. split; [done |]. by split_and!.
  - intros names He Hl Hnone.
    pose proof (get_available_folders_empty o base names He Hl Hnone) as Hg.
    split; [done |]. unfold startup, select_folder. rewrite Hg.
    eexists. split; [done |]. by split_and!.
  - intros out folder Hsel Hnone. unfold startup. rewrite Hsel.
    unfold ok. cbv beta iota zeta. rewrite filter_none.
    + eexists. split; [done |]. split_and!; try done.
      simpl. by rewrite last_snoc.
    + intros f Hf. by rewrite (Hnone f (sorted_elem_of _ _ Hf)).
Qed.

Lemma startup_failures_witness :
  aborted_before_window (startup notes_os "/gone" [] ∅) ∅
    "Error: Base path does not exist: /gone"
  ∧ aborted_before_window (startup bare_os "/v" [] ∅) ∅
      "Error: No folders found in /v"
  ∧ aborted_before_window (startup notes_os "/v" ["1"] ∅) ∅
      "No video files found.".
Proof.
  split_and!.
  - apply (proj1 (startup_failures notes_os "/gone" [] ∅)). reflexivity.
  - apply (proj1 (proj2 (startup_failures bare_os "/v" [] ∅)) ["readme.md"]).
    + reflexivity.
    + reflexivity.
    + intros n Hn. apply list_elem_of_singleton in Hn. subst n. reflexivity.
  - apply (proj2 (proj2 (startup_failures notes_os "/v" ["1"] ∅))
             (menu "/v" ["day1"] ++ [prompt ["day1"]; Line "Selected: day1"])
             "/v/day1").
    + reflexivity.
    + intros f Hf. vm_compute in Hf.
      apply list_elem_of_singleton in Hf. subst f. reflexivity.
Defined.

(** Claim C9 fails on its last part.  With a folder that holds no clip,
    the listing of folders raises nothing, and [main] returns normally
    after printing its own message: no [FileNotFoundError] is raised, and
    none is reported. *)
Lemma no_clips_returns_without_raising :
  get_available_folders notes_os "/v" = ok ["day1"]
  ∧ ∃ s, main notes_os "/v" ["1"] [] ∅ = Returned s
         ∧ last (stdout s) = Some (Line "No video files found.")
         ∧ Forall (λ l, ∀ msg, l ≠ Line ("Error: " +:+ msg)) (stdout s).
Proof.
  split; [reflexivity |]. eexists. split; [vm_compute; reflexivity |].
  split; [reflexivity |].
  repeat constructor; intros msg H; simpl in H; discriminate H.
Qed.

(** ** Choosing the folder *)

#[local] Instance flip_string_le_total : Total (flip String.le).
Proof. intros x y. unfold flip. destruct (String.le_total y x); auto. Qed.

Lemma get_available_folders_dirs o base folders :
  get_available_folders o base = ok folders →
  ∀ f, f ∈ folders →
    (∃ names, os_listdir o base = ok names ∧ f ∈ names)
    ∧ os_isdir o (path_join base f) = true.
Proof.
  unfold get_available_folders.
  destruct (os_exists o base); [|done]. simpl.
  destruct (os_listdir o base) as [e|names]; [done |]. simpl.
  destruct (filter _ names) as [|f0 fs] eqn:E; [done |].
  intros [= <-] f Hf. unfold sorted_reverse in Hf.
  rewrite merge_sort_Permutation, <- E in Hf.
  apply list_elem_of_filter in Hf as [Hd Hin]. split; [|done].
  by exists names.
Qed.

(** Property X1.  When [get_available_folders] returns, the base path exists and
    what it returns is not empty, holds exactly the entries of the base
    path that are directories, and is in descending order. *)
Theorem get_available_folders_listing (o : os) (base : string)
    (folders : list string) :
  get_available_folders o base = ok folders →
  os_exists o base = true
  ∧ folders ≠ []
  ∧ (∃ names,
       os_listdir o base = ok names
       ∧ folders ≡ₚ filter (λ f, os_isdir o (path_join base f) = true) names)
  ∧ StronglySorted (flip String.le) folders.
Proof.
  unfold get_available_folders.
  destruct (os_exists o base); [|done]. simpl.
  destruct (os_listdir o base) as [e|names]; [done |]. simpl.
  destruct (filter _ names) as [|f fs] eqn:E; [done |].
  intros [= <-]. split; [done |].
  assert (sorted_reverse (f :: fs) ≡ₚ f :: fs) as Hperm
    by apply merge_sort_Permutation.
  split_and!.
  - intros Hnil. rewrite Hnil in Hperm.
    by apply Permutation_nil_cons in Hperm.
  - exists names. by rewrite E.
  - apply StronglySorted_merge_sort; apply _.
Qed.

Lemma get_available_folders_listing_witness :
  get_available_folders archive_os "/v"
  = ok ["20250620T0901"; "20250619T2359"; "20250618T1458"]
  ∧ StronglySorted (flip String.le)
      ["20250620T0901"; "20250619T2359"; "20250618T1458"].
Proof.
  assert (get_available_folders archive_os "/v"
          = ok ["20250620T0901"; "20250619T2359"; "20250618T1458"]) as H
    by (vm_compute; reflexivity).
  split; [exact H |].
  exact (proj2 (proj2 (proj2 (get_available_folders_listing _ _ _ H)))).
Defined.

Lemma ask_folder_turned_down base folders answer answers out :
  turned_down (length folders) answer →
  ∃ out', ask_folder base folders (answer :: answers) out
          = ask_folder base folders answers out'.
Proof.
  intros [Hq Hint]. cbn [ask_folder]. rewrite Hq.
  destruct (int_of_string (Str.strip answer)) as [k|]; [|by eexists].
  destruct (Z.leb_spec 1 k), (Z.leb_spec k (Z.of_nat (length folders)));
    simpl; try by eexists.
  destruct Hint. lia.
Qed.

Lemma ask_folder_picks base folders answer answers out k :
  picks (length folders) answer k →
  ∃ f, folders !! Z.to_nat (k - 1) = Some f
       ∧ (ask_folder base folders (answer :: answers) out).2
         = ok (path_join base f).
Proof.
  intros (Hq & Hint & Hk). cbn [ask_folder]. rewrite Hq, Hint.
  rewrite (proj2 (Z.leb_le 1 k)), (proj2 (Z.leb_le k _)) by lia. simpl.
  destruct (lookup_lt_is_Some_2 folders (Z.to_nat (k - 1))) as [f Hf]; [lia |].
  exists f. split; [done |]. unfold py_get. by rewrite Hf.
Qed.

Lemma ask_folder_listed base folders answers : ∀ out out' p,
  ask_folder base folders answers out = (out', ok p) →
  ∃ f, f ∈ folders ∧ p = path_join base f.
Proof.
  induction answers as [|answer answers IH]; intros out out' p; cbn [ask_folder].
  - done.
  - destruct (String.eqb _ "q"); [done |].
    destruct (int_of_string _) as [k|]; [|apply IH].
    destruct (_ && _); [|apply IH].
    unfold py_get. destruct (folders !! _) as [f|] eqn:Hf; [|done].
    intros [= _ <-]. exists f. split; [|done].
    by apply list_elem_of_lookup_2 in Hf.
Qed.

(** Property X2.  Whatever the operator answers, [select_folder] returns
    only the path of a folder that [get_available_folders] listed: an entry
    of the base path that is a directory. *)
Theorem select_folder_listed (o : os) (base : string) (answers : list string)
    (out : list printed) (p : string) :
  select_folder o base answers = (out, ok p) →
  ∃ folders f,
    get_available_folders o base = ok folders
    ∧ f ∈ folders ∧ p = path_join base f ∧ os_isdir o p = true.
Proof.
  unfold select_folder.
  destruct (get_available_folders o base) as [e|folders] eqn:Hg; [done |].
  intros (f & Hf & ->)%ask_folder_listed. exists folders, f.
  split_and!; try done.
  destruct (get_available_folders_dirs o base folders Hg f Hf) as [_ H]. done.
Qed.

Lemma select_folder_listed_witness :
  ∃ folders f,
    get_available_folders archive_os "/v" = ok folders
    ∧ f ∈ folders ∧ "/v/20250619T2359" = path_join "/v" f
    ∧ os_isdir archive_os "/v/20250619T2359" = true.
Proof.
  apply (select_folder_listed archive_os "/v" ["0"; "two"; " 2 "]
           (select_folder archive_os "/v" ["0"; "two"; " 2 "]).1).
  vm_compute. reflexivity.
Defined.

Lemma ask_folder_skips base folders bad : ∀ rest out,
  Forall (turned_down (length folders)) bad →
  ∃ out', ask_folder base folders (bad ++ rest) out
          = ask_folder base folders rest out'.
Proof.
  induction bad as [|answer bad IH]; intros rest out Hbad.
  - by exists out.
  - apply Forall_cons in Hbad as [Ha Hbad].
    change ((answer :: bad) ++ rest) with (answer :: (bad ++ rest)).
    destruct (ask_folder_turned_down base folders answer (bad ++ rest) out Ha)
      as [out1 ->].
    by apply IH.
Qed.

Lemma select_folder_ok o base folders answers :
  get_available_folders o base = ok folders →
  select_folder o base answers
  = ask_folder base folders answers (menu base folders).
Proof. intros H. unfold select_folder. by rewrite H. Qed.

(** Property X3.  For answers typed in ASCII characters: [select_folder] asks
    again after every answer that is neither the letter q nor a number of
    the menu, and the first answer that is one decides.  A number [k] of the
    menu returns the [k]-th folder listed, joined to the base path; q in
    either case, blanks around it or not, exits with status 0; and when the
    answers run out before one decides, [input] raises [EOFError]. *)
Theorem select_folder_answers (o : os) (base : string)
    (folders bad : list string) :
  get_available_folders o base = ok folders →
  Forall typed bad →
  Forall (turned_down (length folders)) bad →
  (∀ answer k rest,
     typed answer →
     picks (length folders) answer k →
     ∃ f, folders !! Z.to_nat (k - 1) = Some f
          ∧ (select_folder o base (bad ++ answer :: rest)).2
            = ok (path_join base f))
  ∧ (∀ answer rest,
       typed answer →
       String.eqb (Str.lower (Str.strip answer)) "q" = true →
       (select_folder o base (bad ++ answer :: rest)).2
       = raise (SystemExit 0))
  ∧ (select_folder o base bad).2 = raise EOFError.
Proof.
  intros Hg _ Hbad. rewrite !(select_folder_ok o base folders) by done.
  split_and!.
  - intros answer k rest _ Hpick.
    rewrite (select_folder_ok o base folders) by done.
    destruct (ask_folder_skips base folders bad (answer :: rest)
                (menu base folders) Hbad) as [out' ->].
    by apply ask_folder_picks.
  - intros answer rest _ Hq.
    rewrite (select_folder_ok o base folders) by done.
    destruct (ask_folder_skips base folders bad (answer :: rest)
                (menu base folders) Hbad) as [out' ->].
    cbn [ask_folder]. by rewrite Hq.
  - destruct (ask_folder_skips base folders bad [] (menu base folders) Hbad)
      as [out' E].
    rewrite app_nil_r in E. by rewrite E.
Qed.

Lemma select_folder_answers_witness :
  (select_folder archive_os "/v" ["0"; "two"; "+3"; "1"]).2
  = ok "/v/20250618T1458"
  ∧ (select_folder archive_os "/v" ["0"; "two"; " Q "; "1"]).2
    = raise (SystemExit 0)
  ∧ (select_folder archive_os "/v" ["0"; "two"]).2 = raise EOFError.
Proof.
  destruct (select_folder_answers archive_os "/v"
              ["20250620T0901"; "20250619T2359"; "20250618T1458"]
              ["0"; "two"]) as (Hpick & Hquit & Heof).
  - vm_compute. reflexivity.
  - repeat constructor.
  - repeat constructor; vm_compute; intros [? ?]; done.
  - split_and!.
    + destruct (Hpick "+3" 3 ["1"]) as (f & Hf & Hsel).
      { split; reflexivity. }
      { split_and!; (reflexivity || lia). }
      injection Hf as <-. exact Hsel.
    + apply (Hquit " Q " ["1"]); [split |]; reflexivity.
    + exact Heof.
Defined.

(** ** The session the loop starts from *)

Lemma ceil_sqrt_spec n :
  1 ≤ n →
  1 ≤ ceil_sqrt n
  ∧ (ceil_sqrt n - 1) * (ceil_sqrt n - 1) < n ≤ ceil_sqrt n * ceil_sqrt n.
Proof.
  intros Hn. unfold ceil_sqrt.
  pose proof (Z.sqrt_spec n ltac:(lia)) as [Hlo Hhi].
  pose proof (Z.sqrt_nonneg n) as Hr.
  destruct (Z.eqb_spec (Z.sqrt n * Z.sqrt n) n) as [E|E]; nia.
Qed.


(** Property X4.  The grid [main] computes has a cell for every clip and
    no row without one: with [total >= 1] clips, [cols] is the least number
    whose square reaches [total], and [rows] the least number of rows of
    [cols] cells that hold them all. *)
Theorem startup_grid (o : os) (base : string) (answers : list string)
    (fs : gmap string node) (g : grid) (s : session) :
  startup o base answers fs = inr (g, s) →
  1 ≤ total g
  ∧ total g = Z.of_nat (length (video_info g))
  ∧ 1 ≤ cols g
  ∧ (cols g - 1) * (cols g - 1) < total g ≤ cols g * cols g
  ∧ 1 ≤ rows g
  ∧ (rows g - 1) * cols g < total g ≤ rows g * cols g.
Proof.
  unfold startup.
  destruct (select_folder o base answers) as [out [[]|folder]]; try done.
  cbv beta iota zeta.
  destruct (filter _ (sorted _)) as [|f fs'] eqn:E; [done |].
  rewrite <- E.
  assert (1 ≤ Z.of_nat (length (filter (λ f, is_video f = true)
            (sorted (os_glob o (path_join folder "*.*")))))) as Hn.
  { rewrite E. simpl. lia. }
  clear E. set (n := Z.of_nat _) in *.
  destruct (ceil_sqrt_spec n Hn) as (Hc & Hlo & Hhi).
  unfold floordiv. destruct (Z.eqb_spec (ceil_sqrt n) 0) as [|_]; [lia |].
  intros [= <- <-]. cbn [total cols rows video_info].
  rewrite length_fmap. fold n.
  pose proof (Z.div_mod (n + ceil_sqrt n - 1) (ceil_sqrt n) ltac:(lia)) as Hdm.
  pose proof (Z.mod_pos_bound (n + ceil_sqrt n - 1) (ceil_sqrt n) ltac:(lia)).
  split_and!; try done; nia.
Qed.

Lemma startup_grid_witness :
  ∃ g s, startup five_os "/v" ["1"] ∅ = inr (g, s)
         ∧ total g = 5 ∧ cols g = 3 ∧ rows g = 2.
Proof.
  destruct (startup five_os "/v" ["1"] ∅) as [e|[g s]] eqn:E.
  - vm_compute in E. discriminate E.
  - pose proof (startup_grid _ _ _ _ _ _ E) as (H1 & Ht & Hc & Hcc & Hr & Hrr).
    exists g, s. split; [reflexivity |].
    assert (total g = 5) as H5.
    { vm_compute in E. injection E as <- _. reflexivity. }
    split; [exact H5 |]. split; nia.
Defined.



(** ** The grid and the pointer *)

Lemma div_in_cell w c x : 0 < w → c * w ≤ x < (c + 1) * w → x / w = c.
Proof.
  intros Hw Hx. symmetry. apply (Z.div_unique x w c (x - c * w)); lia.
Qed.

Lemma cut_rows_lookup n w (cells : list cell) : ∀ r c,
  (r < n)%nat → (c < w)%nat →
  cut_rows n w cells !! r ≫= (λ row, row !! c) = cells !! (r * w + c)%nat.
Proof.
  revert cells. induction n as [|n IH]; intros cells r c Hr Hc; [lia |].
  destruct r as [|r]; simpl.
  - by rewrite lookup_take_lt.
  - rewrite IH by lia. rewrite lookup_drop. f_equal. lia.
Qed.

(** Property X6.  The grid and the pointer agree.  For a row [r] and a
    column [c] of the grid, the window shows at that place the frame of clip
    [r * cols + c], or the empty padding when there is no such clip; and a
    click anywhere in the rectangle of that cell, frame or caption, maps to
    the index [r * cols + c] when it is a clip and to nothing when it is
    not. *)
Theorem grid_and_pointer_agree (g : grid) (s : session) (cells : list cell)
    (r c : nat) :
  0 < frame_width g → 0 < frame_height g + 30 →
  Z.of_nat c < cols g → Z.of_nat r < rows g →
  let i := (r * Z.to_nat (cols g) + c)%nat in
  shown_at (composite g s cells) r c = Some (default Filler (cells !! i))
  ∧ ∀ x y,
      in_cell (frame_width g) (frame_height g) (Z.of_nat r) (Z.of_nat c) x y →
      get_clicked_video_index x y (cols g) (rows g) (frame_width g)
        (frame_height g) (total g)
      = ok (if decide (Z.of_nat i < total g) then Some (Z.of_nat i) else None).
Proof.
  intros Hw Hh Hc Hr i. split.
  - unfold shown_at, composite. cbn [grid_rows].
    rewrite cut_rows_lookup by lia. fold i.
    assert (i < Z.to_nat (rows g * cols g))%nat as Hi by (unfold i; nia).
    destruct (cells !! i) as [cl|] eqn:E.
    + by rewrite (lookup_app_l_Some _ _ _ _ E).
    + apply lookup_ge_None in E. rewrite lookup_app_r by done. simpl.
      apply lookup_replicate_2. lia.
  - intros x y [Hx Hy]. unfold get_clicked_video_index, floordiv.
    assert (0 ≤ y) by nia.
    destruct (Z.ltb_spec y 0); [lia |].
    destruct (Z.eqb_spec (frame_width g) 0); [lia |].
    destruct (Z.eqb_spec (frame_height g + 30) 0); [lia |]. simpl.
    rewrite (div_in_cell _ _ _ Hw Hx), (div_in_cell _ _ _ Hh Hy).
    destruct (Z.geb_spec (Z.of_nat c) (cols g)); [lia |].
    destruct (Z.geb_spec (Z.of_nat r) (rows g)); [lia |]. simpl.
    replace (Z.of_nat r * cols g + Z.of_nat c) with (Z.of_nat i)
      by (unfold i; nia).
    destruct (Z.ltb_spec (Z.of_nat i) (total g)).
    + by rewrite decide_True.
    + by rewrite decide_False by lia.
Qed.

Lemma grid_and_pointer_agree_witness :
  let cells := [Labeled Blank "channel1_FOUND" false;
                Labeled (Decoded 0) "channel2_NOT_FOUND" false] in
  shown_at (composite pair_grid pair_session cells) 0 1
  = Some (Labeled (Decoded 0) "channel2_NOT_FOUND" false)
  ∧ get_clicked_video_index 400 250 2 1 320 240 2 = ok (Some 1).
Proof.
  intros cells.
  destruct (grid_and_pointer_agree pair_grid pair_session cells 0 1)
    as [Hshow Hclick]; [reflexivity.. |].
  split; [exact Hshow |].
  apply (Hclick 400 250). unfold in_cell. simpl. lia.
Defined.

(** Property X7.  A click maps to a clip only from inside that clip's
    cell.  When the cells have positive sizes, the grid has at least one
    column and the click is not left of the window, an index returned for
    the click is the index of a clip, [0 <= i < total], and the click lies
    in the cell at row [i // cols], column [i % cols]. *)
Theorem click_inside_cell (x y cols rows fw fh total i : Z) :
  0 < fw → 0 < fh + 30 → 0 < cols → 0 ≤ x →
  get_clicked_video_index x y cols rows fw fh total = ok (Some i) →
  0 ≤ i < total
  ∧ i / cols < rows
  ∧ in_cell fw fh (i / cols) (i mod cols) x y.
Proof.
  intros Hw Hh Hc Hx. unfold get_clicked_video_index, floordiv.
  destruct (Z.ltb_spec y 0); [done |].
  destruct (Z.eqb_spec fw 0); [lia |].
  destruct (Z.eqb_spec (fh + 30) 0); [lia |]. simpl.
  destruct (Z.geb_spec (x / fw) cols); [done |].
  destruct (Z.geb_spec (y / (fh + 30)) rows); [done |]. simpl.
  destruct (Z.ltb_spec (y / (fh + 30) * cols + x / fw) total); [|done].
  intros [= <-].
  pose proof (Z.div_pos x fw Hx Hw) as Hcol.
  pose proof (Z.div_pos y (fh + 30) ltac:(lia) Hh) as Hrow.
  assert ((y / (fh + 30) * cols + x / fw) / cols = y / (fh + 30)) as ->.
  { rewrite Z.add_comm, Z.div_add by lia. rewrite Z.div_small; lia. }
  assert ((y / (fh + 30) * cols + x / fw) mod cols = x / fw) as ->.
  { rewrite Z.add_comm, Z.mod_add by lia. apply Z.mod_small. lia. }
  pose proof (Z.div_mod x fw ltac:(lia)).
  pose proof (Z.mod_pos_bound x fw Hw).
  pose proof (Z.div_mod y (fh + 30) ltac:(lia)).
  pose proof (Z.mod_pos_bound y (fh + 30) Hh).
  unfold in_cell. split_and!; nia.
Qed.

Lemma click_inside_cell_witness :
  0 ≤ 4 < 5 ∧ 4 / 3 < 2 ∧ in_cell 320 240 (4 / 3) (4 mod 3) 330 300.
Proof.
  apply (click_inside_cell 330 300 3 2 320 240 5 4); (lia || reflexivity).
Defined.

Lemma wait_key_click (inp : tick_input) (s : session) :
  click_coords (wait_key inp s).2
  = match last (filter is_left_click (mouse inp)) with
    | Some ev => Some (ev.1.2, ev.2 - 40)
    | None => click_coords s
    end.
Proof.
  unfold wait_key. cbn [snd click_coords set_click].
  generalize (click_coords s). induction (mouse inp) as [|ev evs IH]
    using rev_ind; intros c0; [done |].
  rewrite foldl_app, filter_app. cbn [foldl].
  unfold mouse_callback at 1.
  destruct (Z.eqb_spec ev.1.1 EVENT_LBUTTONDOWN) as [E|E].
  - rewrite (filter_cons_True _ ev []) by done.
    by rewrite filter_nil, last_snoc.
  - rewrite (filter_cons_False _ ev []) by done.
    rewrite filter_nil, app_nil_r. apply IH.
Qed.

(** Property X8.  Of the pointer events that arrive while [waitKey] waits,
    only the last left-button press is kept, with the height of the status
    bar taken off its [y]; when none arrives, the click already buffered
    stays.  The key is the low byte of what [waitKey] returns. *)
Theorem wait_key_keeps_last_click (inp : tick_input) (s : session) :
  click_coords (wait_key inp s).2
  = match last (filter is_left_click (mouse inp)) with
    | Some ev => Some (ev.1.2, ev.2 - 40)
    | None => click_coords s
    end
  ∧ 0 ≤ (wait_key inp s).1 < 256.
Proof.
  split; [apply wait_key_click |].
  unfold wait_key. cbn [fst].
  change 255 with (Z.ones 8). rewrite Z.land_ones by lia.
  apply Z.mod_pos_bound. lia.
Qed.

(** ** What can end a pass with an exception *)









(** ** What a session does to the log *)

(** What the key can do to the files and to the selection. *)
Lemma on_key_files key s :
  files (state_of (on_key key s)) = files s
  ∨ ∃ p manual,
      pending_classification s = Some p ∧ confirms key manual
      ∧ files s !! default_csv ≠ Some Directory
      ∧ files (state_of (on_key key s))
        = <[default_csv :=
              File (log_rows (files s)
                    ++ (if isfile (files s) default_csv then []
                        else [fieldnames])
                    ++ [[p_original_name p; p_model_status p; manual]])]>
            (files s).
Proof.
  unfold on_key.
  destruct ((key =? ord "q") || (key =? ord "Q")); [by left |].
  destruct (key =? ord " "); [by left |].
  destruct ((key =? ord "r") || (key =? ord "R")).
  { destruct (rewind_all_videos _ _) as [?|[? ?]]; by left. }
  destruct (pending_classification s) as [p|]; [|by left].
  assert (∀ manual, confirms key manual →
            files (state_of (classify manual p s)) = files s
            ∨ ∃ p0 manual0,
                Some p = Some p0 ∧ confirms key manual0
                ∧ files s !! default_csv ≠ Some Directory
                ∧ files (state_of (classify manual p s))
                  = <[default_csv :=
                        File (log_rows (files s)
                              ++ (if isfile (files s) default_csv then []
                                  else [fieldnames])
                              ++ [[p_original_name p0; p_model_status p0;
                                   manual0]])]> (files s)) as Hclassify.
  { intros manual Hm. unfold classify, save_to_csv, open_append, log_rows,
      isfile.
    destruct (files s !! default_csv) as [[|rows]|] eqn:E;
      unfold bind, raise, ok; cbv beta iota zeta; [by left | |];
      right; exists p, manual; by split_and!. }
  destruct ((key =? ord "t") || (key =? ord "T")) eqn:Ht.
  { apply Hclassify. left. split; [|done].
    apply orb_true_iff in Ht as [?%Z.eqb_eq | ?%Z.eqb_eq]; auto. }
  destruct ((key =? ord "f") || (key =? ord "F")) eqn:Hf.
  { apply Hclassify. right. split; [|done].
    apply orb_true_iff in Hf as [?%Z.eqb_eq | ?%Z.eqb_eq]; auto. }
  destruct (key =? 27); by left.
Qed.

Lemma tick_files g inp s :
  files (state_of (tick g inp s)) = files s
  ∨ ∃ p manual,
      pending_classification s = Some p
      ∧ confirms (Z.land (key_code inp) 255) manual
      ∧ files s !! default_csv ≠ Some Directory
      ∧ files (state_of (tick g inp s))
        = <[default_csv :=
              File (log_rows (files s)
                    ++ (if isfile (files s) default_csv then []
                        else [fieldnames])
                    ++ [[p_original_name p; p_model_status p; manual]])]>
            (files s).
Proof.
  unfold tick. destruct (advance g s) as [e|[s1 cells]] eqn:Hadv; [by left |].
  assert (files s1 = files s ∧ pending_classification s1
                               = pending_classification s) as [Hf Hp].
  { revert Hadv. unfold advance.
    destruct (frame_loop _ _ _ _ _) as [?|[[? ?] ?]]; [done |]. simpl.
    destruct (if _ : bool then _ else _) as [?|[? ?]]; [done |]. simpl.
    by intros [= <- _]. }
  unfold wait_key. cbv beta iota zeta.
  set (key := Z.land (key_code inp) 255). set (s3 := set_click _ _).
  assert (files s3 = files s ∧ pending_classification s3
                               = pending_classification s) as [Hf3 Hp3]
    by done.
  assert (files (state_of match on_key key s3 with
                          | Continue s4 => on_click g s4
                          | Break s0 => Break s0
                          | Raised e s0 => Raised e s0
                          end) = files (state_of (on_key key s3))) as ->.
  { destruct (on_key key s3) as [s4|s4|e4 s4]; try done.
    by destruct (on_click_keeps g s4) as (_ & _ & _ & ->). }
  destruct (on_key_files key s3) as [->|(p & manual & H1 & H2 & H3 & ->)].
  - by left.
  - right. exists p, manual. rewrite <- Hp3, <- Hf3. by split_and!.
Qed.

(** Property X10.  A pass writes to the log only to record a decision:
    when the files differ after a pass, a selection was pending at its
    start, the key was T, t, F or f, and the log gained exactly the row of
    that selection with the manual status of the key, after the header when
    there was no log.  Quitting, pausing, rewinding, cancelling, any other
    key and any click write nothing. *)
Theorem pass_writes_only_a_decision (g : grid) (inp : tick_input)
    (s : session) :
  files (state_of (tick g inp s)) ≠ files s →
  ∃ p manual,
    pending_classification s = Some p
    ∧ confirms (Z.land (key_code inp) 255) manual
    ∧ log_rows (files (state_of (tick g inp s)))
      = log_rows (files s)
        ++ (if isfile (files s) default_csv then [] else [fieldnames])
        ++ [[p_original_name p; p_model_status p; manual]]
    ∧ ∀ path, path ≠ default_csv →
        files (state_of (tick g inp s)) !! path = files s !! path.
Proof.
  intros Hdiff.
  destruct (tick_files g inp s) as [E|(p & manual & Hp & Hk & _ & E)];
    [done |].
  exists p, manual. rewrite E. split_and!; try done.
  - unfold log_rows at 1. by rewrite lookup_insert_eq.
  - intros path Hpath. by rewrite lookup_insert_ne.
Qed.

Lemma pass_writes_only_a_decision_witness :
  let s := state_of (tick pair_grid (left_click 330 50) pair_session) in
  ∃ p manual,
    pending_classification s = Some p
    ∧ confirms (Z.land (key_code (press "f")) 255) manual
    ∧ log_rows (files (state_of (tick pair_grid (press "f") s)))
      = log_rows (files s)
        ++ (if isfile (files s) default_csv then [] else [fieldnames])
        ++ [[p_original_name p; p_model_status p; manual]]
    ∧ ∀ path, path ≠ default_csv →
        files (state_of (tick pair_grid (press "f") s)) !! path
        = files s !! path.
Proof.
  intros s. apply (pass_writes_only_a_decision pair_grid (press "f") s).
  intros E. apply (f_equal (λ m, m !! default_csv)) in E.
  vm_compute in E. discriminate E.
Defined.

(** The selection after a pass is the one before it, none, or one of a clip
    of the grid. *)
Lemma py_index_elem_of {A} (l : list A) i a : py_index l i = ok a → a ∈ l.
Proof.
  unfold py_index, py_get.
  destruct (0 <=? i); [|destruct (_ <=? i); [|done]];
    destruct (l !! _) eqn:E; try done;
    intros [= <-]; by eapply list_elem_of_lookup_2.
Qed.

Lemma on_click_pending g s p :
  pending_classification (state_of (on_click g s)) = Some p →
  pending_classification s = Some p ∨ of_grid g p.
Proof.
  unfold on_click.
  destruct (click_coords s) as [[x y]|], (pending_classification s) eqn:Hp;
    simpl; try (rewrite ?Hp; by auto).
  destruct (get_clicked_video_index _ _ _ _ _ _ _) as [e|[idx|]]; simpl;
    try (rewrite ?Hp; by auto).
  destruct (idx <? _); simpl; [|rewrite ?Hp; by auto].
  destruct (py_index _ _) as [e|inf] eqn:E; simpl; [rewrite ?Hp; by auto |].
  intros [= <-]. right. exists inf. split; [|done].
  by apply (py_index_elem_of _ idx).
Qed.

Lemma on_key_pending key s p :
  pending_classification (state_of (on_key key s)) = Some p →
  pending_classification s = Some p.
Proof.
  unfold on_key.
  destruct ((key =? ord "q") || (key =? ord "Q")); [done |].
  destruct (key =? ord " "); [done |].
  destruct ((key =? ord "r") || (key =? ord "R")).
  { by destruct (rewind_all_videos _ _) as [?|[? ?]]. }
  destruct (pending_classification s) as [p0|] eqn:Hp;
    [|simpl; by rewrite Hp].
  assert (∀ manual,
            pending_classification (state_of (classify manual p0 s)) = Some p
            → Some p0 = Some p) as Hclassify.
  { intros manual. unfold classify.
    destruct (save_to_csv _ _ _ _ _) as [e|[fs msg]]; simpl; [|done].
    by rewrite Hp. }
  destruct ((key =? ord "t") || (key =? ord "T")); [apply Hclassify |].
  destruct ((key =? ord "f") || (key =? ord "F")); [apply Hclassify |].
  destruct (key =? 27); simpl; [done | by rewrite Hp].
Qed.

Lemma tick_pending g inp s p :
  pending_classification (state_of (tick g inp s)) = Some p →
  pending_classification s = Some p ∨ of_grid g p.
Proof.
  unfold tick. destruct (advance g s) as [e|[s1 cells]] eqn:Hadv; [by left |].
  assert (pending_classification s1 = pending_classification s) as Hp.
  { revert Hadv. unfold advance.
    destruct (frame_loop _ _ _ _ _) as [?|[[? ?] ?]]; [done |]. simpl.
    destruct (if _ : bool then _ else _) as [?|[? ?]]; [done |]. simpl.
    by intros [= <- _]. }
  unfold wait_key. cbv beta iota zeta.
  set (key := Z.land (key_code inp) 255). set (s3 := set_click _ _).
  assert (pending_classification s3 = pending_classification s) as Hp3
    by done.
  rewrite <- Hp3.
  destruct (on_key key s3) as [s4|s4|e4 s4] eqn:Hk.
  - intros [H|H]%on_click_pending; [|by right]. left.
    apply (on_key_pending key). by rewrite Hk.
  - intros H. left. apply (on_key_pending key). by rewrite Hk.
  - intros H. left. apply (on_key_pending key). by rewrite Hk.
Qed.

(** The log of a run is append-only, and no other path is touched. *)
Lemma main_loop_files (g : grid) (inputs : list tick_input) : ∀ s : session,
  log_rows (files s) `prefix_of`
    log_rows (files (state_of (main_loop g inputs s)))
  ∧ ∀ path, path ≠ default_csv →
      files (state_of (main_loop g inputs s)) !! path = files s !! path.
Proof.
  induction inputs as [|inp inputs IH]; intros s; [done |].
  assert (log_rows (files s) `prefix_of`
            log_rows (files (state_of (tick g inp s)))
          ∧ ∀ path, path ≠ default_csv →
              files (state_of (tick g inp s)) !! path = files s !! path)
    as [Hpre Hother].
  { destruct (tick_files g inp s) as [->|(p & manual & _ & _ & _ & ->)];
      [done |].
    split.
    - unfold log_rows at 2. rewrite lookup_insert_eq. by eexists.
    - intros path Hpath. by rewrite lookup_insert_ne. }
  cbn [main_loop].
  destruct (tick g inp s) as [s1|s1|e s1]; try done.
  destruct (IH s1) as [Hpre1 Hother1]. split.
  - by etrans.
  - intros path Hpath. rewrite Hother1 by done. by apply Hother.
Qed.

Lemma append_all_snoc (records : list (string * string * string))
    (a b c f : string) : ∀ (fs0 fs fs' : gmap string node) (msg : string),
  append_all records f fs0 = ok fs →
  save_to_csv a b c f fs = ok (fs', msg) →
  append_all (records ++ [(a, b, c)]) f fs0 = ok fs'.
Proof.
  induction records as [|r records IH]; intros fs0 fs fs' msg.
  - intros [= ->] Hsave. simpl. by rewrite Hsave.
  - simpl. destruct (save_to_csv _ _ _ f fs0) as [e|[fs1 msg1]]; [done |].
    simpl. apply IH.
Qed.

(** A pass on a log that the program wrote leaves one that it wrote: it
    logs no decision, or the one on the selection pending. *)
Lemma tick_logged (g : grid) (inp : tick_input) (s : session)
    (records : list (string * string * string)) :
  logged (files s) records →
  ∃ new,
    (length new ≤ 1)%nat
    ∧ logged (files (state_of (tick g inp s))) (records ++ new)
    ∧ ∀ r, r ∈ new →
        ∃ p manual,
          pending_classification s = Some p
          ∧ (manual = "FOUND" ∨ manual = "NOT_FOUND")
          ∧ r = (p_original_name p, p_model_status p, manual).
Proof.
  intros (fs0 & Hnew & Happ).
  destruct (tick_files g inp s) as [->|(p & manual & Hp & Hk & Hdir & ->)].
  { exists []. rewrite app_nil_r. split_and!; [simpl; lia | by exists fs0 |].
    by intros r ?%elem_of_nil. }
  exists [(p_original_name p, p_model_status p, manual)]. split_and!.
  - simpl. lia.
  - exists fs0. split; [done |].
    apply (append_all_snoc _ _ _ _ _ _ (files s) _
             (saved_message (p_original_name p) (p_model_status p) manual));
      [done |].
    unfold save_to_csv, open_append, log_rows, isfile.
    by destruct (files s !! default_csv) as [[|rows]|].
  - intros r ->%list_elem_of_singleton. exists p, manual.
    split_and!; [done | | done].
    destruct Hk as [[_ ->]|[_ ->]]; auto.
Qed.

Lemma main_loop_logged (g : grid) (sel : pending → Prop)
    (inputs : list tick_input) :
  (∀ p, of_grid g p → sel p) →
  ∀ (s : session) (records : list (string * string * string)),
  (∀ p, pending_classification s = Some p → sel p) →
  logged (files s) records →
  ∃ new,
    (length new ≤ length inputs)%nat
    ∧ logged (files (state_of (main_loop g inputs s))) (records ++ new)
    ∧ ∀ r, r ∈ new →
        ∃ p manual,
          sel p ∧ (manual = "FOUND" ∨ manual = "NOT_FOUND")
          ∧ r = (p_original_name p, p_model_status p, manual).
Proof.
  intros Hgrid. induction inputs as [|inp inputs IH]; intros s records Hsel Hlog.
  { exists []. rewrite app_nil_r. split_and!; [done | done |].
    by intros r ?%elem_of_nil. }
  destruct (tick_logged g inp s records Hlog) as (new1 & Hlen1 & Hlog1 & Hnew1).
  assert (∀ r, r ∈ new1 →
            ∃ p manual,
              sel p ∧ (manual = "FOUND" ∨ manual = "NOT_FOUND")
              ∧ r = (p_original_name p, p_model_status p, manual)) as Hnew1'.
  { intros r (p & manual & Hp & Hm & ->)%Hnew1. exists p, manual. auto. }
  cbn [main_loop length].
  destruct (tick g inp s) as [s1|s1|e s1] eqn:Ht;
    try (exists new1; split_and!; [lia | done | done]).
  destruct (IH s1 (records ++ new1)) as (new2 & Hlen2 & Hlog2 & Hnew2);
    [|done |].
  { intros p Hp.
    destruct (tick_pending g inp s p) as [H|H]; [by rewrite Ht | auto | auto]. }
  exists (new1 ++ new2). rewrite length_app, app_assoc. split_and!;
    [lia | done |].
  intros r [?|?]%elem_of_app; auto.
Qed.

(** Property X11.  On a log that the program wrote, or with no log yet,
    the log is append-only over any run of the loop: at the end it is the
    log of the same decisions followed by those of the run, at most one per
    pass, so that the rows it held at the start are still its first rows,
    in the same order; and no other path of the directory is touched. *)
Theorem log_is_append_only (g : grid) (inputs : list tick_input)
    (s : session) (records : list (string * string * string)) :
  logged (files s) records →
  let s' := state_of (main_loop g inputs s) in
  ∃ new,
    (length new ≤ length inputs)%nat
    ∧ logged (files s') (records ++ new)
    ∧ log_rows (files s) `prefix_of` log_rows (files s')
    ∧ ∀ path, path ≠ default_csv → files s' !! path = files s !! path.
Proof.
  intros Hlog s'.
  destruct (main_loop_logged g (λ _, True) inputs) with (s := s)
    (records := records) as (new & Hlen & Hlog' & _); try done.
  destruct (main_loop_files g inputs s) as [Hpre Hother].
  by exists new.
Qed.

Lemma log_is_append_only_witness :
  let s := state_of (main_loop pair_grid (take 2 two_decisions) pair_session) in
  let s' := state_of (main_loop pair_grid (drop 2 two_decisions) s) in
  ∃ new,
    (length new ≤ 2)%nat
    ∧ logged (files s') ([("channel1_2T3", "FOUND", "FOUND")] ++ new)
    ∧ log_rows (files s) `prefix_of` log_rows (files s')
    ∧ ∀ path, path ≠ default_csv → files s' !! path = files s !! path.
Proof.
  intros s.
  apply (log_is_append_only pair_grid (drop 2 two_decisions) s
           [("channel1_2T3", "FOUND", "FOUND")]).
  exists ∅. split; reflexivity.
Defined.

Lemma append_all_new (r : string * string * string)
    (records : list (string * string * string)) (f : string)
    (fs : gmap string node) :
  fs !! f = None →
  append_all (r :: records) f fs
  = ok (<[f := File (fieldnames :: (record_row <$> r :: records))]> fs).
Proof.
  intros Hnew. destruct r as [[a b] c]. simpl.
  rewrite (save_to_csv_new _ _ _ _ _ Hnew). simpl.
  rewrite (append_all_file _ _ f [fieldnames; [a; b; c]])
    by apply lookup_insert_eq.
  by rewrite insert_insert_eq.
Qed.

Lemma logged_holds_log (fs : gmap string node)
    (records : list (string * string * string)) :
  logged fs records → holds_log fs (record_row <$> records).
Proof.
  intros (fs0 & Hnew & Happ). destruct records as [|r records].
  - injection Happ as <-. by left.
  - rewrite append_all_new in Happ by done. injection Happ as <-.
    right. by rewrite lookup_insert_eq.
Qed.

Lemma print_summary_holds_log fs data :
  holds_log fs data → Forall (λ r : list string, (3 ≤ length r)%nat) data →
  print_summary default_csv fs = summary_of default_csv data.
Proof.
  unfold print_summary, path_exists, open_read, ok.
  intros [[-> ->]| ->] Hrows; [done |]. cbv beta iota zeta.
  rewrite dict_reader_log by done.
  destruct data as [|r data]; [done |].
  rewrite count_agreements_log by done.
  unfold summary_of, summary_counts. rewrite !length_fmap.
  destruct (decide _) as [|Hn]; [done |]. simpl in Hn. lia.
Qed.

(** Property X12.  The log a session keeps is read back as it was written.
    When the names and the statuses of the clips are plain text and the
    loop starts with no log, or with the log of plain decisions that the
    program wrote before, then however the loop runs and ends, the log is
    that of the same decisions followed by those of the run: each one is
    about a clip of the grid, with the manual status FOUND or NOT_FOUND,
    and there is at most one per pass.  The closing block prints the
    summary of exactly these rows: their number, the number of those whose
    two statuses are equal, and the rate. *)
Theorem session_log_reads_back (g : grid) (inputs : list tick_input)
    (s : session) (records : list (string * string * string)) :
  (∀ p, pending_classification s = Some p → of_grid g p) →
  plain_grid g →
  logged (files s) records → Forall plain_record records →
  Z.of_nat (length records + length inputs) < 2 ^ 53 →
  let s' := state_of (main_loop g inputs s) in
  ∃ new,
    (length new ≤ length inputs)%nat
    ∧ Forall (decision g) new
    ∧ logged (files s') (records ++ new)
    ∧ stdout (finally s')
      = stdout s' ++ summary_of default_csv (record_row <$> records ++ new).
Proof.
  intros Hsel _ Hlog _ _ s'.
  destruct (main_loop_logged g (of_grid g) inputs) with (s := s)
    (records := records) as (new & Hlen & Hlog' & Hnew); try done.
  exists new. split_and!; try done.
  - apply Forall_forall. intros r (p & manual & Hp & Hm & ->)%Hnew.
    destruct Hp as (inf & Hinf & -> & ->). by exists inf, manual.
  - cbn [finally stdout]. f_equal.
    apply print_summary_holds_log; [by apply logged_holds_log |].
    apply Forall_fmap, Forall_forall. intros [[a b] c] _. simpl. lia.
Qed.

Lemma session_log_reads_back_witness :
  let s' := state_of (main_loop pair_grid two_decisions pair_session) in
  ∃ new,
    (length new ≤ length two_decisions)%nat
    ∧ Forall (decision pair_grid) new
    ∧ logged (files s') ([] ++ new)
    ∧ stdout (finally s')
      = stdout s' ++ summary_of default_csv (record_row <$> [] ++ new).
Proof.
  apply (session_log_reads_back pair_grid two_decisions pair_session []).
  - intros p Hp. vm_compute in Hp. discriminate Hp.
  - repeat constructor.
  - exists ∅. split; reflexivity.
  - constructor.
  - simpl. lia.
Defined.



(** ** Passes while playing *)

Lemma play_clip_playing d cap :
  play_clip false d cap
  = (if d then cap else (cap_read cap).2, negb d && negb (can_read cap),
     played_frame d cap).
Proof.
  unfold play_clip, played_frame, can_read, cap_read.
  destruct d; [done |]. simpl.
  by destruct (is_opened cap && bool_decide (pos_frames cap < frame_count cap)%nat).
Qed.

Lemma cap_read_ended cap : can_read cap = false → (cap_read cap).2 = cap.
Proof. unfold can_read, cap_read. by intros ->. Qed.

Lemma run_over_lookup (cs : list VideoCapture) (done : list bool) :
  run_over cs done = true
  ↔ ∀ i cap d, cs !! i = Some cap → done !! i = Some d →
               d || negb (can_read cap) = true.
Proof.
  unfold run_over. rewrite forallb_forall. split.
  - intros H i cap d Hc Hd. apply (H (cap, d)). apply list_elem_of_In.
    apply (list_elem_of_lookup_2 _ i). apply lookup_zip_with_Some.
    by exists cap, d.
  - intros H [cap d] Hin.
    apply list_elem_of_In, list_elem_of_lookup in Hin as [i Hi].
    apply lookup_zip_with_Some in Hi as (cap' & d' & [= <- <-] & Hc & Hd).
    by apply (H i).
Qed.

Lemma advance_playing g s :
  well_formed g s → paused s = false →
  ∃ s1 cells,
    advance g s = ok (s1, cells)
    ∧ (∀ i (cap : VideoCapture) (d : bool) (inf : info),
         caps s !! i = Some cap → video_done s !! i = Some d →
         video_info g !! i = Some inf →
         cells !! i
         = Some (Labeled (played_frame d cap) (label inf)
                         (highlighted (pending_classification s) i)))
    ∧ (run_over (caps s) (video_done s) = false →
       ∀ i (cap : VideoCapture) (d : bool),
         caps s !! i = Some cap → video_done s !! i = Some d →
         caps s1 !! i = Some (if d then cap else (cap_read cap).2)
         ∧ video_done s1 !! i = Some (d || negb (can_read cap)))
    ∧ (run_over (caps s) (video_done s) = true →
       ∀ i (cap : VideoCapture),
         caps s !! i = Some cap →
         caps s1 !! i = Some (cap_set_pos cap 0)
         ∧ video_done s1 !! i = Some false).
Proof.
  intros Hwf Hp. pose proof Hwf as [Hi Hd].
  destruct (advance_spec g s Hwf)
    as (cs & done & cells & cs' & done' & Hadv & Hlc & Hld & ? & ? & ?
        & Hclip & Hno & Hre).
  rewrite Hp in Hclip, Hno, Hre. rewrite andb_true_r in Hno, Hre.
  assert (∀ i (cap : VideoCapture) (d : bool),
            caps s !! i = Some cap → video_done s !! i = Some d →
            cs !! i = Some (if d then cap else (cap_read cap).2)
            ∧ done !! i = Some (d || negb (can_read cap))) as Hloop.
  { intros i cap d Hc Hdi.
    destruct (lookup_lt_is_Some_2 (video_info g) i) as [inf Hinf].
    { apply lookup_lt_Some in Hc. lia. }
    destruct (Hclip i cap d inf Hc Hdi Hinf) as (-> & -> & _).
    unfold clip_after, flag_after. rewrite play_clip_playing. simpl.
    split; [done |]. by destruct d. }
  assert (all_done done = run_over (caps s) (video_done s)) as Hall.
  { destruct (run_over (caps s) (video_done s)) eqn:Hrun.
    - apply all_done_lookup. intros i d Hdi.
      destruct (lookup_lt_is_Some_2 (caps s) i) as [cap Hc].
      { apply lookup_lt_Some in Hdi. lia. }
      destruct (lookup_lt_is_Some_2 (video_done s) i) as [d0 Hd0].
      { apply lookup_lt_Some in Hc. lia. }
      destruct (Hloop i cap d0 Hc Hd0) as [_ E]. rewrite E in Hdi.
      injection Hdi as <-.
      by apply (proj1 (run_over_lookup _ _) Hrun i).
    - destruct (all_done done) eqn:Hdone; [|done].
      rewrite <- Hrun. symmetry. apply run_over_lookup.
      intros i cap d Hc Hdi. destruct (Hloop i cap d Hc Hdi) as [_ E].
      by apply (proj1 (all_done_lookup _) Hdone i). }
  rewrite Hall in Hno, Hre.
  eexists _, cells. split; [exact Hadv |]. cbn [caps video_done set_playback].
  split_and!.
  - intros i cap d inf Hc Hdi Hinf.
    destruct (Hclip i cap d inf Hc Hdi Hinf) as (_ & _ & ->).
    unfold frame_of. by rewrite play_clip_playing.
  - intros Hrun. destruct (Hno Hrun) as [-> ->]. exact Hloop.
  - intros Hrun i cap Hc.
    destruct (lookup_lt_is_Some_2 (video_done s) i) as [d Hdi].
    { apply lookup_lt_Some in Hc. lia. }
    destruct (Hloop i cap d Hc Hdi) as [Hcs _].
    pose proof (proj1 (run_over_lookup _ _) Hrun i cap d Hc Hdi) as Hend.
    assert ((if d then cap else (cap_read cap).2) = cap) as Hsame.
    { destruct d; [done |]. apply cap_read_ended.
      simpl in Hend. by apply negb_true_iff. }
    rewrite Hsame in Hcs. by apply (Hre Hrun).
Qed.

(** The key and the click leave the window as [imshow] left it. *)
Lemma on_click_window g s : window (state_of (on_click g s)) = window s.
Proof.
  unfold on_click.
  destruct (click_coords s) as [[x y]|], (pending_classification s);
    try done.
  destruct (get_clicked_video_index _ _ _ _ _ _ _) as [e|[idx|]]; try done.
  destruct (idx <? _); [|done].
  by destruct (py_index _ _).
Qed.

Lemma on_key_window key s : window (state_of (on_key key s)) = window s.
Proof.
  unfold on_key.
  destruct ((key =? ord "q") || (key =? ord "Q")); [done |].
  destruct (key =? ord " "); [done |].
  destruct ((key =? ord "r") || (key =? ord "R")).
  { by destruct (rewind_all_videos _ _) as [?|[? ?]]. }
  destruct (pending_classification s) as [p|]; [|done].
  assert (∀ manual, window (state_of (classify manual p s)) = window s)
    as Hclassify.
  { intros manual. unfold classify.
    by destruct (save_to_csv _ _ _ _ _) as [e|[fs msg]]. }
  destruct ((key =? ord "t") || (key =? ord "T")); [apply Hclassify |].
  destruct ((key =? ord "f") || (key =? ord "F")); [apply Hclassify |].
  by destruct (key =? 27).
Qed.

Lemma tick_window g inp s s1 cells :
  advance g s = ok (s1, cells) →
  window (state_of (tick g inp s)) = Window (Some (composite g s1 cells)).
Proof.
  intros Hadv. rewrite (tick_after_advance _ _ _ _ _ Hadv).
  destruct (on_key _ _) as [s4|s4|e s4] eqn:Hk.
  - rewrite on_click_window.
    change s4 with (state_of (Continue s4)). rewrite <- Hk.
    by rewrite on_key_window.
  - rewrite <- Hk. by rewrite on_key_window.
  - rewrite <- Hk. by rewrite on_key_window.
Qed.

Lemma playing_pass_well_formed (g : grid) (inp : tick_input) (s : session) :
  well_formed g s → paused s = false → is_rewind inp = false →
  let s' := state_of (tick g inp s) in
  ∃ s1 cells,
    advance g s = ok (s1, cells)
    ∧ window s' = Window (Some (composite g s1 cells))
    ∧ (∀ i (cap : VideoCapture) (d : bool) (inf : info),
         caps s !! i = Some cap → video_done s !! i = Some d →
         video_info g !! i = Some inf →
         cells !! i
         = Some (Labeled (played_frame d cap) (label inf)
                         (highlighted (pending_classification s) i)))
    ∧ (run_over (caps s) (video_done s) = false →
       ∀ i (cap : VideoCapture) (d : bool),
         caps s !! i = Some cap → video_done s !! i = Some d →
         caps s' !! i = Some (if d then cap else (cap_read cap).2)
         ∧ video_done s' !! i = Some (d || negb (can_read cap)))
    ∧ (run_over (caps s) (video_done s) = true →
       ∀ i (cap : VideoCapture),
         caps s !! i = Some cap →
         caps s' !! i = Some (cap_set_pos cap 0)
         ∧ video_done s' !! i = Some false).
Proof.
  intros Hwf Hp Hr s'.
  destruct (advance_playing g s Hwf Hp)
    as (s1 & cells & Hadv & Hcells & Hno & Hre).
  destruct (tick_playback g inp s Hwf)
    as (s1' & cells' & Hadv' & _ & _ & _ & _ & Hkeep & _).
  rewrite Hadv in Hadv'. injection Hadv' as <- <-.
  destruct (Hkeep Hr) as [Ec Ed]. unfold s'. rewrite Ec, Ed.
  exists s1, cells. split_and!; try done. by apply tick_window.
Qed.

(** *** A pass over any capture *)

Section AnyCapture.
Context {C P : Type}.
Context (read : C → option nat * C) (get_pos : C → P)
        (set_pos : C → P → C) (zero : P).

Lemma play_clip_any d (cap : C) :
  Player.play_clip read get_pos set_pos false d cap
  = (if d then cap else (read cap).2, negb d && read_fails read cap,
     shown read d cap).
Proof.
  unfold Player.play_clip, shown, read_fails.
  destruct d; [done |]. simpl.
  by destruct (read cap) as [[n|] cap'].
Qed.

Lemma frame_loop_any pend (items : list (C * info)) : ∀ i done,
  (i + length items ≤ length done)%nat →
  ∃ cs done' cells,
    Player.frame_loop read get_pos set_pos false pend i items done
    = ok (cs, done', cells)
    ∧ length cs = length items ∧ length cells = length items
    ∧ length done' = length done
    ∧ (∀ k, (k < i ∨ i + length items ≤ k)%nat → done' !! k = done !! k)
    ∧ (∀ j (cap : C) (inf : info) (d : bool),
         items !! j = Some (cap, inf) → done !! (i + j)%nat = Some d →
         cs !! j = Some (if d then cap else (read cap).2)
         ∧ done' !! (i + j)%nat = Some (d || read_fails read cap)
         ∧ cells !! j = Some (Labeled (shown read d cap) (label inf)
                                      (highlighted pend (i + j)))).
Proof.
  induction items as [|[cap inf] items IH]; intros i done Hlen;
    cbn [Player.frame_loop length] in *.
  - exists [], done, []. split_and!; done.
  - destruct (lookup_lt_is_Some_2 done i) as [d Hd]; [lia |].
    rewrite (py_get_lookup _ _ _ Hd), bind_ok, play_clip_any.
    set (mark := negb d && read_fails read cap).
    set (done1 := if mark then <[i := true]> done else done).
    assert (length done1 = length done) as Hlen1.
    { unfold done1. destruct mark; [apply length_insert | done]. }
    assert ((if mark then py_set done i true else ok done) = ok done1) as ->.
    { unfold done1. destruct mark; [apply py_set_lt; lia | done]. }
    rewrite bind_ok.
    destruct (IH (S i) done1)
      as (cs & done' & cells & -> & ? & ? & ? & Hout & Hin); [lia |].
    rewrite bind_ok. eexists _, _, _. split; [done |].
    split_and!; simpl; try congruence.
    + intros k Hk. rewrite Hout by lia. unfold done1.
      destruct mark; [|done]. apply list_lookup_insert_ne. lia.
    + intros j cap0 inf0 d0 Hj Hd0. destruct j as [|j]; simpl in *.
      * rewrite Nat.add_0_r in *. injection Hj as <- <-.
        rewrite Hd in Hd0. injection Hd0 as <-.
        split_and!; [done | | by unfold highlighted].
        rewrite Hout by lia. unfold done1, mark.
        destruct d, (read_fails read cap); simpl; try done;
          apply list_lookup_insert_eq; lia.
      * replace (i + S j)%nat with (S i + j)%nat in * by lia.
        apply Hin; [done |]. unfold done1. destruct mark; [|done].
        rewrite list_lookup_insert_ne by lia. done.
Qed.

Lemma restart_loop_any (cs : list C) : ∀ i (done : list bool),
  (i + length cs ≤ length done)%nat →
  ∃ (cs' : list C) (done' : list bool),
    Player.restart_loop set_pos zero i cs done = ok (cs', done')
    ∧ length cs' = length cs ∧ length done' = length done
    ∧ (∀ k, (k < i ∨ i + length cs ≤ k)%nat → done' !! k = done !! k)
    ∧ (∀ j (cap : C) (d : bool),
         cs !! j = Some cap → done !! (i + j)%nat = Some d →
         cs' !! j = Some (if d then set_pos cap zero else cap)
         ∧ done' !! (i + j)%nat = Some false).
Proof.
  induction cs as [|cap cs IH]; intros i done Hlen;
    cbn [Player.restart_loop length] in *.
  - exists [], done. split_and!; done.
  - destruct (lookup_lt_is_Some_2 done i) as [d Hd]; [lia |].
    rewrite (py_get_lookup _ _ _ Hd), bind_ok.
    set (cap1 := if d then set_pos cap zero else cap).
    set (done1 := if d then <[i := false]> done else done).
    assert (length done1 = length done) as Hlen1.
    { unfold done1. destruct d; [apply length_insert | done]. }
    assert (done1 !! i = Some false) as Hi.
    { unfold done1. destruct d; [|done].
      apply list_lookup_insert_eq. lia. }
    assert (∀ k, k ≠ i → done1 !! k = done !! k) as Hother.
    { intros k Hk. unfold done1. destruct d; [|done].
      by apply list_lookup_insert_ne. }
    assert ((if d
             then bind (py_set done i false)
                    (λ done1, ok (set_pos cap zero, done1))
             else ok (cap, done)) = ok (cap1, done1)) as ->.
    { unfold cap1, done1. destruct d; [|done].
      by rewrite py_set_lt by lia. }
    rewrite bind_ok. simpl.
    destruct (IH (S i) done1) as (cs' & done' & -> & ? & ? & Hout & Hin);
      [lia |].
    rewrite bind_ok. simpl. eexists _, _. split; [done |].
    split_and!; simpl; try congruence.
    + intros k Hk. rewrite Hout by lia. apply Hother. lia.
    + intros j cap0 d0 Hj Hd0. destruct j as [|j]; simpl in *.
      * rewrite Nat.add_0_r in *. injection Hj as <-.
        rewrite Hd in Hd0. injection Hd0 as <-.
        split; [done |]. by rewrite Hout by lia.
      * replace (i + S j)%nat with (S i + j)%nat in * by lia.
        apply Hin; [done |]. rewrite Hother by lia. done.
Qed.

Lemma all_ended_lookup (caps : list C) (done : list bool) :
  all_ended read caps done = true
  ↔ ∀ (i : nat) (cap : C) (d : bool),
      caps !! i = Some cap → done !! i = Some d →
      d || read_fails read cap = true.
Proof.
  unfold all_ended. rewrite forallb_forall. split.
  - intros H i cap d Hc Hd. apply (H (cap, d)). apply list_elem_of_In.
    apply (list_elem_of_lookup_2 _ i). apply lookup_zip_with_Some.
    by exists cap, d.
  - intros H [cap d] Hin.
    apply list_elem_of_In, list_elem_of_lookup in Hin as [i Hi].
    apply lookup_zip_with_Some in Hi as (cap' & d' & [= <- <-] & Hc & Hd).
    by apply (H i).
Qed.

(** Property X14.  The frame loop and the restart of a pass taken while
    playing, whatever the captures do.  Each clip that is not marked done
    is read once, and only these are.  The grid shows, for each clip, under
    its caption, the picture that its read returned, and a blank frame for
    a clip whose read failed or that was marked done before.  When some
    clip has not ended, each clip read is left as its read left it, each
    clip whose read failed is marked done, and the clips marked done before
    are left alone.  When every clip was marked done or failed to read, the
    restart fires in this same pass: every capture is set to position 0
    after its read, if any, and no clip is marked done. *)
Theorem playing_pass (pend : option pending) (caps : list C)
    (video_info : list info) (video_done : list bool) :
  length caps = length video_info → length video_done = length caps →
  ∃ caps' done' cells,
    Player.pass read get_pos set_pos zero false pend caps video_info
      video_done
    = ok (caps', done', cells)
    ∧ length caps' = length caps ∧ length done' = length caps
    ∧ length cells = length caps
    ∧ (∀ (i : nat) (cap : C) (d : bool) (inf : info),
         caps !! i = Some cap → video_done !! i = Some d →
         video_info !! i = Some inf →
         cells !! i
         = Some (Labeled (shown read d cap) (label inf) (highlighted pend i)))
    ∧ (∀ (i : nat) (cap : C) (d : bool),
         caps !! i = Some cap → video_done !! i = Some d →
         let after := if d then cap else (read cap).2 in
         if all_ended read caps video_done
         then caps' !! i = Some (set_pos after zero)
              ∧ done' !! i = Some false
         else caps' !! i = Some after
              ∧ done' !! i = Some (d || read_fails read cap)).
Proof.
  intros Hinfo Hdone. unfold Player.pass.
  assert (length (zip caps video_info) = length caps) as Hzip.
  { rewrite length_zip_with. lia. }
  destruct (frame_loop_any pend (zip caps video_info) 0 video_done)
    as (cs & done & cells & -> & Hlc & Hlcells & Hld & _ & Hin);
    [simpl; lia |].
  rewrite bind_ok. cbv beta iota zeta.
  rewrite Hlc, Hzip, drop_all, app_nil_r, andb_true_r.
  assert (∀ (i : nat) (cap : C) (d : bool),
            caps !! i = Some cap → video_done !! i = Some d →
            cs !! i = Some (if d then cap else (read cap).2)
            ∧ done !! i = Some (d || read_fails read cap)) as Hloop.
  { intros i cap d Hc Hd.
    destruct (lookup_lt_is_Some_2 video_info i) as [inf Hinf].
    { apply lookup_lt_Some in Hc. lia. }
    destruct (Hin i cap inf d) as (? & ? & _); [|done |done].
    apply lookup_zip_with_Some. by exists cap, inf. }
  assert (all_done done = all_ended read caps video_done) as Hall.
  { apply eq_true_iff_eq.
    rewrite all_done_lookup, all_ended_lookup. split.
    - intros H i cap d Hc Hd. destruct (Hloop i cap d Hc Hd) as [_ Hflag].
      by apply (H i).
    - intros H i d' Hd'.
      destruct (lookup_lt_is_Some_2 caps i) as [cap Hc].
      { apply lookup_lt_Some in Hd'. lia. }
      destruct (lookup_lt_is_Some_2 video_done i) as [d Hd].
      { apply lookup_lt_Some in Hc. lia. }
      destruct (Hloop i cap d Hc Hd) as [_ Hflag].
      rewrite Hflag in Hd'. injection Hd' as <-. by apply (H i cap). }
  rewrite Hall.
  destruct (all_ended read caps video_done) eqn:Hend.
  - destruct (restart_loop_any cs 0 done) as (cs' & done' & -> & ? & ? & _ & Hre);
      [simpl; lia |].
    rewrite bind_ok. eexists _, _, _. split; [done |].
    split_and!; simpl; try lia.
    + intros i cap d inf Hc Hd Hinf.
      destruct (Hin i cap inf d) as (_ & _ & ?); [|done |done].
      apply lookup_zip_with_Some. by exists cap, inf.
    + intros i cap d Hc Hd. destruct (Hloop i cap d Hc Hd) as [Hc1 Hd1].
      destruct (Hre i _ _ Hc1 Hd1) as [Hc2 Hd2].
      rewrite (proj1 (all_ended_lookup _ _) Hend i cap d Hc Hd) in Hc2.
      done.
  - rewrite bind_ok. eexists _, _, _. split; [done |].
    split_and!; simpl; try lia.
    + intros i cap d inf Hc Hd Hinf.
      destruct (Hin i cap inf d) as (_ & _ & ?); [|done |done].
      apply lookup_zip_with_Some. by exists cap, inf.
    + intros i cap d Hc Hd. by apply Hloop.
Qed.

End AnyCapture.

(** The loops of the session are these, on the decode cursors. *)
Lemma frame_loop_on_cursors is_paused pend items : ∀ i done,
  frame_loop is_paused pend i items done
  = Player.frame_loop cap_read cap_get_pos cap_set_pos is_paused pend i
      items done.
Proof.
  induction items as [|[cap inf] items IH]; intros i flags; [done |].
  cbn [frame_loop Player.frame_loop].
  destruct (py_get flags i) as [e|d]; [done |]. rewrite !bind_ok.
  change (Player.play_clip cap_read cap_get_pos cap_set_pos is_paused d cap)
    with (play_clip is_paused d cap).
  destruct (play_clip is_paused d cap) as [[cap' mark] fr].
  destruct (if mark then _ else _) as [e|done1]; [done |]. rewrite !bind_ok.
  by rewrite IH.
Qed.

Lemma restart_loop_on_cursors cs : ∀ i done,
  restart_loop i cs done = Player.restart_loop cap_set_pos 0%nat i cs done.
Proof.
  induction cs as [|cap cs IH]; intros i flags; [done |].
  cbn [restart_loop Player.restart_loop].
  destruct (py_get flags i) as [e|d]; [done |]. rewrite !bind_ok.
  destruct (if d then _ else _) as [e|r1]; [done |]. rewrite !bind_ok.
  by rewrite IH.
Qed.

Lemma advance_on_cursors (g : grid) (s : session) :
  advance g s
  = (r <- Player.pass cap_read cap_get_pos cap_set_pos 0%nat (paused s)
            (pending_classification s) (caps s) (video_info g)
            (video_done s) ;;
     ok (set_playback r.1.1 r.1.2 s, r.2)).
Proof.
  unfold advance, Player.pass.
  rewrite frame_loop_on_cursors.
  destruct (Player.frame_loop _ _ _ _ _ _ _ _) as [e|[[visited flags] cells]];
    [done |].
  rewrite !bind_ok. cbv beta iota zeta. rewrite restart_loop_on_cursors.
  by destruct (if _ : bool then _ else _) as [e|[cs' flags']].
Qed.

Lemma playing_pass_witness :
  ∃ cells,
    Player.pass cap_read cap_get_pos cap_set_pos 0%nat false None
      (caps pair_session) (video_info pair_grid) (video_done pair_session)
    = ok ([ {| is_opened := true; frame_count := 5; pos_frames := 1 |};
            {| is_opened := true; frame_count := 5; pos_frames := 1 |} ],
          [false; false], cells)
    ∧ cells !! 1%nat = Some (Labeled (Decoded 0) "channel2_NOT_FOUND" false).
Proof.
  destruct (playing_pass cap_read cap_get_pos cap_set_pos 0%nat None
              (caps pair_session) (video_info pair_grid)
              (video_done pair_session) eq_refl eq_refl)
    as (caps' & done' & cells & E & _ & _ & _ & Hcells & _).
  exists cells. split.
  - rewrite E. vm_compute in E. injection E as <- <- _. reflexivity.
  - apply (Hcells 1%nat
             {| is_opened := true; frame_count := 5; pos_frames := 0 |} false
             {| file := "/v/day1/channel2_2T3_not_found.mp4";
                label := "channel2_NOT_FOUND";
                original_name := "channel2_2T3";
                model_status := "NOT_FOUND" |}); reflexivity.
Defined.

Lemma startup_has_clip o base answers fs g s :
  startup o base answers fs = inr (g, s) → (0 < length (video_info g))%nat.
Proof.
  unfold startup.
  destruct (select_folder o base answers) as [out [[]|folder]]; try done.
  cbv beta iota zeta.
  destruct (filter _ (sorted _)) as [|f fs'] eqn:E; [done |].
  rewrite <- E.
  assert (0 < length (filter (λ f, is_video f = true)
            (sorted (os_glob o (path_join folder "*.*")))))%nat as Hn.
  { rewrite E. simpl. lia. }
  clear E.
  destruct (floordiv _ _) as [e|r]; [done |].
  intros [= <- <-]. cbn [video_info]. by rewrite length_fmap.
Qed.

(** Property X15.  No pass begun while playing ends with every clip
    exhausted: whatever the key and the clicks, some clip is not marked
    done when the pass is over, since the restart fires in the pass in
    which the last clip ends.  Every clip can be exhausted between two
    passes only after a pass taken while paused. *)
Theorem playing_pass_leaves_a_clip (o : os) (base : string)
    (answers : list string) (fs : gmap string node) (g : grid)
    (s0 s : session) (inp : tick_input) :
  startup o base answers fs = inr (g, s0) → reachable g s0 s →
  paused s = false →
  all_done (video_done (state_of (tick g inp s))) = false.
Proof.
  intros Hstart Hreach Hp.
  pose proof (startup_has_clip _ _ _ _ _ _ Hstart) as Hclip.
  assert (well_formed g s) as Hwf.
  { apply (reachable_well_formed g s0); [|done].
    by apply (startup_well_formed o base answers fs). }
  pose proof Hwf as [Hi Hd].
  destruct (all_done _) eqn:Hall; [exfalso | done].
  pose proof (proj1 (all_done_lookup _) Hall) as Hflags.
  destruct (lookup_lt_is_Some_2 (caps s) 0) as [cap0 Hc0]; [lia |].
  destruct (is_rewind inp) eqn:Hr.
  - destruct (tick_playback g inp s Hwf)
      as (s1 & cells & _ & Hl1 & _ & _ & _ & _ & Hre).
    destruct (Hre Hr) as (_ & _ & Hin).
    destruct (lookup_lt_is_Some_2 (caps s1) 0) as [cap1 Hc1]; [lia |].
    destruct (Hin 0%nat cap1 Hc1) as [_ Hfalse].
    by specialize (Hflags _ _ Hfalse).
  - destruct (playing_pass_well_formed g inp s Hwf Hp Hr)
      as (s1 & cells & _ & _ & _ & Hno & Hre).
    destruct (run_over (caps s) (video_done s)) eqn:Hrun.
    + destruct (Hre eq_refl 0%nat cap0 Hc0) as [_ Hfalse].
      by specialize (Hflags _ _ Hfalse).
    + assert (run_over (caps s) (video_done s) = true) as Hrun';
        [|congruence].
      apply run_over_lookup. intros i cap d Hc Hdi.
      destruct (Hno eq_refl i cap d Hc Hdi) as [_ Hflag].
      by apply (Hflags i).
Qed.

Lemma playing_pass_leaves_a_clip_witness :
  all_done (video_done (state_of (tick demo_grid (press "T") demo_session)))
  = false.
Proof.
  apply (playing_pass_leaves_a_clip demo_os "/v" ["1"] ∅ demo_grid
           demo_session demo_session (press "T")).
  - reflexivity.
  - apply reach_start.
  - reflexivity.
Defined.

(** *** A clip that did not open *)

Lemma play_clip_unopened is_paused d cap :
  is_opened cap = false → play_clip is_paused d cap = (cap, negb d, Blank).
Proof.
  intros H. unfold play_clip, cap_read, cap_get_pos, cap_set_pos.
  rewrite H. by destruct d, is_paused.
Qed.

Lemma cap_set_pos_unopened cap p :
  is_opened cap = false → cap_set_pos cap p = cap.
Proof. intros H. unfold cap_set_pos. by rewrite H. Qed.

Lemma tick_unopened g inp s i cap :
  well_formed g s → caps s !! i = Some cap → is_opened cap = false →
  caps (state_of (tick g inp s)) !! i = Some cap.
Proof.
  intros Hwf Hc Hopen. pose proof Hwf as [Hi Hd].
  destruct (lookup_lt_is_Some_2 (video_done s) i) as [d Hdi].
  { apply lookup_lt_Some in Hc. lia. }
  destruct (lookup_lt_is_Some_2 (video_info g) i) as [inf Hinf].
  { apply lookup_lt_Some in Hc. lia. }
  destruct (advance_spec g s Hwf)
    as (cs & done & cells & cs' & done' & Hadv & _ & _ & _ & _ & _
        & Hclip & Hno & Hre).
  destruct (Hclip i cap d inf Hc Hdi Hinf) as (Hcs & _ & _).
  unfold clip_after in Hcs. rewrite play_clip_unopened in Hcs by done.
  simpl in Hcs.
  assert (cs' !! i = Some cap) as Hcs'.
  { destruct (all_done done && negb (paused s)).
    - destruct (Hre eq_refl i cap Hcs) as [-> _].
      by rewrite cap_set_pos_unopened.
    - by destruct (Hno eq_refl) as [-> _]. }
  destruct (tick_playback g inp s Hwf)
    as (s1 & cells1 & Hadv' & _ & _ & _ & _ & Hkeep & Hrew).
  rewrite Hadv in Hadv'. injection Hadv' as <- <-. simpl in *.
  destruct (is_rewind inp).
  - destruct (Hrew eq_refl) as (_ & _ & Hin).
    destruct (Hin i cap Hcs') as [-> _]. by rewrite cap_set_pos_unopened.
  - by destruct (Hkeep eq_refl) as [-> _].
Qed.

Lemma main_loop_reachable g s0 inputs : ∀ s s',
  reachable g s0 s → main_loop g inputs s = Continue s' → reachable g s0 s'.
Proof.
  induction inputs as [|inp inputs IH]; intros s s' Hreach Hloop.
  - by injection Hloop as <-.
  - cbn [main_loop] in Hloop.
    destruct (tick g inp s) as [s1|s1|e s1] eqn:Htick; try done.
    apply (IH s1); [|done]. by apply (reach_tick g s0 s inp).
Qed.

(** Property X17.  A clip that did not open keeps its cell.  [main] does
    not test whether a capture opened, so the clip stays in the grid for
    the whole session: in every session reached from startup its capture is
    as it was, and each pass shows a blank frame under its caption. *)
Theorem unopened_clip_stays_blank (o : os) (base : string)
    (answers : list string) (fs : gmap string node) (g : grid)
    (s0 s : session) (i : nat) (cap : VideoCapture) :
  startup o base answers fs = inr (g, s0) → reachable g s0 s →
  caps s0 !! i = Some cap → is_opened cap = false →
  caps s !! i = Some cap
  ∧ ∃ s1 cells inf,
      advance g s = ok (s1, cells)
      ∧ video_info g !! i = Some inf
      ∧ cells !! i
        = Some (Labeled Blank (label inf)
                        (highlighted (pending_classification s) i)).
Proof.
  intros Hstart Hreach Hc0 Hopen.
  pose proof (startup_well_formed _ _ _ _ _ _ Hstart) as Hwf0.
  assert (caps s !! i = Some cap) as Hc.
  { induction Hreach as [|s inp s' Hreach IH Htick]; [done |].
    pose proof (tick_unopened g inp s i cap
                  (reachable_well_formed g s0 s Hwf0 Hreach) IH Hopen) as H.
    by rewrite Htick in H. }
  split; [done |].
  pose proof (reachable_well_formed g s0 s Hwf0 Hreach) as Hwf.
  pose proof Hwf as [Hi Hd].
  destruct (lookup_lt_is_Some_2 (video_done s) i) as [d Hdi].
  { apply lookup_lt_Some in Hc. lia. }
  destruct (lookup_lt_is_Some_2 (video_info g) i) as [inf Hinf].
  { apply lookup_lt_Some in Hc. lia. }
  destruct (advance_spec g s Hwf)
    as (cs & done & cells & cs' & done' & Hadv & _ & _ & _ & _ & _
        & Hclip & _).
  destruct (Hclip i cap d inf Hc Hdi Hinf) as (_ & _ & Hcell).
  unfold frame_of in Hcell. rewrite play_clip_unopened in Hcell by done.
  by eexists _, cells, inf.
Qed.

Lemma unopened_clip_stays_blank_witness :
  ∃ g s0,
    startup five_os "/v" ["1"] ∅ = inr (g, s0)
    ∧ let s := state_of (main_loop g [no_input; press "r"; no_input] s0) in
      is_opened <$> caps s !! 1%nat = Some false
      ∧ ∃ s1 cells inf,
          advance g s = ok (s1, cells)
          ∧ video_info g !! 1%nat = Some inf
          ∧ cells !! 1%nat
            = Some (Labeled Blank (label inf)
                            (highlighted (pending_classification s) 1)).
Proof.
  destruct (startup five_os "/v" ["1"] ∅) as [e|[g s0]] eqn:E.
  - vm_compute in E. discriminate E.
  - exists g, s0. split; [reflexivity |]. intros s.
    set (cap := {| is_opened := false; frame_count := 0; pos_frames := 0 |}).
    assert (reachable g s0 s ∧ caps s0 !! 1%nat = Some cap) as [Hreach Hc0].
    { pose proof E as E'. vm_compute in E'. injection E' as <- <-.
      split; [|reflexivity].
      apply (main_loop_reachable _ _ [no_input; press "r"; no_input] _ _
               (reach_start _ _)).
      vm_compute. reflexivity. }
    destruct (unopened_clip_stays_blank five_os "/v" ["1"] ∅ g s0 s 1%nat cap
                E Hreach Hc0 eq_refl) as [Hc Hcell].
    split; [by rewrite Hc | exact Hcell].
Defined.

(** *** The rewind command *)

Lemma rewind_loop_closed (cs : list VideoCapture) : ∀ i (done : list bool),
  rewind_loop i cs done
  = if decide (cs = [] ∨ i + length cs ≤ length done)%nat
    then ok ((λ cap, cap_set_pos cap 0) <$> cs,
             take i done ++ replicate (length cs) false
             ++ drop (i + length cs) done)
    else raise IndexError.
Proof.
  induction cs as [|cap cs IH]; intros i done.
  - rewrite decide_True by auto. simpl.
    by rewrite Nat.add_0_r, take_drop.
  - cbn [rewind_loop length]. unfold py_set.
    destruct (decide (i < length done)%nat) as [Hi|Hi].
    + rewrite bind_ok, IH, length_insert.
      destruct (decide (cs = [] ∨ S i + length cs ≤ length done)%nat)
        as [Hok|Hno].
      * rewrite decide_True.
        2:{ right. destruct Hok as [->|?]; simpl; lia. }
        rewrite bind_ok. cbn [fst snd fmap list_fmap]. do 2 f_equal.
        rewrite (take_S_r _ _ false)
          by (apply list_lookup_insert_eq; lia).
        rewrite take_insert_ge by lia.
        rewrite drop_insert_lt by lia.
        rewrite <- app_assoc. cbn [replicate app].
        by replace (i + S (length cs))%nat with (S i + length cs)%nat by lia.
      * rewrite decide_False; [done |].
        intros [?|?]; [done |]. apply Hno. right. lia.
    + rewrite bind_raise, decide_False; [done |].
      intros [?|?]; [done | lia].
Qed.

(** Property X18.  [rewind_all_videos] in closed form.  With a flag for
    every capture it sets every cursor to the start and clears the flags of
    the captures, leaving any further flag as it was; with fewer flags than
    captures it fails with an index error. *)
Theorem rewind_all_videos_closed (cs : list VideoCapture)
    (done : list bool) :
  rewind_all_videos cs done
  = if decide (length cs ≤ length done)%nat
    then ok ((λ cap, cap_set_pos cap 0) <$> cs,
             replicate (length cs) false ++ drop (length cs) done)
    else raise IndexError.
Proof.
  unfold rewind_all_videos. rewrite rewind_loop_closed. simpl.
  destruct (decide (length cs ≤ length done)%nat) as [Hle|Hgt].
  - by rewrite decide_True by auto.
  - rewrite decide_False; [done |].
    intros [->|?]; [simpl in Hgt |]; lia.
Qed.

(** ** What the window shows *)

Lemma startup_rows o base answers fs g s :
  startup o base answers fs = inr (g, s) →
  1 ≤ cols g ∧ 0 ≤ rows g ∧ total g ≤ rows g * cols g
  ∧ total g = Z.of_nat (length (video_info g)).
Proof.
  unfold startup.
  destruct (select_folder o base answers) as [out [[]|folder]]; try done.
  cbv beta iota zeta.
  destruct (filter _ (sorted _)) as [|f fs'] eqn:E; [done |].
  rewrite <- E.
  assert (1 ≤ Z.of_nat (length (filter (λ f, is_video f = true)
            (sorted (os_glob o (path_join folder "*.*")))))) as Hn.
  { rewrite E. simpl. lia. }
  clear E. set (n := Z.of_nat _) in *.
  destruct (ceil_sqrt_spec n Hn) as (Hc & Hlo & Hhi).
  unfold floordiv. destruct (Z.eqb_spec (ceil_sqrt n) 0) as [|_]; [lia |].
  intros [= <- <-]. cbn [total cols rows video_info].
  rewrite length_fmap. fold n.
  pose proof (Z.div_mod (n + ceil_sqrt n - 1) (ceil_sqrt n) ltac:(lia)) as Hdm.
  pose proof (Z.mod_pos_bound (n + ceil_sqrt n - 1) (ceil_sqrt n) ltac:(lia)).
  split_and!; try done; nia.
Qed.

(** Property X19.  What the window shows after a pass is the state the
    pass began with.  The status bar tells whether playback was paused and
    whether a selection was pending when the pass began, the instruction
    panel is drawn exactly when one was and gives the name and the model
    status held by that selection, and clip [i] stands at row [i / cols],
    column [i mod cols] under its caption, highlighted exactly when a
    selection was pending and the index it holds is [i].  (A click left
    of the window can leave a negative index, with the name of the last
    clip: then no clip is highlighted.)  A selection made by the click of
    this pass, or dropped by its key, is shown from the next pass on. *)
Theorem window_after_pass (o : os) (base : string) (answers : list string)
    (fs : gmap string node) (g : grid) (s0 s : session) (inp : tick_input) :
  startup o base answers fs = inr (g, s0) → reachable g s0 s →
  ∃ img,
    window (state_of (tick g inp s)) = Window (Some img)
    ∧ bar_paused img = paused s
    ∧ bar_classifying img
      = bool_decide (is_Some (pending_classification s))
    ∧ overlay img
      = (λ p, (p_original_name p, p_model_status p))
        <$> pending_classification s
    ∧ ∀ (i : nat) (inf : info),
        video_info g !! i = Some inf →
        ∃ fr,
          shown_at img (i / Z.to_nat (cols g))%nat (i mod Z.to_nat (cols g))%nat
          = Some (Labeled fr (label inf)
                          (highlighted (pending_classification s) i)).
Proof.
  intros Hstart Hreach.
  pose proof (startup_rows _ _ _ _ _ _ Hstart) as (Hc & Hr & Htot & Hlen).
  assert (well_formed g s) as Hwf.
  { apply (reachable_well_formed g s0); [|done].
    by apply (startup_well_formed o base answers fs). }
  pose proof Hwf as [Hi Hd].
  destruct (advance_spec g s Hwf)
    as (cs & done & cells & cs' & done' & Hadv & _ & _ & Hcells & _ & _
        & Hclip & _).
  exists (composite g (set_playback cs' done' s) cells). split_and!.
  - by apply tick_window.
  - done.
  - cbn [composite bar_classifying set_playback pending_classification].
    by destruct (pending_classification s).
  - cbn [composite overlay set_playback pending_classification].
    by destruct (pending_classification s).
  - intros i inf Hinf.
    pose proof (lookup_lt_Some _ _ _ Hinf) as Hlt.
    destruct (lookup_lt_is_Some_2 (caps s) i) as [cap Hcap]; [lia |].
    destruct (lookup_lt_is_Some_2 (video_done s) i) as [d Hdi]; [lia |].
    destruct (Hclip i cap d inf Hcap Hdi Hinf) as (_ & _ & Hcell).
    exists (frame_of (paused s) d cap).
    set (n := Z.to_nat (cols g)).
    assert (0 < n)%nat as Hn by (unfold n; lia).
    unfold shown_at, composite. cbn [grid_rows]. fold n.
    rewrite cut_rows_lookup.
    + replace (i / n * n + i mod n)%nat with i
        by (rewrite (Nat.div_mod_eq i n) at 1; lia).
      by rewrite (lookup_app_l_Some _ _ _ _ Hcell).
    + apply Nat.Div0.div_lt_upper_bound. unfold n. nia.
    + apply Nat.mod_upper_bound. lia.
Qed.

Lemma window_after_pass_witness :
  let s := state_of (tick pair_grid (left_click 330 50) pair_session) in
  ∃ img,
    window (state_of (tick pair_grid (press " ") s)) = Window (Some img)
    ∧ bar_paused img = paused s
    ∧ bar_classifying img
      = bool_decide (is_Some (pending_classification s))
    ∧ overlay img
      = (λ p, (p_original_name p, p_model_status p))
        <$> pending_classification s
    ∧ ∀ (i : nat) (inf : info),
        video_info pair_grid !! i = Some inf →
        ∃ fr,
          shown_at img (i / Z.to_nat (cols pair_grid))%nat
            (i mod Z.to_nat (cols pair_grid))%nat
          = Some (Labeled fr (label inf)
                          (highlighted (pending_classification s) i)).
Proof.
  intros s.
  apply (window_after_pass pair_os "/v" ["1"] ∅ pair_grid pair_session s
           (press " ")).
  - vm_compute. reflexivity.
  - apply (reach_tick _ _ pair_session (left_click 330 50));
      [apply reach_start | vm_compute; reflexivity].
Defined.

(** ** What leaves [main] *)









(** * The downloader *)

(** ** Strings *)

Lemma string_app_nil_r (s : string) : s +:+ "" = s.
Proof. induction s as [|c s IH]; simpl; [done | by f_equal]. Qed.

Lemma string_length_app (a b : string) :
  String.length (a +:+ b) = (String.length a + String.length b)%nat.
Proof. induction a as [|c a IH]; simpl; [done | by f_equal]. Qed.

Lemma substring_0_app (a b : string) :
  String.substring 0 (String.length a) (a +:+ b) = a.
Proof. induction a as [|c a IH]; simpl; [by destruct b | by f_equal]. Qed.

Lemma substring_skip_app (a b : string) (n : nat) :
  String.substring (String.length a) n (a +:+ b) = String.substring 0 n b.
Proof. induction a as [|c a IH]; simpl; done. Qed.

Lemma substring_0_all (s : string) :
  String.substring 0 (String.length s) s = s.
Proof. induction s as [|c s IH]; simpl; [done | by f_equal]. Qed.

Lemma first_app (a b : string) n :
  String.length a = n → Text.first n (a +:+ b) = a.
Proof. intros <-. apply substring_0_app. Qed.

Lemma last_app (a b : string) n :
  String.length b = n → Text.last n (a +:+ b) = b.
Proof.
  intros <-. unfold Text.last. rewrite string_length_app.
  replace (String.length a + String.length b - String.length b)%nat
    with (String.length a) by lia.
  rewrite substring_skip_app. apply substring_0_all.
Qed.

Lemma contains_here (needle s r : string) :
  Str.strip_prefix needle s = Some r → Text.contains needle s = true.
Proof. intros H. destruct s; simpl; by rewrite H. Qed.

Lemma contains_app (needle pre rest : string) :
  Text.contains needle (pre +:+ needle +:+ rest) = true.
Proof.
  induction pre as [|c pre IH]; simpl.
  - apply (contains_here _ _ rest), strip_prefix_app.
  - by destruct (Str.strip_prefix needle _).
Qed.

(** ** The matcher on the detection pattern *)

Lemma times_sound {A} n cls : ∀ (s : string) (k : string → string → option A) r,
  Pat.times n cls s k = Some r →
  ∃ a b, s = a +:+ b ∧ String.length a = n ∧ Str.all cls a = true
         ∧ k a b = Some r.
Proof.
  induction n as [|n IH]; intros s k r; simpl.
  - intros Hk. by exists "", s.
  - destruct s as [|x s]; [done |]. destruct (cls x) eqn:Hx; [|done].
    intros (a & b & -> & <- & Ha & Hk)%IH.
    exists (String x a), b. simpl. by rewrite Hx, Ha.
Qed.

Lemma times_exact {A} cls (a b : string) (k : string → string → option A) :
  Str.all cls a = true →
  Pat.times (String.length a) cls (a +:+ b) k = k a b.
Proof.
  revert k. induction a as [|x a IH]; intros k Ha; simpl in *; [done |].
  apply andb_true_iff in Ha as [-> Ha]. by rewrite IH.
Qed.

Lemma match_at_detection_sound (s : string) g len :
  Pat.match_at detection_pattern s = Some (g, len) →
  ∃ ds date time rest,
    s = detection_name ds date time +:+ rest
    ∧ (ds ≠ "" ∧ Str.all Str.is_digit ds = true)
    ∧ digits 8 date ∧ digits 6 time
    ∧ g = [ds; date +:+ "T" +:+ time]
    ∧ len = String.length (detection_name ds date time).
Proof.
  unfold Pat.match_at, detection_pattern. cbn [Pat.run].
  destruct (Str.strip_prefix "channel" s) as [s0|] eqn:H0; [|done].
  apply strip_prefix_Some in H0 as ->.
  intros (ds & s1 & -> & ? & ? & H1)%plus_sound.
  destruct (Str.strip_prefix "_" s1) as [s2|] eqn:H2; [|done].
  apply strip_prefix_Some in H2 as ->.
  apply times_sound in H1 as (date & s3 & -> & ? & ? & H3).
  destruct (Str.strip_prefix "T" s3) as [s4|] eqn:H4; [|done].
  apply strip_prefix_Some in H4 as ->.
  apply times_sound in H3 as (time & s5 & -> & ? & ? & H5).
  destruct (Str.strip_prefix "_manager_detections.txt" s5) as [s6|] eqn:H6;
    [|done].
  apply strip_prefix_Some in H6 as ->.
  injection H5 as <- <-.
  exists ds, date, time, s6. unfold detection_name, digits.
  split_and!; try done.
  - by rewrite !string_app_assoc.
  - by rewrite !string_app_assoc.
Qed.

Lemma match_at_detection_name (ds date time rest : string) :
  ds ≠ "" → Str.all Str.is_digit ds = true →
  digits 8 date → digits 6 time →
  Pat.match_at detection_pattern (detection_name ds date time +:+ rest)
  = Some ([ds; date +:+ "T" +:+ time],
          String.length (detection_name ds date time)).
Proof.
  intros Hne Hds [Hl8 Hd8] [Hl6 Hd6].
  unfold Pat.match_at, detection_pattern, detection_name.
  rewrite !string_app_assoc. cbn [Pat.run].
  rewrite strip_prefix_app.
  apply plus_longest; [done.. |]. rewrite strip_prefix_app.
  rewrite <- Hl8, times_exact by done. rewrite strip_prefix_app.
  rewrite <- Hl6, times_exact by done. rewrite strip_prefix_app.
  by rewrite !string_app_assoc.
Qed.

(** ** The scan *)

Lemma findall_from_sound r : ∀ (s : string) skip g,
  g ∈ Pat.findall_from r skip s →
  ∃ pre suf len, s = pre +:+ suf ∧ Pat.match_at r suf = Some (g, len).
Proof.
  induction s as [|c s IH]; intros skip g.
  - destruct skip; simpl; [|by intros ?%elem_of_nil].
    destruct (Pat.match_at r "") as [[g0 len]|] eqn:E;
      [|by intros ?%elem_of_nil].
    intros ->%list_elem_of_singleton. by exists "", "", len.
  - assert (∀ n, g ∈ Pat.findall_from r n s →
              ∃ pre suf len,
                String c s = pre +:+ suf ∧ Pat.match_at r suf = Some (g, len))
      as Hrest.
    { intros n (pre & suf & len & -> & Hm)%IH.
      by exists (String c pre), suf, len. }
    destruct skip; simpl; [|apply Hrest].
    destruct (Pat.match_at r (String c s)) as [[g0 len]|] eqn:E;
      [|apply Hrest].
    intros [->|Hin]%elem_of_cons; [|by apply (Hrest _ Hin)].
    by exists "", (String c s), len.
Qed.

Lemma findall_from_skip r (a rest : string) :
  Pat.findall_from r (String.length a) (a +:+ rest)
  = Pat.findall_from r 0 rest.
Proof. induction a as [|c a IH]; simpl; [by destruct rest | done]. Qed.

Lemma findall_from_free (pre s : string) :
  free_of "c" pre →
  Pat.findall_from detection_pattern 0 (pre +:+ s)
  = Pat.findall_from detection_pattern 0 s.
Proof.
  unfold free_of. induction pre as [|x pre IH]; simpl; [done |].
  intros [Hx Hpre]%andb_true_iff.
  assert (Pat.match_at detection_pattern (String x (pre +:+ s)) = None) as ->.
  { unfold Pat.match_at, detection_pattern. cbn [Pat.run].
    assert (Str.strip_prefix "channel" (String x (pre +:+ s)) = None) as ->;
      [|done].
    cbn [Str.strip_prefix].
    destruct (Ascii.eqb_spec "c" x) as [<-|]; done. }
  by apply IH.
Qed.

Lemma findall_detection_name (ds date time rest : string) :
  ds ≠ "" → Str.all Str.is_digit ds = true →
  digits 8 date → digits 6 time →
  Pat.findall_from detection_pattern 0 (detection_name ds date time +:+ rest)
  = [ds; date +:+ "T" +:+ time] :: Pat.findall_from detection_pattern 0 rest.
Proof.
  intros Hne Hds H8 H6.
  pose proof (match_at_detection_name ds date time rest Hne Hds H8 H6) as Hm.
  remember (String.length (detection_name ds date time)) as len eqn:Hlen.
  unfold detection_name in *. simpl in *.
  rewrite Hm. f_equal. rewrite Hlen. simpl. apply findall_from_skip.
Qed.

(** Property X21.  The scan of a paragraph finds the detections it lists.
    For a paragraph made of detection names
    [channel<digits>_<8 digits>T<6 digits>_manager_detections.txt], each
    after any text without the letter c, and closed by such a text,
    [re.findall] returns the digits of the channel and the timestamp of
    every one of them, in order, and nothing else. *)
Theorem findall_detections
    (items : list (string * (string * string * string))) (tail : string) :
  Forall (λ it, free_of "c" it.1
                ∧ (it.2.1.1 ≠ "" ∧ Str.all Str.is_digit it.2.1.1 = true)
                ∧ digits 8 it.2.1.2 ∧ digits 6 it.2.2) items →
  free_of "c" tail →
  Pat.findall detection_pattern (listing items tail)
  = (λ it, [it.2.1.1; it.2.1.2 +:+ "T" +:+ it.2.2]) <$> items.
Proof.
  intros Hitems Htail. unfold Pat.findall.
  induction Hitems as [|[sep [[ds date] time]] items (Hsep & [? ?] & ? & ?) _ IH].
  - cbn [listing]. rewrite <- (string_app_nil_r tail).
    by rewrite findall_from_free.
  - cbn [listing fst snd] in *. rewrite fmap_cons. cbn [fst snd].
    rewrite findall_from_free by done.
    rewrite findall_detection_name by done. by rewrite IH.
Qed.

Lemma findall_detections_witness :
  Pat.findall detection_pattern
    (listing [ ("{'file': '", ("502", "20250618", "145831"));
               ("', 'file': '", ("1502", "20250618", "145830")) ]
             "', 'status': 'Found'}")
  = [ ["502"; "20250618T145831"]; ["1502"; "20250618T145830"] ].
Proof.
  apply (findall_detections
           [ ("{'file': '", ("502", "20250618", "145831"));
             ("', 'file': '", ("1502", "20250618", "145830")) ]
           "', 'status': 'Found'}").
  - repeat constructor; simpl; done.
  - reflexivity.
Defined.

(** ** Reading the report *)

Lemma findall_detection_sound (text : string) g :
  g ∈ Pat.findall detection_pattern text →
  ∃ ds date time,
    (ds ≠ "" ∧ Str.all Str.is_digit ds = true)
    ∧ digits 8 date ∧ digits 6 time
    ∧ g = [ds; date +:+ "T" +:+ time]
    ∧ Text.contains (detection_name ds date time) text = true.
Proof.
  intros (pre & suf & len & -> & Hm)%findall_from_sound.
  apply match_at_detection_sound in Hm
    as (ds & date & time & rest & -> & [? ?] & ? & ? & -> & _).
  exists ds, date, time. split_and!; try done. apply contains_app.
Qed.

Lemma file_under_listed (doc : list string) (key : string * string)
    (e : entry) (m : gmap (string * string) (list entry)) :
  (∀ k es x, m !! k = Some es → x ∈ es → listed doc k x) →
  listed doc key e →
  ∀ k es x, file_under key e m !! k = Some es → x ∈ es → listed doc k x.
Proof.
  intros Hm He k es x. unfold file_under.
  destruct (decide (k = key)) as [->|Hne].
  - rewrite lookup_insert_eq. intros [= <-] [Hx|Hx]%elem_of_app.
    + destruct (m !! key) as [es0|] eqn:E; simpl in Hx.
      * by apply (Hm key es0).
      * by apply elem_of_nil in Hx.
    + by apply list_elem_of_singleton in Hx as ->.
  - rewrite lookup_insert_ne by done. apply Hm.
Qed.

Lemma parse_paragraph_listed (doc : list string) (text : string)
    (m : gmap (string * string) (list entry)) :
  text ∈ doc →
  (∀ k es x, m !! k = Some es → x ∈ es → listed doc k x) →
  ∀ k es x, parse_paragraph m text !! k = Some es → x ∈ es → listed doc k x.
Proof.
  intros Htext. unfold parse_paragraph.
  pose proof (findall_detection_sound text) as Hsound.
  revert m. induction (Pat.findall detection_pattern text) as [|g gs IH];
    intros m Hm; [done |].
  cbn [foldl]. apply IH.
  { intros g' Hg'. apply Hsound. by right. }
  destruct (Hsound g) as (ds & date & time & [? ?] & H8 & H6 & -> & Hin);
    [by left |].
  apply file_under_listed; [done |].
  exists ds, date, time, text.
  assert (Text.last 6 (date +:+ "T" +:+ time) = time) as ->.
  { rewrite <- string_app_assoc. apply last_app. by destruct H6. }
  assert (Text.first 8 (date +:+ "T" +:+ time) = date) as ->.
  { apply first_app. by destruct H8. }
  by split_and!.
Qed.

Lemma parse_docx_listed_sub (doc paragraphs : list string) :
  ∀ m : gmap (string * string) (list entry),
  paragraphs ⊆ doc →
  (∀ k es x, m !! k = Some es → x ∈ es → listed doc k x) →
  ∀ k es x, foldl parse_paragraph m paragraphs !! k = Some es → x ∈ es →
            listed doc k x.
Proof.
  induction paragraphs as [|text paragraphs IH]; intros m Hsub Hm; [done |].
  cbn [foldl]. apply IH.
  - intros t Ht. apply Hsub. by right.
  - apply parse_paragraph_listed; [|done]. apply Hsub. by left.
Qed.

Lemma parse_docx_listed (doc : list string) (key : string * string)
    (es : list entry) (e : entry) :
  parse_docx_group_by_HHMM doc !! key = Some es → e ∈ es → listed doc key e.
Proof.
  apply (parse_docx_listed_sub doc doc ∅); [done |].
  intros k es0 x H. by rewrite lookup_empty in H.
Qed.

(** Property X22.  For a report whose paragraphs are ASCII text, every
    entry of the map the report is read into stands for a detection that
    some paragraph lists: its channel is [channel<digits>], its timestamp
    eight digits, T and six digits, its time those six digits, its status
    the one of that paragraph, found when the paragraph says Found, else
    not_found when it says Not Found, else none; and it stands under the
    date and the hour and minute of its own timestamp. *)
Theorem parse_docx_entries (doc : list string) (key : string * string)
    (es : list entry) (e : entry) :
  Forall ascii_text doc →
  parse_docx_group_by_HHMM doc !! key = Some es → e ∈ es →
  listed doc key e
  ∧ key = (Text.first 8 (e_full_ts e), Text.first 4 (e_hhmmss e))
  ∧ (e_status e = Some "found" ∨ e_status e = Some "not_found"
     ∨ e_status e = None).
Proof.
  intros _ Hkey He.
  pose proof (parse_docx_listed doc key es e Hkey He) as Hl.
  split; [done |].
  destruct Hl as (ds & date & time & text & _ & [H8 _] & _ & _ & _ & -> & ->).
  simpl. split.
  - by rewrite first_app.
  - unfold paragraph_status.
    destruct (Text.contains "'status': 'Found'" text); [by left |].
    destruct (Text.contains "'status': 'Not Found'" text);
      [by right; left | by right; right].
Qed.

Lemma parse_docx_entries_witness :
  let e := {| e_channel := "channel602"; e_full_ts := "20250618T145830";
              e_hhmmss := "145830"; e_status := Some "not_found" |} in
  listed report ("20250618", "1458") e
  ∧ ("20250618", "1458")
    = (Text.first 8 (e_full_ts e), Text.first 4 (e_hhmmss e))
  ∧ (e_status e = Some "found" ∨ e_status e = Some "not_found"
     ∨ e_status e = None).
Proof.
  intros e.
  apply (parse_docx_entries report ("20250618", "1458")
           [ {| e_channel := "channel502"; e_full_ts := "20250618T145831";
                e_hhmmss := "145831"; e_status := Some "found" |}; e ]).
  - repeat constructor.
  - vm_compute. reflexivity.
  - right. left.
Defined.

(** ** The calls of the client *)

Lemma fetched_app (a b : list (string * string * bool)) :
  fetched (a ++ b) = fetched a ∪ fetched b.
Proof.
  unfold fetched. by rewrite filter_app, fmap_app, list_to_set_app_L.
Qed.

Lemma fetched_nil : fetched [] = ∅.
Proof. done. Qed.

Lemma fetched_one key destination (b : bool) :
  fetched [(key, destination, b)] = if b then {[key]} else ∅.
Proof.
  unfold fetched. destruct b.
  - rewrite filter_cons_True by done. simpl. apply (right_id_L ∅ (∪)).
  - by rewrite filter_cons_False by done.
Qed.

Lemma obeys_log_nil s3 n log_set P : obeys_log s3 n log_set P [].
Proof. intros j r H. by rewrite lookup_nil in H. Qed.

Lemma obeys_log_app s3 n log_set P (a b : list (string * string * bool)) :
  obeys_log s3 n log_set P a →
  obeys_log s3 (n + length a) (log_set ∪ fetched a) P b →
  obeys_log s3 n log_set P (a ++ b).
Proof.
  intros Ha Hb j r Hj.
  destruct (decide (j < length a)%nat) as [Hlt|Hge].
  - rewrite lookup_app_l in Hj by done.
    rewrite take_app_le by lia. by apply Ha.
  - rewrite lookup_app_r in Hj by lia.
    destruct (Hb _ _ Hj) as (H1 & H2 & H3).
    rewrite take_app_ge by lia. rewrite fetched_app.
    replace (n + j)%nat with (n + length a + (j - length a))%nat by lia.
    split_and!; [|done..]. by rewrite (assoc_L (∪)).
Qed.

Lemma obeys_log_mono s3 n log_set (P Q : string * string * bool → Prop)
    (reqs : list (string * string * bool)) :
  (∀ r, P r → Q r) → obeys_log s3 n log_set P reqs →
  obeys_log s3 n log_set Q reqs.
Proof.
  intros HPQ H j r Hj. destruct (H j r Hj) as (? & ? & ?). auto.
Qed.

Lemma extends_refl s3 P st st' :
  st'.1 = st.1 → requests st'.2 = requests st.2 →
  log_file st'.2 = log_file st.2 → extends s3 P st st'.
Proof.
  intros H1 H2 H3. exists []. rewrite app_nil_r.
  split_and!; [done | | done | apply obeys_log_nil].
  by rewrite H1, fetched_nil, (right_id_L ∅ (∪)).
Qed.

Lemma extends_trans s3 P st1 st2 st3 :
  extends s3 P st1 st2 → extends s3 P st2 st3 → extends s3 P st1 st3.
Proof.
  intros (a & Ha1 & Ha2 & Ha3 & Ha4) (b & Hb1 & Hb2 & Hb3 & Hb4).
  exists (a ++ b). split_and!.
  - by rewrite Hb1, Ha1, app_assoc.
  - by rewrite Hb2, Ha2, fetched_app, (assoc_L (∪)).
  - congruence.
  - apply obeys_log_app; [done |].
    rewrite Ha1, length_app, Ha2 in Hb4. done.
Qed.

Lemma extends_mono s3 (P Q : string * string * bool → Prop) st st' :
  (∀ r, P r → Q r) → extends s3 P st st' → extends s3 Q st st'.
Proof.
  intros HPQ (a & ? & ? & ? & ?). exists a. split_and!; try done.
  by apply (obeys_log_mono _ _ _ P).
Qed.

Lemma foldl_extends {X} s3 (P : X → string * string * bool → Prop)
    (step : gset string * world → X → gset string * world) (xs : list X) :
  ∀ st,
  (∀ st x, x ∈ xs → extends s3 (P x) st (step st x)) →
  extends s3 (λ r, ∃ x, x ∈ xs ∧ P x r) st (foldl step st xs).
Proof.
  induction xs as [|x xs IH]; intros st Hstep.
  - by apply extends_refl.
  - cbn [foldl]. apply (extends_trans _ _ _ (step st x)).
    + apply (extends_mono _ (P x)).
      * intros r Hr. exists x. split; [by left | done].
      * apply Hstep. by left.
    + apply (extends_mono _ (λ r, ∃ x0, x0 ∈ xs ∧ P x0 r)).
      * intros r (x0 & Hx0 & Hr). exists x0. split; [by right | done].
      * apply IH. intros st0 x0 Hx0. apply Hstep. by right.
Qed.

Lemma fetch_channel_extends (s3 : s3_client)
    (folder_path date hhmm : string) (related_entries : list entry) (st : gset string * world)
    (channel : string) :
  extends s3
    (λ r, ∃ e, List.find (λ e, String.eqb (e_channel e) channel)
                 related_entries = Some e
               ∧ r.1.1 = s3_key_of channel e
               ∧ r.1.2 = local_path_of folder_path channel e)
    st (fetch_channel s3 folder_path date hhmm related_entries st channel).
Proof.
  destruct st as [log_set w]. unfold fetch_channel.
  destruct (List.find _ related_entries) as [e|] eqn:Hfind;
    [|by apply extends_refl].
  destruct (decide (s3_key_of channel e ∈ log_set)) as [Hin|Hnew];
    [by apply extends_refl |].
  unfold download_from_s3.
  destruct (download_file s3 _ _ _ _) as [why|] eqn:Hcall.
  - exists [(s3_key_of channel e, local_path_of folder_path channel e, false)].
    split_and!; try done.
    + by rewrite fetched_one, (right_id_L ∅ (∪)).
    + intros [|j] r Hj; [|simpl in Hj; by rewrite lookup_nil in Hj].
      injection Hj as <-. cbn [fst snd]. rewrite Nat.add_0_r. cbn [take].
      split_and!.
      * by rewrite fetched_nil, (right_id_L ∅ (∪)).
      * cbn [requests] in Hcall. by rewrite Hcall.
      * by exists e.
  - exists [(s3_key_of channel e, local_path_of folder_path channel e, true)].
    split_and!; try done.
    + by rewrite fetched_one.
    + intros [|j] r Hj; [|simpl in Hj; by rewrite lookup_nil in Hj].
      injection Hj as <-. cbn [fst snd]. rewrite Nat.add_0_r. cbn [take].
      split_and!.
      * by rewrite fetched_nil, (right_id_L ∅ (∪)).
      * cbn [requests] in Hcall. by rewrite Hcall.
      * by exists e.
Qed.

Lemma fetch_key_extends (s3 : s3_client) (base_dir : string)
    (hhmm_map : gmap (string * string) (list entry))
    (st : gset string * world) (key : string * string) :
  extends s3
    (λ r, ∃ es channel e,
            hhmm_map !! key = Some es ∧ channel ∈ channel_list
            ∧ List.find (λ e, String.eqb (e_channel e) channel) es = Some e
            ∧ r.1.1 = s3_key_of channel e
            ∧ r.1.2 = local_path_of
                        (path_join base_dir (key.1 +:+ "T" +:+ key.2))
                        channel e)
    st (fetch_key s3 base_dir hhmm_map st key).
Proof.
  unfold fetch_key. destruct (hhmm_map !! key) as [es|] eqn:Hkey;
    [|by apply extends_refl].
  destruct key as [date hhmm]. cbn [fst snd].
  apply (extends_trans _ _ _ (st.1, makedirs (path_join base_dir
                                 (date +:+ "T" +:+ hhmm)) st.2)).
  { by apply extends_refl. }
  eapply extends_mono; [|apply (foldl_extends s3
    (λ channel r, ∃ e,
       List.find (λ e, String.eqb (e_channel e) channel) es = Some e
       ∧ r.1.1 = s3_key_of channel e
       ∧ r.1.2 = local_path_of (path_join base_dir (date +:+ "T" +:+ hhmm))
                   channel e))].
  - intros r (channel & Hch & e & ? & ? & ?). by exists es, channel, e.
  - intros st0 channel _. apply fetch_channel_extends.
Qed.

Lemma download_extends (paragraphs : list string) (s3 : s3_client)
    (base_dir : string) (selected_keys : list (string * string)) (w : world) :
  let w' :=
    download_videos_by_timestamps paragraphs s3 base_dir selected_keys w in
  ∃ reqs,
    requests w' = requests w ++ reqs
    ∧ log_file w' = Some (load_log w ∪ fetched reqs)
    ∧ obeys_log s3 (length (requests w)) (load_log w)
        (λ r, ∃ key es channel e,
           key ∈ selected_keys
           ∧ parse_docx_group_by_HHMM paragraphs !! key = Some es
           ∧ channel ∈ channel_list
           ∧ List.find (λ e, String.eqb (e_channel e) channel) es = Some e
           ∧ r.1.1 = s3_key_of channel e
           ∧ r.1.2 = local_path_of
                       (path_join base_dir (key.1 +:+ "T" +:+ key.2))
                       channel e)
        reqs.
Proof.
  intros w'. unfold w', download_videos_by_timestamps.
  destruct (foldl_extends s3
    (λ key r, ∃ es channel e,
       parse_docx_group_by_HHMM paragraphs !! key = Some es
       ∧ channel ∈ channel_list
       ∧ List.find (λ e, String.eqb (e_channel e) channel) es = Some e
       ∧ r.1.1 = s3_key_of channel e
       ∧ r.1.2 = local_path_of
                   (path_join base_dir (key.1 +:+ "T" +:+ key.2)) channel e)
    (fetch_key s3 base_dir (parse_docx_group_by_HHMM paragraphs))
    selected_keys (load_log w, w))
    as (reqs & Hreq & Hlog & _ & Hobeys).
  { intros st key _. apply fetch_key_extends. }
  exists reqs. cbn [fst snd] in *. cbn [requests log_file notify save_log].
  split_and!; [done | by rewrite Hlog |].
  eapply obeys_log_mono; [|exact Hobeys].
  intros r (key & Hkey & es & channel & e & ?). by exists key, es, channel, e.
Qed.

(** Property X23.  The downloader obeys its log.  Whatever the report, the
    client and the minutes asked for, a run adds calls of [download_file]
    and nothing else to those made before; each call asks for a key that
    is neither in the log the run started with nor fetched earlier in the
    run, so that no clip is fetched twice; and the log file the run leaves
    holds the keys it started with and the keys fetched by the calls that
    succeeded, and no other. *)
Theorem downloads_obey_log (paragraphs : list string) (s3 : s3_client)
    (base_dir : string) (selected_keys : list (string * string))
    (w : world) :
  let w' :=
    download_videos_by_timestamps paragraphs s3 base_dir selected_keys w in
  ∃ reqs,
    requests w' = requests w ++ reqs
    ∧ log_file w' = Some (load_log w ∪ fetched reqs)
    ∧ ∀ j key destination fetched_now,
        reqs !! j = Some (key, destination, fetched_now) →
        (key ∉ load_log w)
        ∧ (key ∉ fetched (take j reqs))
        ∧ fetched_now
          = bool_decide (download_file s3 (length (requests w) + j)
                           S3_BUCKET key destination = None).
Proof.
  intros w'.
  destruct (download_extends paragraphs s3 base_dir selected_keys w)
    as (reqs & Hreq & Hlog & Hobeys).
  exists reqs. split_and!; try done.
  intros j key destination fetched_now Hj.
  destruct (Hobeys j _ Hj) as (Hnew & Hb & _). cbn [fst snd] in *.
  apply not_elem_of_union in Hnew as [? ?]. by split_and!.
Qed.

(** ** The names of the local copies *)

Lemma all_impl (p q : ascii → bool) (s : string) :
  (∀ c, p c = true → q c = true) → Str.all p s = true → Str.all q s = true.
Proof.
  intros Hpq. induction s as [|c s IH]; simpl; [done |].
  intros [Hc Hs]%andb_true_iff. by rewrite (Hpq c Hc), IH.
Qed.

Lemma digit_is_word c : Str.is_digit c = true → Str.is_word c = true.
Proof. unfold Str.is_word. by intros ->. Qed.

Lemma word_not_dot c : Str.is_word c = true → negb (Ascii.eqb c ".") = true.
Proof. by destruct c as [[] [] [] [] [] [] [] []]. Qed.

Lemma word_not_slash c : Str.is_word c = true → negb (Ascii.eqb c "/") = true.
Proof. by destruct c as [[] [] [] [] [] [] [] []]. Qed.

Lemma free_of_app c (a b : string) :
  free_of c a → free_of c b → free_of c (a +:+ b).
Proof. unfold free_of. intros Ha Hb. by rewrite all_app, Ha, Hb. Qed.

Lemma replace_from_miss (old new : string) c (s : string) :
  Str.strip_prefix old (String c s) = None →
  Text.replace_from old new 0 (String c s)
  = String c (Text.replace_from old new 0 s).
Proof. intros H. cbn [Text.replace_from]. by rewrite H. Qed.

Lemma replace_extension (a new : string) :
  free_of "." a → Text.replace (a +:+ ".mkv") ".mkv" new = a +:+ new.
Proof.
  unfold Text.replace, free_of.
  induction a as [|c a IH].
  - intros _. simpl. by rewrite string_app_nil_r.
  - cbn [Str.all]. intros [Hc Ha]%andb_true_iff.
    change (String c a +:+ ".mkv") with (String c (a +:+ ".mkv")).
    rewrite replace_from_miss.
    + rewrite IH by done. done.
    + cbn [Str.strip_prefix].
      destruct (Ascii.eqb_spec "." c) as [<-|_]; done.
Qed.

Lemma basename_from_free (name keep : string) :
  free_of "/" name → basename_from name keep = keep.
Proof.
  unfold free_of. revert keep. induction name as [|c name IH]; intros keep;
    [done |].
  cbn [Str.all basename_from]. intros [Hc Hn]%andb_true_iff.
  apply negb_true_iff in Hc as ->. by apply IH.
Qed.

Lemma basename_from_slash (a name keep : string) :
  free_of "/" name → basename_from (a +:+ "/" +:+ name) keep = name.
Proof.
  intros Hname. revert keep. induction a as [|c a IH]; intros keep.
  - change ("" +:+ "/" +:+ name) with (String "/" name).
    cbn [basename_from]. rewrite Ascii.eqb_refl.
    by apply basename_from_free.
  - change (String c a +:+ "/" +:+ name)
      with (String c (a +:+ "/" +:+ name)).
    cbn [basename_from]. destruct (Ascii.eqb c "/"); apply IH.
Qed.

Lemma endswith_slash (dir : string) :
  Str.endswith dir "/" = true → ∃ d, dir = d +:+ "/".
Proof.
  unfold Str.endswith. induction dir as [|c dir IH]; simpl; [done |].
  destruct dir as [|c' dir].
  - simpl. destruct (Ascii.eqb_spec c "/") as [->|]; [|done].
    intros _. by exists "".
  - intros H. destruct IH as [d ->].
    { simpl in *. by rewrite Nat.sub_0_r in *. }
    by exists (String c d).
Qed.

Lemma basename_path_join (dir name : string) :
  free_of "/" name → basename (path_join dir name) = name.
Proof.
  intros Hname. unfold basename, path_join.
  destruct (Str.endswith dir "/") eqn:E.
  - apply endswith_slash in E as [d ->]. rewrite string_app_assoc.
    by apply basename_from_slash.
  - by apply basename_from_slash.
Qed.

Lemma map_app f (a b : string) :
  Str.map f (a +:+ b) = Str.map f a +:+ Str.map f b.
Proof. induction a as [|c a IH]; simpl; [done | by f_equal]. Qed.

Lemma is_video_mkv (a : string) : is_video (a +:+ ".mkv") = true.
Proof.
  unfold is_video, accepted_extensions. cbn [existsb].
  assert (Str.endswith (Str.lower (a +:+ ".mkv")) ".mkv" = true) as ->.
  { unfold Str.lower. rewrite map_app. unfold Str.endswith.
    rewrite string_length_app. cbn [String.length Str.map].
    replace (String.length (Str.map Str.lower_char a) + 4 - 4)%nat
      with (String.length (Str.map Str.lower_char a)) by lia.
    rewrite substring_skip_app.
    replace (4 <=? String.length (Str.map Str.lower_char a) + 4)%nat
      with true by (symmetry; apply Nat.leb_le; lia).
    done. }
  by rewrite !orb_true_r.
Qed.

Lemma is_video_path_join (dir a : string) :
  is_video (path_join dir (a +:+ ".mkv")) = true.
Proof.
  unfold path_join. destruct (Str.endswith dir "/").
  - rewrite <- string_app_assoc. apply is_video_mkv.
  - rewrite <- !string_app_assoc. apply is_video_mkv.
Qed.

Lemma clip_name_word (ds date time : string) :
  Str.all Str.is_digit ds = true → digits 8 date → digits 6 time →
  Str.all Str.is_word (clip_name ds date time) = true.
Proof.
  intros Hds [_ Hdate] [_ Htime]. unfold clip_name.
  rewrite !all_app.
  rewrite (all_impl _ _ ds digit_is_word Hds).
  rewrite (all_impl _ _ date digit_is_word Hdate).
  by rewrite (all_impl _ _ time digit_is_word Htime).
Qed.

Lemma format_status_word (text : string) :
  Text.format (paragraph_status text) ≠ ""
  ∧ Str.all Str.is_word (Text.format (paragraph_status text)) = true.
Proof.
  unfold paragraph_status.
  destruct (Text.contains "'status': 'Found'" text); [done |].
  by destruct (Text.contains "'status': 'Not Found'" text).
Qed.

(** The request made for an entry that the report lists. *)
Lemma listed_request (doc : list string) (base_dir : string)
    (keys : list (string * string)) (key : string * string)
    (es : list entry) (channel : string) (e : entry) (b : bool) :
  key ∈ keys →
  parse_docx_group_by_HHMM doc !! key = Some es →
  channel ∈ channel_list →
  List.find (λ e, String.eqb (e_channel e) channel) es = Some e →
  let r := (s3_key_of channel e,
            local_path_of (path_join base_dir (key.1 +:+ "T" +:+ key.2))
              channel e, b) in
  ∃ ds date time status,
    names_a_clip doc base_dir keys r ds date time status
    ∧ is_video r.1.2 = true
    ∧ extract_label_and_info r.1.2
      = ("channel" +:+ ds +:+ "_" +:+ Str.upper (Text.format status),
         clip_name ds date time,
         if decide (status = Some "found") then "FOUND" else "NOT_FOUND").
Proof.
  intros Hkey Hes Hch Hfind r.
  apply find_some in Hfind as [Hin Heq].
  apply String.eqb_eq in Heq. apply list_elem_of_In in Hin.
  destruct (parse_docx_listed doc key es e Hes Hin)
    as (ds & date & time & text & [Hne Hds] & H8 & H6 & Htext & Hcont
        & -> & ->).
  cbn [e_channel] in Heq. subst channel.
  exists ds, date, time, (paragraph_status text).
  destruct (format_status_word text) as [Hwne Hw].
  set (w := Text.format (paragraph_status text)) in *.
  pose proof (clip_name_word ds date time Hds H8 H6) as Hclip.
  assert (s3_key_of ("channel" +:+ ds)
            {| e_channel := "channel" +:+ ds;
               e_full_ts := date +:+ "T" +:+ time; e_hhmmss := time;
               e_status := paragraph_status text |}
          = clip_name ds date time +:+ ".mkv") as Hs3.
  { unfold s3_key_of, clip_name. cbn [e_full_ts].
    by rewrite !string_app_assoc. }
  assert (r.1.2
          = path_join
              (path_join base_dir (date +:+ "T" +:+ Text.first 4 time))
              (clip_name ds date time +:+ "_" +:+ w +:+ ".mkv")) as Hdest.
  { unfold r, local_path_of. cbn [fst snd e_status]. rewrite Hs3.
    rewrite replace_extension; [done |].
    apply (all_impl _ _ _ word_not_dot Hclip). }
  split_and!.
  - unfold names_a_clip. split_and!; try done. by exists text.
  - rewrite Hdest.
    replace (clip_name ds date time +:+ "_" +:+ w +:+ ".mkv")
      with ((clip_name ds date time +:+ "_" +:+ w) +:+ ".mkv")
      by (by rewrite !string_app_assoc).
    apply is_video_path_join.
  - rewrite Hdest.
    rewrite (extract_of_match _ ds date time w).
    + unfold clip_name. f_equal. unfold w, paragraph_status.
      destruct (Text.contains "'status': 'Found'" text); [reflexivity |].
      destruct (Text.contains "'status': 'Not Found'" text); reflexivity.
    + rewrite basename_path_join.
      * replace (clip_name ds date time +:+ "_" +:+ w +:+ ".mkv")
          with (label_shape ds date time w ".mkv")
          by (unfold label_shape, clip_name; by rewrite !string_app_assoc).
        apply rmatch_label_shape; [|done].
        destruct H8 as [Hl8 ?], H6 as [Hl6 ?].
        split; split; try done.
        -- by destruct date.
        -- by destruct time.
      * apply free_of_app; [apply (all_impl _ _ _ word_not_slash Hclip) |].
        apply (free_of_app _ "_"); [done |].
        apply free_of_app; [apply (all_impl _ _ _ word_not_slash Hw) | done].
Qed.

(** Property X24.  The downloader names the clips for the viewer.  Every
    call a run makes asks for the clip of a detection that the report
    lists, in one of the minutes asked for and on one of the twenty
    channels of the list: the key is [channel<n>_<timestamp>.mkv] and the
    local copy goes to the folder of the minute as
    [channel<n>_<timestamp>_<status>.mkv], with the status of the
    paragraph, or None when it gives none.  The viewer accepts that file
    as a clip and parses its name back: the original name is the key
    without its extension, and the model status is FOUND when the report
    says Found and NOT_FOUND otherwise, also when it gives no status. *)
Theorem downloads_named_for_viewer (paragraphs : list string)
    (s3 : s3_client) (base_dir : string)
    (selected_keys : list (string * string)) (w : world) :
  let w' :=
    download_videos_by_timestamps paragraphs s3 base_dir selected_keys w in
  ∃ reqs,
    requests w' = requests w ++ reqs
    ∧ Forall (λ r,
        ∃ ds date time status,
          names_a_clip paragraphs base_dir selected_keys r ds date time status
          ∧ is_video r.1.2 = true
          ∧ extract_label_and_info r.1.2
            = ("channel" +:+ ds +:+ "_" +:+ Str.upper (Text.format status),
               clip_name ds date time,
               if decide (status = Some "found") then "FOUND"
               else "NOT_FOUND")) reqs.
Proof.
  intros w'.
  destruct (download_extends paragraphs s3 base_dir selected_keys w)
    as (reqs & Hreq & _ & Hobeys).
  exists reqs. split; [done |].
  apply Forall_lookup. intros j [[k d] b] Hj.
  destruct (Hobeys j _ Hj)
    as (_ & _ & key & es & channel & e & Hkey & Hes & Hch & Hfind & Hk & Hd).
  cbn [fst snd] in Hk, Hd. subst k d.
  by apply (listed_request paragraphs base_dir selected_keys key es).
Qed.

(** A run on the report of three paragraphs: the second call fails, so
    its key stays out of the log. *)
Example download_report :
  let w := download_videos_by_timestamps report patchy_s3 "/data"
             [("20250618", "1458"); ("20250618", "1459")] fresh_world in
  requests w
  = [ ("channel502_20250618T145831.mkv",
       "/data/20250618T1458/channel502_20250618T145831_found.mkv", true);
      ("channel602_20250618T145830.mkv",
       "/data/20250618T1458/channel602_20250618T145830_not_found.mkv", false);
      ("channel702_20250618T145902.mkv",
       "/data/20250618T1459/channel702_20250618T145902_None.mkv", true) ]
  ∧ log_file w
    = Some {[ "channel502_20250618T145831.mkv";
              "channel702_20250618T145902.mkv" ]}
  ∧ extract_label_and_info
      "/data/20250618T1459/channel702_20250618T145902_None.mkv"
    = ("channel702_NONE", "channel702_20250618T145902", "NOT_FOUND").
Proof. vm_compute. by split_and!. Qed.




(** ** A day of downloads *)

Lemma elem_of_fetched (reqs : list (string * string * bool)) (k : string) :
  k ∈ fetched reqs ↔ ∃ j r, reqs !! j = Some r ∧ r.2 = true ∧ r.1.1 = k.
Proof.
  unfold fetched. rewrite elem_of_list_to_set, list_elem_of_fmap. split.
  - intros (r & -> & [Hr Hin]%list_elem_of_filter).
    apply list_elem_of_lookup in Hin as [j Hj]. by exists j, r.
  - intros (j & r & Hj & Hr & <-). exists r. split; [done |].
    apply list_elem_of_filter. split; [done |].
    by apply (list_elem_of_lookup_2 _ j).
Qed.

Lemma fetched_disjoint s3 n (log_set : gset string) P
    (reqs : list (string * string * bool)) :
  obeys_log s3 n log_set P reqs → log_set ## fetched reqs.
Proof.
  intros Hobeys. apply elem_of_disjoint. intros k Hlog Hk.
  apply elem_of_fetched in Hk as (j & r & Hj & _ & <-).
  destruct (Hobeys j r Hj) as (Hnew & _). apply Hnew.
  apply elem_of_union. by left.
Qed.

Lemma ran_refl s3 P (w w' : world) :
  requests w' = requests w → load_log w' = load_log w → ran s3 P 0 w w'.
Proof.
  intros Hr Hl. exists []. rewrite app_nil_r, fetched_nil.
  split_and!; [done | | apply obeys_log_nil | done].
  by rewrite Hl, (right_id_L ∅ (∪)).
Qed.

Lemma ran_trans s3 P d1 d2 (w1 w2 w3 : world) :
  ran s3 P d1 w1 w2 → ran s3 P d2 w2 w3 → ran s3 P (d1 + d2) w1 w3.
Proof.
  intros (a & Ha1 & Ha2 & Ha3 & Ha4) (b & Hb1 & Hb2 & Hb3 & Hb4).
  rewrite Ha1, length_app, Ha2 in Hb3.
  exists (a ++ b). split_and!.
  - by rewrite Hb1, Ha1, app_assoc.
  - by rewrite Hb2, Ha2, fetched_app, (assoc_L (∪)).
  - by apply obeys_log_app.
  - rewrite fetched_app, size_union; [lia |].
    apply fetched_disjoint in Hb3.
    apply elem_of_disjoint. intros k Hka Hkb.
    apply (proj1 (elem_of_disjoint _ _) Hb3 k); [|done].
    apply elem_of_union. by right.
Qed.

Lemma ran_mono s3 (P Q : string * string * bool → Prop) d (w w' : world) :
  (∀ r, P r → Q r) → ran s3 P d w w' → ran s3 Q d w w'.
Proof.
  intros HPQ (a & ? & ? & ? & ?). exists a. split_and!; try done.
  by apply (obeys_log_mono _ _ _ P).
Qed.

Lemma ran_notify s3 P d n (w w' : world) :
  ran s3 P d w w' → ran s3 P d w (notify n w').
Proof. done. Qed.

Lemma names_one_of_mono (doc : list string) (base_dir : string)
    (keys keys' : list (string * string)) (r : string * string * bool) :
  keys ⊆ keys' → names_one_of doc base_dir keys r →
  names_one_of doc base_dir keys' r.
Proof.
  intros Hsub (ds & date & time & status & H).
  exists ds, date, time, status. unfold names_a_clip in *.
  destruct H as (? & [? ?] & ? & ? & ? & ? & ? & ?).
  split_and!; try done. by apply Hsub.
Qed.

(** One run of the downloader, as [main] sees it: the number of keys in
    the log grows exactly when a clip is fetched. *)
Lemma download_ran (paragraphs : list string) (s3 : s3_client)
    (base_dir : string) (keys : list (string * string)) (w : world) :
  let w' := download_videos_by_timestamps paragraphs s3 base_dir keys w in
  ran s3 (names_one_of paragraphs base_dir keys)
    (if decide (size (load_log w) < size (load_log w'))%nat
     then 1%nat else 0%nat) w w'.
Proof.
  intros w'.
  destruct (download_extends paragraphs s3 base_dir keys w)
    as (reqs & Hreq & Hlog & Hobeys).
  fold w' in Hreq, Hlog.
  assert (load_log w' = load_log w ∪ fetched reqs) as Hload.
  { unfold load_log at 1. by rewrite Hlog. }
  exists reqs. split_and!; try done.
  - eapply obeys_log_mono; [|exact Hobeys].
    intros [[k dest] b] (key & es & channel & e & Hkey & Hes & Hch & Hfind
                         & Hk & Hd).
    cbn [fst snd] in Hk, Hd. subst k dest.
    destruct (listed_request paragraphs base_dir keys key es channel e b
                Hkey Hes Hch Hfind) as (ds & date & time & status & H & _).
    by exists ds, date, time, status.
  - destruct (decide _) as [Hgrow|_]; [|lia].
    rewrite Hload, size_union in Hgrow by by eapply fetched_disjoint.
    lia.
Qed.

Lemma visit_minute_ran (paragraphs : list string) (s3 : s3_client)
    (base_dir : string) (target_count : Z) (key : string * string)
    (st : scan) :
  downloaded_log st = load_log (machine st) →
  let st' := visit_minute paragraphs s3 base_dir target_count key st in
  downloaded_log st' = load_log (machine st')
  ∧ ∃ d : nat,
      (d ≤ 1)%nat
      ∧ found_count st' = found_count st + Z.of_nat d
      ∧ ran s3 (names_one_of paragraphs base_dir [key]) d
          (machine st) (machine st').
Proof.
  intros Hinv. unfold visit_minute.
  destruct (parse_docx_group_by_HHMM paragraphs !! key) as [es|].
  - pose proof (download_ran paragraphs s3 base_dir [key] (machine st))
      as Hran.
    cbv zeta in Hran. rewrite Hinv.
    destruct (decide _) as [Hgrow|Hsame]; cbn [downloaded_log machine
                                                found_count].
    + split; [done |]. exists 1%nat. split_and!; [lia | lia |].
      by apply ran_notify.
    + split; [done |]. exists 0%nat. split_and!; [lia | lia |].
      by apply ran_notify.
  - cbn [downloaded_log machine found_count]. split; [done |].
    exists 0%nat. split_and!; [lia | lia |]. by apply ran_refl.
Qed.

Lemma minutes_from_head (date_str : string) (left : nat) :
  (left < 1440)%nat →
  (date_str, hhmm_str (1440 - S left))
  ∈ minutes_from date_str (1440 - S left).
Proof.
  intros Hleft. unfold minutes_from. apply list_elem_of_fmap.
  exists (1440 - S left)%nat. split; [done |]. apply elem_of_seq. lia.
Qed.

Lemma minutes_from_tail (date_str : string) (left : nat) :
  (left < 1440)%nat →
  minutes_from date_str (1440 - left)
  ⊆ minutes_from date_str (1440 - S left).
Proof.
  intros Hleft key. unfold minutes_from. rewrite !list_elem_of_fmap.
  intros (m & -> & Hm). exists m. split; [done |].
  apply elem_of_seq in Hm. apply elem_of_seq. lia.
Qed.

Lemma scan_day_ran (paragraphs : list string) (s3 : s3_client)
    (base_dir date_str : string) (target_count : Z) (left : nat) :
  ∀ st : scan,
  (left ≤ 1440)%nat →
  downloaded_log st = load_log (machine st) →
  let st' :=
    (scan_day paragraphs s3 base_dir date_str target_count left st).1 in
  downloaded_log st' = load_log (machine st')
  ∧ ∃ d : nat,
      found_count st' = found_count st + Z.of_nat d
      ∧ (found_count st ≤ target_count → found_count st' ≤ target_count)
      ∧ (target_count ≤ found_count st → st' = st)
      ∧ ran s3 (names_one_of paragraphs base_dir
                  (minutes_from date_str (1440 - left))) d
          (machine st) (machine st').
Proof.
  induction left as [|left IH]; intros st Hleft Hinv.
  - cbn [scan_day fst]. split; [done |]. exists 0%nat.
    split_and!; [lia | done | done | by apply ran_refl].
  - cbn [scan_day].
    destruct (Z.ltb_spec (found_count st) target_count) as [Hlt|Hge].
    2:{ cbn [fst]. split; [done |]. exists 0%nat.
        split_and!; [lia | done | done | by apply ran_refl]. }
    destruct (visit_minute_ran paragraphs s3 base_dir target_count
                (date_str, hhmm_str (1440 - S left)) st Hinv)
      as (Hinv1 & d1 & Hd1 & Hfound1 & Hran1).
    set (st1 := visit_minute _ _ _ _ _ st) in *.
    assert (ran s3 (names_one_of paragraphs base_dir
                      (minutes_from date_str (1440 - S left))) d1
              (machine st) (machine st1)) as Hran1'.
    { eapply ran_mono; [|exact Hran1].
      intros r. apply names_one_of_mono.
      intros key ->%list_elem_of_singleton.
      apply minutes_from_head. lia. }
    destruct ((left =? 0)%nat && String.eqb date_str "99991231").
    + cbn [fst]. split; [done |]. exists d1.
      split_and!; [done | lia | lia | done].
    + destruct (IH st1 ltac:(lia) Hinv1) as (Hinv2 & d2 & Hfound2 & Hle2
                                             & _ & Hran2).
      split; [done |]. exists (d1 + d2)%nat. split_and!.
      * rewrite Hfound2, Hfound1. lia.
      * intros _. apply Hle2. lia.
      * lia.
      * apply (ran_trans _ _ _ _ _ (machine st1)); [done |].
        eapply ran_mono; [|exact Hran2].
        intros r. apply names_one_of_mono, minutes_from_tail. lia.
Qed.

Lemma main_from_ran (paragraphs : list string) (s3 : s3_client)
    (base_dir date_str : string) (target_count : Z) (minute : nat)
    (w : world) :
  let r := main_from paragraphs s3 base_dir date_str target_count minute w in
  ∃ d : nat,
    r.1 = Z.of_nat d
    ∧ (0 ≤ target_count → r.1 ≤ target_count)
    ∧ ran s3 (names_one_of paragraphs base_dir
                (minutes_from date_str minute)) d w r.2.
Proof.
  intros r. unfold r, main_from.
  set (st0 := {| found_count := 0; downloaded_log := load_log w;
                 machine := w |}).
  destruct (scan_day_ran paragraphs s3 base_dir date_str target_count
              (1440 - minute) st0 ltac:(lia) eq_refl)
    as (_ & d & Hfound & Hle & _ & Hran).
  destruct (scan_day _ _ _ _ _ _ st0) as [st raised]. cbn [fst] in *.
  cbn [found_count machine st0] in *.
  exists d. split_and!; [lia | exact Hle |].
  assert (ran s3 (names_one_of paragraphs base_dir
                    (minutes_from date_str minute)) d w (machine st))
    as Hran'.
  { destruct (decide (minute ≤ 1440)%nat).
    - by replace (1440 - (1440 - minute))%nat with minute in Hran by lia.
    - eapply ran_mono; [|exact Hran]. intros r0.
      apply names_one_of_mono. intros key.
      unfold minutes_from.
      replace (1440 - (1440 - minute))%nat with 1440%nat by lia.
      cbn [Nat.sub seq fmap list_fmap]. by intros ?%elem_of_nil. }
  destruct raised; [by apply ran_notify |].
  destruct (_ <? _); by apply ran_notify.
Qed.

(** Property X26.  Over a day of [main] no clip is fetched twice, and
    only clips of that day.  From the start of the loop to its closing
    message, each call of [download_file] asks for a key that is neither
    in the log [main] found nor fetched earlier in the day, by any of the
    runs of the downloader; the clip is one the report lists on that day,
    at a minute from the start on; and the log at the end holds the keys
    it held and the keys fetched. *)
Theorem main_fetches_once (paragraphs : list string) (s3 : s3_client)
    (base_dir date_str : string) (target_count : Z) (minute : nat)
    (w : world) :
  let w' :=
    (main_from paragraphs s3 base_dir date_str target_count minute w).2 in
  ∃ reqs,
    requests w' = requests w ++ reqs
    ∧ load_log w' = load_log w ∪ fetched reqs
    ∧ ∀ j key destination fetched_now,
        reqs !! j = Some (key, destination, fetched_now) →
        (key ∉ load_log w)
        ∧ (key ∉ fetched (take j reqs))
        ∧ ∃ ds date time status,
            names_a_clip paragraphs base_dir (minutes_from date_str minute)
              (key, destination, fetched_now) ds date time status
            ∧ date = date_str.
Proof.
  intros w'.
  destruct (main_from_ran paragraphs s3 base_dir date_str target_count
              minute w) as (d & _ & _ & reqs & Hreq & Hlog & Hobeys & _).
  exists reqs. split_and!; try done.
  intros j key destination fetched_now Hj.
  destruct (Hobeys j _ Hj) as (Hnew & _ & ds & date & time & status & Hname).
  cbn [fst snd] in Hnew. apply not_elem_of_union in Hnew as [? ?].
  split_and!; try done. exists ds, date, time, status. split; [done |].
  destruct Hname as (_ & _ & _ & _ & Hkey & _).
  unfold minutes_from in Hkey.
  by apply list_elem_of_fmap in Hkey as (m & [= -> _] & _).
Qed.

(** Property X27.  The count of [main] is backed by clips.  For a target
    that is not negative, the number of minutes [main] counts as
    fulfilled never exceeds the target, and never exceeds the number of
    keys the day added to the log: a minute counts only when the run of
    the downloader for it fetched a clip that was not in the log. *)
Theorem main_count (paragraphs : list string) (s3 : s3_client)
    (base_dir date_str : string) (target_count : Z) (minute : nat)
    (w : world) :
  0 ≤ target_count →
  let r := main_from paragraphs s3 base_dir date_str target_count minute w in
  0 ≤ r.1 ≤ target_count
  ∧ r.1 ≤ Z.of_nat (size (load_log r.2 ∖ load_log w)).
Proof.
  intros Htarget r.
  destruct (main_from_ran paragraphs s3 base_dir date_str target_count
              minute w) as (d & Hd & Hle & reqs & _ & Hlog & Hobeys & Hsize).
  fold r in Hd, Hle, Hlog. split; [lia |].
  rewrite Hd, Hlog. apply inj_le.
  assert ((load_log w ∪ fetched reqs) ∖ load_log w = fetched reqs) as ->;
    [|done].
  apply fetched_disjoint in Hobeys.
  apply set_eq. intros k. rewrite elem_of_difference, elem_of_union.
  split.
  - intros [[?|?] ?]; done.
  - intros Hk. split; [by right |]. intros Hlog'.
    by apply (proj1 (elem_of_disjoint _ _) Hobeys k).
Qed.

Lemma main_count_witness :
  let r := main_from report patchy_s3 "/data" "20250618" 2 897
             fresh_world in
  0 ≤ r.1 ≤ 2
  ∧ r.1 ≤ Z.of_nat (size (load_log r.2 ∖ load_log fresh_world)).
Proof.
  apply (main_count report patchy_s3 "/data" "20250618" 2 897 fresh_world).
  lia.
Defined.

(** A day on the report of three paragraphs, from 14:57 on, for two
    minutes with a clip: 14:57 is not in the report, 14:58 and 14:59 each
    give one, and the target is reached. *)
Example main_on_report :
  let r := main_from report patchy_s3 "/data" "20250618" 2 897
             fresh_world in
  r.1 = 2
  ∧ load_log r.2 = {[ "channel502_20250618T145831.mkv";
                      "channel702_20250618T145902.mkv" ]}
  ∧ last (notices r.2) = Some TargetReached.
Proof. vm_compute. by split_and!. Qed.

